(** * Tuso_SD: orchestrated saga over pedidos, inventario and pagos

    A shallow embedding of the three services that take part in the saga
    ([services/pedidos/src/app.js], [services/inventario/src/app.js],
    [services/pagos/src/app.js]) and of the tables of [scripts/init-db.sql]
    they read and write.

    - Tables are fields of one record [Mundo]; [productos] is keyed by its
      primary key and carries the one column the services use
      ([stock_disponible]); every other table is the list of its rows in
      insertion order.
    - The two RabbitMQ queues, [saga_events] and [pedidos_responses], are
      lists (head = oldest message).
    - Every awaited call to the store or to the channel is a point where the
      call may reject.  A fault schedule ([Fallas]) says, call by call,
      whether it does; the code of the services is written in a state and
      exception monad [M] over [Mundo] and the schedule.  The statements
      check what the schema of [scripts/init-db.sql] makes the store check
      on the values they bind or write: the NOT NULL columns, the range of
      the INTEGER columns and parameters, the range of the DECIMAL(10,2)
      amount, the foreign key of a reservation, and the text of a URL read
      as a UUID.  The ids drawn by [uuidv4()] are taken as uuids that are
      new to their tables.  Any other refusal by the store stands among
      the rejections of the schedule.
    - The fields [productoId] and [cantidad] of a request are whole
      numbers or absent.
    - Timestamps are milliseconds (Z); [reloj] is what [Date.now()] and the
      store's [NOW()] read.  The values of [uuidv4()] and [Math.random()]
      are arguments of the functions that draw them.
    - Handlers run one at a time, each to its end; logging is left out. *)

From Stdlib Require Import ZArith QArith String List Bool Lia.
From stdpp Require Import gmap strings list.

Local Open Scope string_scope.
Local Open Scope list_scope.
Local Open Scope Z_scope.

(** ** Data model *)

(** [SagaState] of the orchestrator (pedidos.estado). *)
Inductive SagaState : Type :=
| INICIADA
| INVENTARIO_RESERVADO
| PAGO_PROCESADO
| COMPLETADA
| CANCELADA
| COMPENSANDO.

Global Instance SagaState_eq_dec : EqDecision SagaState.
Proof. solve_decision. Defined.

(** reservas_temporales.estado *)
Inductive EstadoReserva : Type := ACTIVA | LIBERADA | EXPIRADA.

Global Instance EstadoReserva_eq_dec : EqDecision EstadoReserva.
Proof. solve_decision. Defined.

(** transacciones.estado *)
Inductive EstadoTransaccion : Type := PENDIENTE | APROBADA | RECHAZADA | REVERTIDA.

Global Instance EstadoTransaccion_eq_dec : EqDecision EstadoTransaccion.
Proof. solve_decision. Defined.

(** Row of [pedidos]. *)
Record Pedido : Type := mkPedido {
  ped_id : string;
  ped_saga_id : string;
  ped_usuario_id : Z;
  ped_producto_id : Z;
  ped_cantidad : Z;
  ped_estado : SagaState }.

(** Row of [saga_estados] (the step log). *)
Record SagaPaso : Type := mkSagaPaso {
  sp_saga_id : string;
  sp_paso : string;
  sp_estado : string }.

(** Row of [reservas_temporales]. *)
Record Reserva : Type := mkReserva {
  res_saga_id : string;
  res_producto_id : Z;
  res_cantidad_reservada : Z;
  res_expira_en : Z;
  res_estado : EstadoReserva }.

(** Row of [transacciones]; [tx_monto] is [None] for NaN. *)
Record Transaccion : Type := mkTransaccion {
  tx_transaction_id : string;
  tx_saga_id : string;
  tx_monto : option Z;
  tx_metodo_pago : string;
  tx_estado : EstadoTransaccion;
  tx_referencia_externa : Z }.

(** The JSON payload of a message: an object whose fields may be absent. *)
Record Payload : Type := mkPayload {
  productoId : option Z;
  cantidad : option Z;
  pedidoId : option string;
  metodoPago : option string;
  razon : option string;
  error : option string }.

Definition payload_vacio : Payload :=
  mkPayload None None None None None None.

(** Message on [saga_events]: [{ sagaId, evento, payload, timestamp }]. *)
Record Mensaje : Type := mkMensaje {
  msg_sagaId : string;
  msg_evento : string;
  msg_payload : Payload;
  msg_timestamp : Z }.

(** Message on [pedidos_responses]:
    [{ sagaId, evento, success, payload, timestamp, servicio }]. *)
Record Respuesta : Type := mkRespuesta {
  rsp_sagaId : string;
  rsp_evento : string;
  rsp_success : bool;
  rsp_payload : Payload;
  rsp_timestamp : Z;
  rsp_servicio : string }.

(** The stores of the three services, the two queues and the clock.
    [bitacora] is a history variable: every [UPDATE pedidos SET estado] and
    the [INSERT] that creates the order append the saga id and the status
    they write. *)
Record Mundo : Type := mkMundo {
  reloj : Z;
  pedidos : list Pedido;
  saga_estados : list SagaPaso;
  bitacora : list (string * SagaState);
  productos : gmap Z Z;
  reservas_temporales : list Reserva;
  transacciones : list Transaccion;
  saga_events : list Mensaje;
  pedidos_responses : list Respuesta }.

Definition con_reloj (f : Z → Z) (w : Mundo) : Mundo :=
  mkMundo (f (reloj w)) (pedidos w) (saga_estados w) (bitacora w) (productos w)
          (reservas_temporales w) (transacciones w) (saga_events w)
          (pedidos_responses w).
Definition con_pedidos (f : list Pedido → list Pedido) (w : Mundo) : Mundo :=
  mkMundo (reloj w) (f (pedidos w)) (saga_estados w) (bitacora w) (productos w)
          (reservas_temporales w) (transacciones w) (saga_events w)
          (pedidos_responses w).
Definition con_saga_estados (f : list SagaPaso → list SagaPaso) (w : Mundo) : Mundo :=
  mkMundo (reloj w) (pedidos w) (f (saga_estados w)) (bitacora w) (productos w)
          (reservas_temporales w) (transacciones w) (saga_events w)
          (pedidos_responses w).
Definition con_bitacora (f : list (string * SagaState) → list (string * SagaState))
    (w : Mundo) : Mundo :=
  mkMundo (reloj w) (pedidos w) (saga_estados w) (f (bitacora w)) (productos w)
          (reservas_temporales w) (transacciones w) (saga_events w)
          (pedidos_responses w).
Definition con_productos (f : gmap Z Z → gmap Z Z) (w : Mundo) : Mundo :=
  mkMundo (reloj w) (pedidos w) (saga_estados w) (bitacora w) (f (productos w))
          (reservas_temporales w) (transacciones w) (saga_events w)
          (pedidos_responses w).
Definition con_reservas (f : list Reserva → list Reserva) (w : Mundo) : Mundo :=
  mkMundo (reloj w) (pedidos w) (saga_estados w) (bitacora w) (productos w)
          (f (reservas_temporales w)) (transacciones w) (saga_events w)
          (pedidos_responses w).
Definition con_transacciones (f : list Transaccion → list Transaccion) (w : Mundo) : Mundo :=
  mkMundo (reloj w) (pedidos w) (saga_estados w) (bitacora w) (productos w)
          (reservas_temporales w) (f (transacciones w)) (saga_events w)
          (pedidos_responses w).
Definition con_saga_events (f : list Mensaje → list Mensaje) (w : Mundo) : Mundo :=
  mkMundo (reloj w) (pedidos w) (saga_estados w) (bitacora w) (productos w)
          (reservas_temporales w) (transacciones w) (f (saga_events w))
          (pedidos_responses w).
Definition con_pedidos_responses (f : list Respuesta → list Respuesta) (w : Mundo) : Mundo :=
  mkMundo (reloj w) (pedidos w) (saga_estados w) (bitacora w) (productos w)
          (reservas_temporales w) (transacciones w) (saga_events w)
          (f (pedidos_responses w)).

(** ** Column types of the store *)

(** The values an [INTEGER] column or parameter takes. *)
Definition es_integer (n : Z) : bool := (-2147483648 <=? n) && (n <=? 2147483647).

(** A parameter bound to an [INTEGER]: NULL ([None]) or a value of the
    type. *)
Definition parametro_integer (x : option Z) : bool :=
  match x with
  | Some n => es_integer n
  | None => true
  end.

(** The amounts a [DECIMAL(10,2)] column takes: NaN ([None]), or a value of
    absolute value below 10^8. *)
Definition es_decimal_10_2 (x : option Z) : bool :=
  match x with
  | Some n => Z.abs n <? 100000000
  | None => true
  end.

Definition es_hex (c : Ascii.ascii) : bool :=
  let n := Ascii.nat_of_ascii c in
  ((48 <=? n) && (n <=? 57) || (65 <=? n) && (n <=? 70)
   || (97 <=? n) && (n <=? 102))%nat.

Definition minuscula (c : Ascii.ascii) : Ascii.ascii :=
  let n := Ascii.nat_of_ascii c in
  if ((65 <=? n) && (n <=? 90))%nat then Ascii.ascii_of_nat (n + 32) else c.

(** The loop of the input routine of the store's [UUID] type, with [n]
    bytes left to read and [i] the index of the next one: a byte is two
    hexadecimal digits of either case, and a hyphen is skipped after every
    second byte but the last.  The digits come back in lower case, with the
    text that follows them. *)
Fixpoint leer_bytes_uuid (n i : nat) (src : string) : option (string * string) :=
  match n with
  | O => Some (EmptyString, src)
  | S n' =>
      match src with
      | String a (String b resto) =>
          if es_hex a && es_hex b then
            let resto' :=
              match resto with
              | String c resto'' =>
                  if Ascii.eqb c (Ascii.ascii_of_nat 45) && Nat.odd i && (i <? 15)%nat
                  then resto'' else resto
              | EmptyString => resto
              end in
            match leer_bytes_uuid n' (S i) resto' with
            | Some (digitos, fin) =>
                Some (String (minuscula a) (String (minuscula b) digitos), fin)
            | None => None
            end
          else None
      | _ => None
      end
  end.

(** The text the store gives back for a uuid: 8-4-4-4-12 digits. *)
Definition con_guiones (d : string) : string :=
  substring 0 8 d +:+ "-" +:+ substring 8 4 d +:+ "-" +:+ substring 12 4 d +:+ "-"
  +:+ substring 16 4 d +:+ "-" +:+ substring 20 12 d.

(** The input routine of the [UUID] type as PostgreSQL documents it: the
    standard form, and also upper-case digits, surrounding braces and
    hyphens left out or put after any group of four digits.  Any other text
    is refused.  A uuid is kept as the text the store gives back for it. *)
Definition uuid_postgres (source : string) : option string :=
  let '(llaves, src) :=
    match source with
    | String c resto =>
        if Ascii.eqb c (Ascii.ascii_of_nat 123) then (true, resto) else (false, source)
    | EmptyString => (false, source)
    end in
  match leer_bytes_uuid 16 0 src with
  | Some (digitos, fin) =>
      let fin' :=
        if llaves then
          match fin with
          | String c resto =>
              if Ascii.eqb c (Ascii.ascii_of_nat 125) then Some resto else None
          | EmptyString => None
          end
        else Some fin in
      match fin' with
      | Some EmptyString => Some (con_guiones digitos)
      | _ => None
      end
  | None => None
  end.

(** ** The monad of the services *)

(** Outcome of an awaited call: a value, or a rejection with its message. *)
Inductive Res (A : Type) : Type :=
| Ok (a : A)
| Throw (e : string).
Arguments Ok {A} a.
Arguments Throw {A} e.

(** One flag per call to the store or to the channel, in program order:
    [true] makes that call reject.  Past the end of the schedule no call
    rejects. *)
Definition Fallas : Type := list bool.

Definition M (A : Type) : Type := Fallas → Mundo → Res A * Mundo * Fallas.

Definition ret {A} (a : A) : M A := λ fs w, (Ok a, w, fs).

Definition bind {A B} (m : M A) (k : A → M B) : M B :=
  λ fs w,
    match m fs w with
    | (Ok a, w', fs') => k a fs' w'
    | (Throw e, w', fs') => (Throw e, w', fs')
    end.

Definition throw {A} (e : string) : M A := λ fs w, (Throw e, w, fs).

(** [try { m } catch (error) { h error }] *)
Definition try_catch {A} (m : M A) (h : string → M A) : M A :=
  λ fs w,
    match m fs w with
    | (Ok a, w', fs') => (Ok a, w', fs')
    | (Throw e, w', fs') => h e fs' w'
    end.

(** An awaited call to the store or the channel: it consumes one flag of
    the schedule; when the flag is set the call rejects and has no effect,
    otherwise it does [f]. *)
Definition op {A} (f : Mundo → Res A * Mundo) : M A :=
  λ fs w,
    match fs with
    | true :: fs' => (Throw "ECONNREFUSED", w, fs')
    | _ :: fs' => let '(r, w') := f w in (r, w', fs')
    | [] => let '(r, w') := f w in (r, w', [])
    end.

(** A statement that only writes. *)
Definition escribe (f : Mundo → Mundo) : M unit := op (λ w, (Ok tt, f w)).

(** A statement that only reads. *)
Definition lee {A} (f : Mundo → A) : M A := op (λ w, (Ok (f w), w)).

Global Instance M_ret : MRet M := @ret.
Global Instance M_bind : MBind M := λ A B k m, bind m k.

(** The state a transaction opened now would be rolled back to. *)
Definition instantanea : M Mundo := λ fs w, (Ok w, w, fs).

(** The tables of inventario_db as they were in [w0], the rest as in [w]. *)
Definition restaurar (w0 w : Mundo) : Mundo :=
  con_reservas (λ _, reservas_temporales w0) (con_productos (λ _, productos w0) w).

(** [pool.connect()]: a call that may reject and writes nothing. *)
Definition pool_connect : M unit := escribe (λ w, w).

Definition BEGIN : M unit := escribe (λ w, w).
Definition COMMIT : M unit := escribe (λ w, w).

(** [client.query('ROLLBACK')] of a transaction opened at [w0].  Whether
    the statement reaches the store or the call rejects, the writes of the
    open transaction are discarded. *)
Definition ROLLBACK (w0 : Mundo) : M unit :=
  λ fs w,
    match fs with
    | true :: fs' => (Throw "ECONNREFUSED", restaurar w0 w, fs')
    | _ :: fs' => (Ok tt, restaurar w0 w, fs')
    | [] => (Ok tt, restaurar w0 w, [])
    end.

(** [SELECT * FROM tabla WHERE saga_id = $1] with a text taken from a URL
    as parameter.  The column is UUID: the store reads the text as a uuid
    and compares values, and it refuses the statement when the text is not a
    uuid.  [uuid_in] is that reading, with the uuid given as the text the
    store returns for it, which is how the rows keep it. *)
Definition select_por_saga_id {A} (uuid_in : string → option string)
    (saga_id : A → string) (tabla : Mundo → list A) (texto : string) : M (list A) :=
  op (λ w,
    match uuid_in texto with
    | Some u => (Ok (List.filter (λ fila, (saga_id fila =? u)%string) (tabla w)), w)
    | None => (Throw "invalid input syntax for type uuid", w)
    end).

(** Result, final store and rest of the schedule of a run. *)
Definition resultado {A} (x : Res A * Mundo * Fallas) : Res A := x.1.1.
Definition mundo_final {A} (x : Res A * Mundo * Fallas) : Mundo := x.1.2.

(** Run without faults. *)
Definition correr {A} (m : M A) (w : Mundo) : Res A * Mundo := (m [] w).1.

(** ** services/inventario/src/app.js *)

Module Inventario.

(** [a < b] where [b] may be [undefined]: the comparison with [undefined]
    is false. *)
Definition js_lt (a : Z) (b : option Z) : bool :=
  match b with
  | Some b => a <? b
  | None => false
  end.

(** [enviarRespuesta]: push a response on [pedidos_responses]. *)
Definition enviarRespuesta (sagaId evento : string) (success : bool)
    (payload : Payload) : M unit :=
  escribe (λ w,
    con_pedidos_responses
      (λ q, q ++ [mkRespuesta sagaId evento success payload (reloj w) "inventario"]) w).

(** [SELECT stock_disponible FROM productos WHERE id = $1 FOR UPDATE]:
    the stock of the row, if there is one. *)
Definition select_stock (productoId : option Z) : M (option Z) :=
  op (λ w,
    if parametro_integer productoId then (Ok (id ← productoId; productos w !! id), w)
    else (Throw "value out of range for type integer", w)).

(** [UPDATE productos SET stock_disponible = stock_disponible - $1
    WHERE id = $2].  Both parameters are bound to INTEGER; on the row of the
    product a NULL amount violates the NOT NULL of the column and a
    difference outside INTEGER is refused. *)
Definition update_restar_stock (cantidad productoId : option Z) : M unit :=
  op (λ w,
    if negb (parametro_integer cantidad && parametro_integer productoId) then
      (Throw "value out of range for type integer", w)
    else
      match productoId with
      | None => (Ok tt, w)
      | Some id =>
          match productos w !! id, cantidad with
          | None, _ => (Ok tt, w)
          | Some _, None => (Throw "null value in column stock_disponible", w)
          | Some s, Some c =>
              if es_integer (s - c)
              then (Ok tt, con_productos (alter (λ s, s - c) id) w)
              else (Throw "integer out of range", w)
          end
      end).

(** [INSERT INTO reservas_temporales (saga_id, producto_id,
    cantidad_reservada, expira_en)]; [estado] takes its default, ACTIVA.
    The two integer columns are NOT NULL and [producto_id] references a row
    of [productos]. *)
Definition insert_reserva (sagaId : string) (productoId cantidad : option Z) : M unit :=
  op (λ w,
    match productoId, cantidad with
    | Some id, Some c =>
        if negb (es_integer id && es_integer c) then
          (Throw "value out of range for type integer", w)
        else
          match productos w !! id with
          | None => (Throw "violates foreign key constraint", w)
          | Some _ =>
              (Ok tt,
               con_reservas
                 (λ rs, rs ++ [mkReserva sagaId id c (reloj w + 10 * 60 * 1000) ACTIVA])
                 w)
          end
    | _, _ =>
        if parametro_integer productoId && parametro_integer cantidad
        then (Throw "null value violates not-null constraint", w)
        else (Throw "value out of range for type integer", w)
    end).

Definition reservarStock (sagaId : string) (productoId cantidad : option Z) : M bool :=
  pool_connect;;
  w0 ← instantanea;
  try_catch
    (BEGIN;;
     stockResult ← select_stock productoId;
     match stockResult with
     | None => throw "Producto no encontrado"
     | Some stockDisponible =>
         if js_lt stockDisponible cantidad then
           ROLLBACK w0;; mret false
         else
           update_restar_stock cantidad productoId;;
           insert_reserva sagaId productoId cantidad;;
           COMMIT;;
           mret true
     end)
    (λ error, ROLLBACK w0;; throw error).

(** [SELECT * FROM reservas_temporales WHERE saga_id = $1 AND estado = $2] *)
Definition reserva_de (sagaId : string) (e : EstadoReserva) (r : Reserva) : bool :=
  (res_saga_id r =? sagaId)%string && bool_decide (res_estado r = e).

Definition select_reservas (sagaId : string) (e : EstadoReserva) : M (list Reserva) :=
  lee (λ w, List.filter (reserva_de sagaId e) (reservas_temporales w)).

(** Whether the sum of a stock and a quantity is a value of the INTEGER
    column; vacuously when there is no row to update. *)
Definition cabe_suma (stock : option Z) (cantidad : Z) : bool :=
  match stock with
  | Some s => es_integer (s + cantidad)
  | None => true
  end.

(** [UPDATE productos SET stock_disponible = stock_disponible + $1
    WHERE id = $2], with the quantity and the product of a row of
    [reservas_temporales]; a sum outside INTEGER is refused. *)
Definition update_sumar_stock (cantidad productoId : Z) : M unit :=
  op (λ w,
    if cabe_suma (productos w !! productoId) cantidad
    then (Ok tt, con_productos (alter (λ s, s + cantidad) productoId) w)
    else (Throw "integer out of range", w)).

Definition marcar (e : EstadoReserva) (r : Reserva) : Reserva :=
  mkReserva (res_saga_id r) (res_producto_id r) (res_cantidad_reservada r)
            (res_expira_en r) e.

(** [UPDATE reservas_temporales SET estado = $1 WHERE saga_id = $2] *)
Definition update_estado_reservas (e : EstadoReserva) (sagaId : string) : M unit :=
  escribe (con_reservas
    (map (λ r, if (res_saga_id r =? sagaId)%string then marcar e r else r))).

Definition liberarStock (sagaId : string) : M unit :=
  pool_connect;;
  w0 ← instantanea;
  try_catch
    (BEGIN;;
     reservaResult ← select_reservas sagaId ACTIVA;
     match reservaResult with
     | reserva :: _ =>
         update_sumar_stock (res_cantidad_reservada reserva) (res_producto_id reserva);;
         update_estado_reservas LIBERADA sagaId
     | [] => mret tt
     end;;
     COMMIT)
    (λ error, ROLLBACK w0;; throw error).

Definition procesarEventoInventario (event : Mensaje) : M unit :=
  let sagaId := msg_sagaId event in
  let evento := msg_evento event in
  let payload := msg_payload event in
  try_catch
    (if (evento =? "RESERVAR_INVENTARIO")%string then
       success ← reservarStock sagaId (productoId payload) (cantidad payload);
       enviarRespuesta sagaId "INVENTARIO_RESERVADO" success payload
     else if (evento =? "LIBERAR_INVENTARIO")%string then
       liberarStock sagaId
     else mret tt)
    (λ error,
       enviarRespuesta sagaId "INVENTARIO_RESERVADO" false
         (mkPayload None None None None None (Some error))).

(** The callback of [channel.consume('saga_events', ...)]. *)
Definition consumidor (event : Mensaje) : M unit :=
  if (msg_evento event =? "RESERVAR_INVENTARIO")%string
     || (msg_evento event =? "LIBERAR_INVENTARIO")%string
  then procesarEventoInventario event
  else mret tt.

(** The first statement of the sweep:
    [UPDATE reservas_temporales SET estado = 'EXPIRADA'
     WHERE expira_en < NOW() AND estado = 'ACTIVA'], with its row count. *)
Definition vencida (ahora : Z) (r : Reserva) : bool :=
  (res_expira_en r <? ahora) && bool_decide (res_estado r = ACTIVA).

Definition update_expirar : M Z :=
  op (λ w,
    (Ok (Z.of_nat (length (List.filter (vencida (reloj w)) (reservas_temporales w)))),
     con_reservas
       (map (λ r, if vencida (reloj w) r then marcar EXPIRADA r else r)) w)).

(** The second statement of the sweep:
    [UPDATE productos SET stock_disponible = stock_disponible + rt.cantidad_reservada
     FROM reservas_temporales rt
     WHERE rt.producto_id = productos.id AND rt.estado = 'EXPIRADA'
       AND rt.expira_en > NOW() - INTERVAL '1 minute'].
    A product row that joins several reservations is updated once, from one
    of them; the first in table order is taken here.  The statement is
    refused as a whole when one of the sums is outside INTEGER. *)
Definition devuelve (ahora id : Z) (r : Reserva) : bool :=
  (res_producto_id r =? id) && bool_decide (res_estado r = EXPIRADA)
  && (ahora - 60 * 1000 <? res_expira_en r).

(** Whether the row [(id, stock)] of [productos], if the statement updates
    it, gets a value of the column. *)
Definition cabe_devolucion (ahora : Z) (rs : list Reserva) (fila : Z * Z) : bool :=
  match List.find (devuelve ahora fila.1) rs with
  | Some rt => es_integer (fila.2 + res_cantidad_reservada rt)
  | None => true
  end.

Definition update_devolver_expiradas : M unit :=
  op (λ w,
    if forallb (cabe_devolucion (reloj w) (reservas_temporales w))
         (map_to_list (productos w))
    then
      (Ok tt,
       con_productos
         (map_imap (λ id s,
            Some match List.find (devuelve (reloj w) id) (reservas_temporales w) with
                 | Some rt => s + res_cantidad_reservada rt
                 | None => s
                 end)) w)
    else (Throw "integer out of range", w)).

(** The callback of [setInterval(..., 5 * 60 * 1000)]. *)
Definition barrido : M unit :=
  try_catch
    (rowCount ← update_expirar;
     if 0 <? rowCount then update_devolver_expiradas else mret tt)
    (λ error, mret tt).

Definition intervalo_barrido : Z := 5 * 60 * 1000.

(** The handler of [GET /productos]: the rows of
    [SELECT * FROM productos WHERE stock_disponible > 0], of which the store
    keeps the id and the stock, or 500. *)
Definition get_productos : M (Z * option (gmap Z Z)) :=
  try_catch
    (result ← lee (λ w, filter (λ fila : Z * Z, 0 < fila.2) (productos w));
     mret (200, Some result))
    (λ error, mret (500, None)).

End Inventario.

(** ** services/pagos/src/app.js *)

Module Pagos.

Definition enviarRespuesta (sagaId evento : string) (success : bool)
    (payload : Payload) : M unit :=
  escribe (λ w,
    con_pedidos_responses
      (λ q, q ++ [mkRespuesta sagaId evento success payload (reloj w) "pagos"]) w).

Definition metodosValidos : list string :=
  ["tarjeta_credito"; "tarjeta_debito"; "pse"; "efectivo"].

(** [metodosValidos.includes(metodoPago)]; [undefined] is in no list of
    strings. *)
Definition includes (l : list string) (x : option string) : bool :=
  match x with
  | Some s => existsb (String.eqb s) l
  | None => false
  end.

(** [precios[productoId] || 100000.00] *)
Definition obtenerPrecioProducto (productoId : option Z) : Z :=
  match productoId with
  | Some 1 => 450000
  | Some 2 => 180000
  | Some 3 => 85000
  | Some 4 => 890000
  | _ => 100000
  end.

(** [precio * cantidad]; NaN ([None]) when [cantidad] is [undefined]. *)
Definition montoTotal (precio : Z) (cantidad : option Z) : option Z :=
  c ← cantidad; Some (precio * c).

(** [INSERT INTO transacciones (transaction_id, saga_id, monto, metodo_pago,
    estado, referencia_externa)]; [monto] is DECIMAL(10,2) and an amount
    that does not fit is refused. *)
Definition insert_transaccion (transactionId sagaId : string) (monto : option Z)
    (metodo : string) (estado : EstadoTransaccion) : M unit :=
  op (λ w,
    if es_decimal_10_2 monto then
      (Ok tt,
       con_transacciones
         (λ ts, ts ++ [mkTransaccion transactionId sagaId monto metodo estado (reloj w)])
         w)
    else (Throw "numeric field overflow", w)).

(** [procesarPago(sagaId, payload)].  [transactionId] is the value of
    [uuidv4()] and [azar] the value of [Math.random()] in this call. *)
Definition procesarPago (sagaId : string) (payload : Payload)
    (transactionId : string) (azar : Q) : M bool :=
  try_catch
    (if negb (includes metodosValidos (metodoPago payload)) then mret false
     else
       let precio := obtenerPrecioProducto (productoId payload) in
       let monto := montoTotal precio (cantidad payload) in
       let exitoso := negb (Qle_bool azar (1 # 10)) in
       insert_transaccion transactionId sagaId monto
         (default "" (metodoPago payload))
         (if exitoso then APROBADA else RECHAZADA);;
       mret exitoso)
    (λ error, mret false).

(** [SELECT * FROM transacciones WHERE saga_id = $1 AND estado = $2] *)
Definition transaccion_de (sagaId : string) (e : EstadoTransaccion)
    (t : Transaccion) : bool :=
  (tx_saga_id t =? sagaId)%string && bool_decide (tx_estado t = e).

Definition select_transacciones (sagaId : string) (e : EstadoTransaccion) :
    M (list Transaccion) :=
  lee (λ w, List.filter (transaccion_de sagaId e) (transacciones w)).

Definition marcar (e : EstadoTransaccion) (t : Transaccion) : Transaccion :=
  mkTransaccion (tx_transaction_id t) (tx_saga_id t) (tx_monto t)
                (tx_metodo_pago t) e (tx_referencia_externa t).

(** [UPDATE transacciones SET estado = $1 WHERE transaction_id = $2] *)
Definition update_estado_transaccion (e : EstadoTransaccion) (transactionId : string) :
    M unit :=
  escribe (con_transacciones
    (map (λ t, if (tx_transaction_id t =? transactionId)%string then marcar e t else t))).

Definition compensarPago (sagaId : string) : M unit :=
  try_catch
    (result ← select_transacciones sagaId APROBADA;
     match result with
     | transaccion :: _ =>
         update_estado_transaccion REVERTIDA (tx_transaction_id transaccion)
     | [] => mret tt
     end)
    (λ error, throw error).

Definition procesarEventoPago (event : Mensaje) (transactionId : string) (azar : Q) :
    M unit :=
  let sagaId := msg_sagaId event in
  let evento := msg_evento event in
  let payload := msg_payload event in
  try_catch
    (if (evento =? "PROCESAR_PAGO")%string then
       success ← procesarPago sagaId payload transactionId azar;
       enviarRespuesta sagaId "PAGO_PROCESADO" success payload
     else if (evento =? "COMPENSAR_PAGO")%string then
       compensarPago sagaId
     else mret tt)
    (λ error,
       enviarRespuesta sagaId "PAGO_PROCESADO" false
         (mkPayload None None None None None (Some error))).

(** The callback of [channel.consume('saga_events', ...)]. *)
Definition consumidor (event : Mensaje) (transactionId : string) (azar : Q) : M unit :=
  if (msg_evento event =? "PROCESAR_PAGO")%string
     || (msg_evento event =? "COMPENSAR_PAGO")%string
  then procesarEventoPago event transactionId azar
  else mret tt.

(** The handler of [GET /transacciones/:sagaId]: the rows of the saga, or
    500.  [sagaId] is the text of the URL and [uuid_in] the store's reading
    of a text as a uuid. *)
Definition get_transacciones (uuid_in : string → option string) (sagaId : string) :
    M (Z * option (list Transaccion)) :=
  try_catch
    (result ← select_por_saga_id uuid_in tx_saga_id transacciones sagaId;
     mret (200, Some result))
    (λ error, mret (500, None)).

End Pagos.

(** ** services/pedidos/src/app.js *)

Module Pedidos.

(** The claims of a verified token, [req.user]. *)
Record Usuario : Type := mkUsuario {
  usr_userId : option Z;
  usr_usuarioId : option Z;
  usr_email : string;
  usr_role : string }.

(** The body of [POST /pedidos]. *)
Record Solicitud : Type := mkSolicitud {
  body_productoId : option Z;
  body_cantidad : option Z;
  body_metodoPago : option string }.

Inductive Cuerpo : Type :=
| JsonPedido (pedidoId sagaId : string) (estado : SagaState)
| JsonError (mensaje : string).

(** [res.status(s).json(c)] *)
Record HttpRes : Type := mkHttpRes {
  status : Z;
  json : Cuerpo }.

(** [POST /auth/login]: the claims signed into the token. *)
Definition auth_login (email password : string) : option Usuario :=
  if (email =? "admin@tuso.com")%string && (password =? "admin123")%string then
    Some (mkUsuario (Some 1) None email "admin")
  else if (email =? "cliente@tuso.com")%string && (password =? "cliente123")%string then
    Some (mkUsuario (Some 2) None email "cliente")
  else None.

(** [publishSagaEvent]: push a command on [saga_events]. *)
Definition publishSagaEvent (sagaId evento : string) (payload : Payload) : M unit :=
  escribe (λ w,
    con_saga_events (λ q, q ++ [mkMensaje sagaId evento payload (reloj w)]) w).

(** [INSERT INTO pedidos (id, saga_id, usuario_id, producto_id, cantidad,
    estado)]; the three columns are INTEGER NOT NULL, so a value outside
    INTEGER is refused like an absent one. *)
Definition insert_pedido (pedidoId sagaId : string)
    (usuarioId productoId cantidad : option Z) (estado : SagaState) : M unit :=
  op (λ w,
    match usuarioId, productoId, cantidad with
    | Some u, Some p, Some c =>
        if es_integer u && es_integer p && es_integer c then
          (Ok tt,
           con_bitacora (λ b, b ++ [(sagaId, estado)])
             (con_pedidos (λ ps, ps ++ [mkPedido pedidoId sagaId u p c estado]) w))
        else (Throw "value out of range for type integer", w)
    | _, _, _ => (Throw "null value violates not-null constraint", w)
    end).

(** [updateSagaState]: append a row to the step log. *)
Definition updateSagaState (sagaId paso estado : string) : M unit :=
  escribe (con_saga_estados (λ l, l ++ [mkSagaPaso sagaId paso estado])).

Definition poner_estado (estado : SagaState) (p : Pedido) : Pedido :=
  mkPedido (ped_id p) (ped_saga_id p) (ped_usuario_id p) (ped_producto_id p)
           (ped_cantidad p) estado.

(** [updatePedidoState]: [UPDATE pedidos SET estado = $1 WHERE saga_id = $2] *)
Definition updatePedidoState (sagaId : string) (estado : SagaState) : M unit :=
  escribe (λ w,
    con_bitacora (λ b, b ++ [(sagaId, estado)])
      (con_pedidos
         (map (λ p, if (ped_saga_id p =? sagaId)%string then poner_estado estado p else p))
         w)).

(** The handler of [POST /pedidos], past [authenticateToken].  [sagaId] and
    [pedidoId] are the two values of [uuidv4()]. *)
Definition post_pedidos (user : Usuario) (body : Solicitud) (sagaId pedidoId : string) :
    M HttpRes :=
  try_catch
    (insert_pedido pedidoId sagaId (usr_usuarioId user) (body_productoId body)
       (body_cantidad body) INICIADA;;
     updateSagaState sagaId "CREAR_PEDIDO" "COMPLETADO";;
     publishSagaEvent sagaId "RESERVAR_INVENTARIO"
       (mkPayload (body_productoId body) (body_cantidad body) (Some pedidoId)
                  (body_metodoPago body) None None);;
     mret (mkHttpRes 201 (JsonPedido pedidoId sagaId INICIADA)))
    (λ error, mret (mkHttpRes 500 (JsonError "Error interno"))).

Definition payload_razon (r : string) : Payload :=
  mkPayload None None None None (Some r) None.

Definition compensateSaga (sagaId razon : string) : M unit :=
  updatePedidoState sagaId COMPENSANDO;;
  publishSagaEvent sagaId "COMPENSAR_PAGO" (payload_razon razon);;
  publishSagaEvent sagaId "LIBERAR_INVENTARIO" (payload_razon razon);;
  updatePedidoState sagaId CANCELADA;;
  updateSagaState sagaId "COMPENSACION" "COMPLETADO".

(** The [switch (evento)] of [processSagaResponse]; an event name outside
    the three cases falls through. *)
Definition despachar (event : Respuesta) : M unit :=
  let sagaId := rsp_sagaId event in
  let evento := rsp_evento event in
  let success := rsp_success event in
  let payload := rsp_payload event in
  if (evento =? "INVENTARIO_RESERVADO")%string then
    if success then
      updateSagaState sagaId "RESERVAR_INVENTARIO" "COMPLETADO";;
      updatePedidoState sagaId INVENTARIO_RESERVADO;;
      publishSagaEvent sagaId "PROCESAR_PAGO" payload
    else compensateSaga sagaId "INVENTARIO_NO_DISPONIBLE"
  else if (evento =? "PAGO_PROCESADO")%string then
    if success then
      updateSagaState sagaId "PROCESAR_PAGO" "COMPLETADO";;
      updatePedidoState sagaId PAGO_PROCESADO;;
      publishSagaEvent sagaId "CONFIRMAR_PEDIDO" payload
    else compensateSaga sagaId "PAGO_RECHAZADO"
  else if (evento =? "PEDIDO_CONFIRMADO")%string then
    updateSagaState sagaId "CONFIRMAR_PEDIDO" "COMPLETADO";;
    updatePedidoState sagaId COMPLETADA
  else mret tt.

Definition processSagaResponse (event : Respuesta) : M unit :=
  try_catch (despachar event)
            (λ error, compensateSaga (rsp_sagaId event) "ERROR_INTERNO").

(** [s.split(' ')]: the pieces of [s] between single spaces. *)
Fixpoint split_espacio (s : string) : list string :=
  match s with
  | EmptyString => [""]
  | String c s' =>
      if Ascii.eqb c (Ascii.ascii_of_nat 32) then "" :: split_espacio s'
      else match split_espacio s' with
           | pieza :: resto => String c pieza :: resto
           | [] => [String c ""]
           end
  end.

(** [authHeader && authHeader.split(' ')[1]], with the test [!token] that
    follows it: the second piece of the header when there is one and it is
    not empty. *)
Definition token_de (authHeader : option string) : option string :=
  h ← authHeader;
  t ← split_espacio h !! 1%nat;
  if (t =? "")%string then None else Some t.

(** What the middleware does with a request: answer it, or hand it on with
    [req.user] set. *)
Inductive Autenticacion : Type :=
| Rechazo (estatus : Z) (mensaje : string)
| Siguiente (user : Usuario).

(** [authenticateToken].  [jwt_verify] stands for
    [jwt.verify(token, process.env.JWT_SECRET, ...)]: the claims of a token
    it accepts. *)
Definition authenticateToken (jwt_verify : string → option Usuario)
    (authHeader : option string) : Autenticacion :=
  match token_de authHeader with
  | None => Rechazo 401 "Token requerido"
  | Some token =>
      match jwt_verify token with
      | None => Rechazo 403 "Token inválido"
      | Some user => Siguiente user
      end
  end.

(** The route [POST /pedidos]: the middleware, then the handler. *)
Definition ruta_post_pedidos (jwt_verify : string → option Usuario)
    (authHeader : option string) (body : Solicitud) (sagaId pedidoId : string) :
    M HttpRes :=
  match authenticateToken jwt_verify authHeader with
  | Rechazo estatus mensaje => mret (mkHttpRes estatus (JsonError mensaje))
  | Siguiente user => post_pedidos user body sagaId pedidoId
  end.

(** The body of the answer of [GET /sagas/:sagaId]:
    [{ pedido: pedidoResult.rows[0], estados: estadosResult.rows }]. *)
Inductive CuerpoSaga : Type :=
| JsonSaga (pedido : option Pedido) (estados : list SagaPaso)
| JsonSagaError (mensaje : string).

(** The handler of [GET /sagas/:sagaId].  [sagaId] is the text of the URL
    and [uuid_in] the store's reading of a text as a uuid.  The rows of the
    step log carry the time of their insertion, so [ORDER BY timestamp]
    keeps them in insertion order. *)
Definition get_saga (uuid_in : string → option string) (sagaId : string) :
    M (Z * CuerpoSaga) :=
  try_catch
    (pedidoResult ← select_por_saga_id uuid_in ped_saga_id pedidos sagaId;
     estadosResult ← select_por_saga_id uuid_in sp_saga_id saga_estados sagaId;
     mret (200, JsonSaga (head pedidoResult) estadosResult))
    (λ error, mret (500, JsonSagaError "Error interno")).

End Pedidos.

(** ** The composed system *)

Module Sistema.

(** What can happen next.  A client posts an order; the broker hands the
    oldest message of [saga_events] to one of its two consumers (both
    services consume that one queue) and the oldest message of
    [pedidos_responses] to the orchestrator; the sweep timer fires; time
    passes. *)
Inductive Paso : Type :=
| PostPedidos (user : Pedidos.Usuario) (body : Pedidos.Solicitud)
    (sagaId pedidoId : string)
| EntregaInventario
| EntregaPagos (transactionId : string) (azar : Q)
| EntregaPedidos
| Barrido
| Tic (d : Z).

(** [channel.consume(cola, async (msg) => { ...; channel.ack(msg) })] on the
    oldest message: the callback runs and then acknowledges, which removes
    the message; a callback that rejects leaves it unacknowledged. *)
Definition entregar {A} (cola : Mundo → list A) (ack : Mundo → Mundo)
    (callback : A → M unit) : M unit :=
  λ fs w,
    match cola w with
    | [] => (Ok tt, w, fs)
    | msg :: _ =>
        match callback msg fs w with
        | (Ok _, w', fs') => (Ok tt, ack w', fs')
        | (Throw e, w', fs') => (Throw e, w', fs')
        end
    end.

Definition ack_saga_events : Mundo → Mundo := con_saga_events (drop 1).
Definition ack_pedidos_responses : Mundo → Mundo := con_pedidos_responses (drop 1).

Definition paso (p : Paso) : M unit :=
  match p with
  | PostPedidos user body sagaId pedidoId =>
      Pedidos.post_pedidos user body sagaId pedidoId;; mret tt
  | EntregaInventario =>
      entregar saga_events ack_saga_events Inventario.consumidor
  | EntregaPagos transactionId azar =>
      entregar saga_events ack_saga_events
        (λ msg, Pagos.consumidor msg transactionId azar)
  | EntregaPedidos =>
      entregar pedidos_responses ack_pedidos_responses Pedidos.processSagaResponse
  | Barrido => Inventario.barrido
  | Tic d => λ fs w, (Ok tt, con_reloj (λ t, t + d) w, fs)
  end.

(** A run: the steps in order; a step that rejects does not stop the
    others. *)
Fixpoint ejecutar (ps : list Paso) : M unit :=
  match ps with
  | [] => mret tt
  | p :: ps' => try_catch (paso p) (λ _, mret tt);; ejecutar ps'
  end.

(** The stores of [scripts/init-db.sql]: the four products with their
    stock, no order, no reservation, no transaction, empty queues. *)
Definition mundo_inicial : Mundo :=
  mkMundo 0 [] [] []
    (<[1:=10]> (<[2:=15]> (<[3:=20]> (<[4:=8]> ∅))))
    [] [] [] [].

(** The status of the order of a saga, as [GET /sagas/:sagaId] reads it. *)
Definition estado_de (sagaId : string) (w : Mundo) : option SagaState :=
  ped_estado <$> List.find (λ p, (ped_saga_id p =? sagaId)%string) (pedidos w).

(** The statuses written for a saga, oldest first. *)
Definition estados_escritos (sagaId : string) (w : Mundo) : list SagaState :=
  snd <$> List.filter (λ x, (x.1 =? sagaId)%string) (bitacora w).

(** Sum of the quantities held by the ACTIVA reservations of a product. *)
Definition reservado_activo (id : Z) (rs : list Reserva) : Z :=
  foldr (λ r acc,
           if (res_producto_id r =? id) && bool_decide (res_estado r = ACTIVA)
           then res_cantidad_reservada r + acc else acc) 0 rs.

(** Available stock of a product plus what its ACTIVA reservations hold. *)
Definition stock_total (id : Z) (w : Mundo) : Z :=
  default 0 (productos w !! id) + reservado_activo id (reservas_temporales w).

End Sistema.

(** ** Paths of the saga status *)

Definition camino_feliz : list SagaState :=
  [INICIADA; INVENTARIO_RESERVADO; PAGO_PROCESADO; COMPLETADA].

Fixpoint es_prefijo (l1 l2 : list SagaState) : bool :=
  match l1, l2 with
  | [], _ => true
  | x :: l1', y :: l2' => bool_decide (x = y) && es_prefijo l1' l2'
  | _ :: _, [] => false
  end.

(** A prefix of INICIADA→INVENTARIO_RESERVADO→PAGO_PROCESADO→COMPLETADA, or
    of one, two or three forward states followed by COMPENSANDO→CANCELADA. *)
Definition camino_valido (l : list SagaState) : bool :=
  es_prefijo l camino_feliz
  || existsb (λ k, es_prefijo l (take k camino_feliz ++ [COMPENSANDO; CANCELADA]))
       [1%nat; 2%nat; 3%nat].

(** ** Specification vocabulary *)

(** [sat m fs w Q]: the run of [m] from [w] under the schedule [fs] ends
    with a result and a store that satisfy [Q]. *)
Definition sat {A} (m : M A) (fs : Fallas) (w : Mundo)
    (Q : Res A → Mundo → Prop) : Prop :=
  Q (resultado (m fs w)) (mundo_final (m fs w)).

(** [preserva I m]: whatever the schedule, a run of [m] from a store in [I]
    ends in a store in [I]. *)
Definition preserva {A} (I : Mundo → Prop) (m : M A) : Prop :=
  ∀ fs w, I w → I (mundo_final (m fs w)).

(** The two writes of a reservation that commits: the stock of the product
    lowered by the quantity and one ACTIVA row that expires ten minutes
    from now. *)
Definition reservado (sagaId : string) (id cant : Z) (w : Mundo) : Mundo :=
  con_reservas
    (λ rs, rs ++ [mkReserva sagaId id cant (reloj w + 10 * 60 * 1000) ACTIVA])
    (con_productos (alter (λ s, s - cant) id) w).

(** The writes of a release that commits: nothing when the saga has no
    ACTIVA reservation; otherwise the quantity of the first one is given
    back to its product and every row of the saga is marked LIBERADA. *)
Definition liberado (sagaId : string) (w : Mundo) : Mundo :=
  match List.filter (Inventario.reserva_de sagaId ACTIVA) (reservas_temporales w) with
  | [] => w
  | reserva :: _ =>
      con_reservas
        (map (λ r, if (res_saga_id r =? sagaId)%string
                   then Inventario.marcar LIBERADA r else r))
        (con_productos
           (alter (λ s, s + res_cantidad_reservada reserva) (res_producto_id reserva)) w)
  end.

(** Whether the store takes the update of a release: the stock that the
    first ACTIVA reservation of the saga gives back to its product has to be
    a value of the INTEGER column. *)
Definition cabe_liberacion (sagaId : string) (w : Mundo) : bool :=
  match List.filter (Inventario.reserva_de sagaId ACTIVA) (reservas_temporales w) with
  | [] => true
  | reserva :: _ =>
      Inventario.cabe_suma (productos w !! res_producto_id reserva)
        (res_cantidad_reservada reserva)
  end.



(** The responses in the list handed to the orchestrator one after the
    other, oldest first, no call rejecting. *)
Definition entregar_respuestas (evs : list Respuesta) (w : Mundo) : Mundo :=
  foldl (λ w ev, (correr (Pedidos.processSagaResponse ev) w).2) w evs.

(** The statuses the handler writes for one response when no call rejects
    ([processSagaResponse_bitacora] below). *)
Definition estados_de_respuesta (ev : Respuesta) : list SagaState :=
  if (rsp_evento ev =? "INVENTARIO_RESERVADO")%string then
    if rsp_success ev then [INVENTARIO_RESERVADO] else [COMPENSANDO; CANCELADA]
  else if (rsp_evento ev =? "PAGO_PROCESADO")%string then
    if rsp_success ev then [PAGO_PROCESADO] else [COMPENSANDO; CANCELADA]
  else if (rsp_evento ev =? "PEDIDO_CONFIRMADO")%string then [COMPLETADA]
  else [].

Definition es_respuesta (nombre : string) (exito : bool) (ev : Respuesta) : bool :=
  (rsp_evento ev =? nombre)%string && bool_decide (rsp_success ev = exito).

Definition es_fallo (ev : Respuesta) : bool :=
  es_respuesta "INVENTARIO_RESERVADO" false ev || es_respuesta "PAGO_PROCESADO" false ev.

Definition es_confirmacion (ev : Respuesta) : bool :=
  (rsp_evento ev =? "PEDIDO_CONFIRMADO")%string.

(** The responses of one saga in the order of the protocol, each delivered
    once: the successful INVENTARIO_RESERVADO, then the successful
    PAGO_PROCESADO, then PEDIDO_CONFIRMADO, cut anywhere; or cut before the
    confirmation and followed by one failed response. *)
Definition en_orden (evs : list Respuesta) : bool :=
  match evs with
  | [] => true
  | [a] => es_respuesta "INVENTARIO_RESERVADO" true a || es_fallo a
  | [a; b] =>
      es_respuesta "INVENTARIO_RESERVADO" true a
      && (es_respuesta "PAGO_PROCESADO" true b || es_fallo b)
  | [a; b; c] =>
      es_respuesta "INVENTARIO_RESERVADO" true a
      && es_respuesta "PAGO_PROCESADO" true b
      && (es_confirmacion c || es_fallo c)
  | _ => false
  end.

(** None of the next [n] calls rejects. *)
Definition sin_fallas (n : nat) (fs : Fallas) : bool := forallb negb (take n fs).

(** The store after a client with [usuarioId] 1 posted an order for two
    units of product 1 paid by credit card on the initial store, saga "s1",
    order "p1". *)
Definition mundo_con_pedido : Mundo :=
  (correr (Pedidos.post_pedidos
             (Pedidos.mkUsuario None (Some 1) "admin@tuso.com" "admin")
             (Pedidos.mkSolicitud (Some 1) (Some 2) (Some "tarjeta_credito"))
             "s1" "p1")
          Sistema.mundo_inicial).2.

(** No response waiting for the orchestrator is a PEDIDO_CONFIRMADO and no
    order is COMPLETADA. *)
Definition sin_confirmacion (w : Mundo) : Prop :=
  Forall (λ r, rsp_evento r ≠ "PEDIDO_CONFIRMADO") (pedidos_responses w)
  ∧ Forall (λ p, ped_estado p ≠ COMPLETADA) (pedidos w).

(** A string without the space character. *)
Fixpoint sin_espacio (s : string) : bool :=
  match s with
  | EmptyString => true
  | String c s' => negb (Ascii.eqb c (Ascii.ascii_of_nat 32)) && sin_espacio s'
  end.

(** What [GET /sagas/:sagaId] shows of a saga: the status of its order, the
    statuses written for it and its rows in the step log. *)
Definition vista_saga (sagaId : string) (w : Mundo) :
    option SagaState * list SagaState * list SagaPaso :=
  (Sistema.estado_de sagaId w, Sistema.estados_escritos sagaId w,
   List.filter (λ e, (sp_saga_id e =? sagaId)%string) (saga_estados w)).

(** A delivery either completed and took the oldest message off the queue,
    or rejected and left the queue as it was. *)
Definition acuse {A} (cola : Mundo → list A) (w : Mundo)
    (x : Res unit * Mundo * Fallas) : Prop :=
  (resultado x = Ok tt ∧ cola (mundo_final x) = drop 1 (cola w))
  ∨ (∃ e, resultado x = Throw e ∧ cola (mundo_final x) = cola w).

(** No stock is negative, no reservation holds a negative quantity and no
    RESERVAR_INVENTARIO waiting in the queue asks for one. *)
Definition cantidades_no_negativas (w : Mundo) : Prop :=
  (∀ id s, productos w !! id = Some s → 0 ≤ s)
  ∧ Forall (λ r, 0 ≤ res_cantidad_reservada r) (reservas_temporales w)
  ∧ Forall (λ m, msg_evento m = "RESERVAR_INVENTARIO" →
                 ∀ c, cantidad (msg_payload m) = Some c → 0 ≤ c) (saga_events w).

(** A step that is not an order for a negative quantity. *)
Definition paso_no_negativo (p : Sistema.Paso) : Prop :=
  match p with
  | Sistema.PostPedidos _ body _ _ => ∀ c, Pedidos.body_cantidad body = Some c → 0 ≤ c
  | _ => True
  end.

(** ** Reasoning about runs *)

Arguments Sistema.reservado_activo : simpl never.
Arguments es_integer : simpl never.
Arguments es_decimal_10_2 : simpl never.

Ltac desplegar :=
  unfold mbind, mret, M_bind, M_ret, bind, ret, throw, try_catch, instantanea,
    pool_connect, BEGIN, COMMIT, ROLLBACK, escribe, lee, op, correr, resultado,
    mundo_final in *.

Lemma sat_ret {A} (a : A) fs w Q : Q (Ok a) w → sat (ret a) fs w Q.
Proof. done. Qed.

Lemma sat_mret {A} (a : A) fs w Q : Q (Ok a) w → sat (mret a) fs w Q.
Proof. done. Qed.

Lemma sat_throw {A} e fs w (Q : Res A → Mundo → Prop) :
  Q (Throw e) w → sat (throw e) fs w Q.
Proof. done. Qed.

Lemma sat_op {A} (f : Mundo → Res A * Mundo) fs w Q :
  Q (Throw "ECONNREFUSED") w → Q (f w).1 (f w).2 → sat (op f) fs w Q.
Proof.
  unfold sat, op, resultado, mundo_final. intros Hf Hok.
  destruct fs as [|[] fs]; [|done|]; by destruct (f w).
Qed.

Lemma sat_lee {A} (f : Mundo → A) fs w (Q : Res A → Mundo → Prop) :
  Q (Throw "ECONNREFUSED") w → Q (Ok (f w)) w → sat (lee f) fs w Q.
Proof. intros. by apply sat_op. Qed.

Lemma sat_try_catch {A} (m : M A) h fs w Q :
  sat m fs w (λ r w', match r with
                      | Ok a => Q (Ok a) w'
                      | Throw e => ∀ fs', sat (h e) fs' w' Q
                      end) →
  sat (try_catch m h) fs w Q.
Proof.
  unfold sat, try_catch, resultado, mundo_final.
  destruct (m fs w) as [[[a|e] w'] fs']; cbn; [done|]. intros H. apply H.
Qed.

Lemma sat_bind {A B} (m : M A) (k : A → M B) fs w Q :
  sat m fs w (λ r w', match r with
                      | Ok a => ∀ fs', sat (k a) fs' w' Q
                      | Throw e => Q (Throw e) w'
                      end) →
  sat (m ≫= k) fs w Q.
Proof.
  unfold sat, mbind, M_bind, bind, resultado, mundo_final.
  destruct (m fs w) as [[[a|e] w'] fs']; cbn; [|done]. intros H. apply H.
Qed.

Lemma sat_escribe f fs w (Q : Res unit → Mundo → Prop) :
  Q (Throw "ECONNREFUSED") w → Q (Ok tt) (f w) → sat (escribe f) fs w Q.
Proof. intros. by apply sat_op. Qed.

Lemma sat_instantanea fs w (Q : Res Mundo → Mundo → Prop) :
  Q (Ok w) w → sat instantanea fs w Q.
Proof. done. Qed.

Lemma sat_ROLLBACK w0 fs w (Q : Res unit → Mundo → Prop) :
  Q (Throw "ECONNREFUSED") (restaurar w0 w) → Q (Ok tt) (restaurar w0 w) →
  sat (ROLLBACK w0) fs w Q.
Proof. unfold sat, ROLLBACK. by destruct fs as [|[] fs]. Qed.

Lemma sat_conseq {A} (m : M A) fs w (Q Q' : Res A → Mundo → Prop) :
  sat m fs w Q → (∀ r w', Q r w' → Q' r w') → sat m fs w Q'.
Proof. unfold sat. auto. Qed.

(** One step of the calculus, by the shape of the program. *)
Ltac paso_sat :=
  lazymatch goal with
  | |- sat (mbind _ _) _ _ _ => apply sat_bind
  | |- sat (try_catch _ _) _ _ _ => apply sat_try_catch
  | |- sat (mret _) _ _ _ => apply sat_mret
  | |- sat (ret _) _ _ _ => apply sat_ret
  | |- sat (throw _) _ _ _ => apply sat_throw
  | |- sat (escribe _) _ _ _ => apply sat_escribe
  | |- sat (lee _) _ _ _ => apply sat_lee
  | |- sat (op _) _ _ _ => apply sat_op
  | |- sat instantanea _ _ _ => apply sat_instantanea
  | |- sat (ROLLBACK _) _ _ _ => apply sat_ROLLBACK
  | |- sat pool_connect _ _ _ => apply sat_escribe
  | |- sat BEGIN _ _ _ => apply sat_escribe
  | |- sat COMMIT _ _ _ => apply sat_escribe
  | |- sat (if ?b then _ else _) _ _ _ => destruct b eqn:?
  | |- sat (match ?x with _ => _ end) _ _ _ => destruct x eqn:?
  | |- ∀ _, _ => intros
  | |- _ ∧ _ => split
  end.

Ltac pasos_sat := repeat (first [paso_sat | progress (cbn [fst snd])]).

(** The same, through the conditions under which the store takes or refuses
    a statement. *)
Ltac pasos_sat_store :=
  repeat (pasos_sat; cbn in *; simplify_eq;
          try match goal with
            | |- context [if ?b then _ else _] => destruct b eqn:?
            | |- context [match ?x with _ => _ end] => destruct x eqn:?
            end).

Lemma restaurar_mismo w : restaurar w w = w.
Proof. by destruct w. Qed.

Lemma restaurar_reservas w0 w f : restaurar w0 (con_reservas f w) = restaurar w0 w.
Proof. by destruct w. Qed.

Lemma restaurar_productos w0 w f : restaurar w0 (con_productos f w) = restaurar w0 w.
Proof. by destruct w. Qed.

(** ** reservarStock *)

(** Under any fault schedule a reservation either commits its two writes
    and returns [true], or leaves the store as it was and does not return
    [true]. *)
Lemma reservarStock_casos sagaId pid cant w fs :
  sat (Inventario.reservarStock sagaId pid cant) fs w (λ r w',
    (r ≠ Ok true ∧ w' = w)
    ∨ (∃ id c stock,
         pid = Some id ∧ cant = Some c ∧ productos w !! id = Some stock
         ∧ c ≤ stock
         ∧ es_integer id = true ∧ es_integer c = true ∧ es_integer (stock - c) = true
         ∧ r = Ok true ∧ w' = reservado sagaId id c w)).
Proof.
  unfold Inventario.reservarStock, Inventario.select_stock,
    Inventario.update_restar_stock, Inventario.insert_reserva.
  destruct pid as [id|], cant as [c|]; cbn [parametro_integer andb negb];
    try destruct (es_integer id) eqn:Hid; try destruct (es_integer c) eqn:Hc;
    cbn [negb andb].
  all: pasos_sat_store.
  all: rewrite ?restaurar_reservas, ?restaurar_productos, ?restaurar_mismo.
  all: try (left; split; [discriminate|reflexivity]).
  right. exists id, c, z. apply Z.ltb_ge in Heqb. done.
Qed.

(** Without faults the outcome is decided by the comparison of the stock
    with the quantity and, when the stock suffices, by the range of the
    INTEGER column. *)
Lemma reservarStock_sin_fallas sagaId id cant stock w :
  productos w !! id = Some stock →
  es_integer id = true →
  correr (Inventario.reservarStock sagaId (Some id) (Some cant)) w =
    if stock <? cant then (Ok false, w)
    else if es_integer cant then
      if es_integer (stock - cant) then (Ok true, reservado sagaId id cant w)
      else (Throw "integer out of range", w)
    else (Throw "value out of range for type integer", w).
Proof.
  intros Hs Hid. unfold Inventario.reservarStock, Inventario.select_stock,
    Inventario.update_restar_stock, Inventario.insert_reserva.
  desplegar. cbn. rewrite Hid, Hs. cbn.
  destruct (stock <? cant); cbn; [by rewrite restaurar_mismo|].
  destruct (es_integer cant); cbn; [|by rewrite restaurar_mismo].
  rewrite Hs. destruct (es_integer (stock - cant)); cbn; [|by rewrite restaurar_mismo].
  rewrite lookup_alter_eq, Hs. done.
Qed.

(** Without a product row the call rejects and writes nothing. *)
Lemma reservarStock_sin_producto sagaId pid cant w :
  parametro_integer pid = true →
  pid ≫= (λ id, productos w !! id) = None →
  correr (Inventario.reservarStock sagaId pid cant) w
  = (Throw "Producto no encontrado", w).
Proof.
  intros Hp Hn. unfold Inventario.reservarStock, Inventario.select_stock.
  desplegar. cbn. rewrite Hp, Hn. cbn. by rewrite restaurar_mismo.
Qed.

(** C5, counterexample.  Product 1 has stock 10 and the quantity asked for
    is -2147483640, so the stock is not below the quantity; the difference,
    2147483650, is not a value of the INTEGER column [stock_disponible].
    The store refuses the update, the transaction is rolled back and the
    call rejects: the stock is not lowered by the quantity and no
    reservation is created. *)
Lemma reservarStock_fuera_de_rango :
  let x := correr (Inventario.reservarStock "s1" (Some 1) (Some (-2147483640)))
             Sistema.mundo_inicial in
  productos Sistema.mundo_inicial !! 1 = Some 10
  ∧ (10 <? -2147483640) = false
  ∧ x.1 = Throw "integer out of range"
  ∧ productos x.2 !! 1 = Some 10
  ∧ reservas_temporales x.2 = []
  ∧ x.2 = Sistema.mundo_inicial.
Proof. vm_compute. done. Qed.

(** C5, amended.  Reserve is atomic and never drives the stock below zero.
    For a product that has a row with available stock [stock]: when the
    stock is below the requested quantity the call returns [false] and the
    store is unchanged.  Otherwise, when the quantity and the stock that
    remains are values of the INTEGER columns, it returns [true], the stock
    of that product is lowered by exactly the quantity, the other products
    keep theirs, and the reservations table gains one ACTIVA row that
    expires ten minutes from now; a stock that was not negative is not
    negative afterwards.  When one of the two is not, the store refuses the
    write, the call rejects and the store is unchanged.  Under any fault
    schedule the store is either untouched or the one of the committed
    reservation. *)
Theorem reservarStock_atomico (sagaId : string) (id cant stock : Z) (w : Mundo) :
  productos w !! id = Some stock →
  es_integer id = true →
  let x := correr (Inventario.reservarStock sagaId (Some id) (Some cant)) w in
  (stock < cant → x = (Ok false, w))
  ∧ (cant ≤ stock → es_integer cant = true → es_integer (stock - cant) = true →
       x.1 = Ok true
       ∧ productos x.2 !! id = Some (stock - cant)
       ∧ (∀ id', id' ≠ id → productos x.2 !! id' = productos w !! id')
       ∧ reservas_temporales x.2 =
           reservas_temporales w
             ++ [mkReserva sagaId id cant (reloj w + 10 * 60 * 1000) ACTIVA]
       ∧ (0 ≤ stock → 0 ≤ stock - cant))
  ∧ (cant ≤ stock → es_integer cant && es_integer (stock - cant) = false →
       (∃ e, x.1 = Throw e) ∧ x.2 = w)
  ∧ (∀ fs,
       let y := Inventario.reservarStock sagaId (Some id) (Some cant) fs w in
       (mundo_final y = w ∧ resultado y ≠ Ok true)
       ∨ (cant ≤ stock ∧ mundo_final y = reservado sagaId id cant w
          ∧ resultado y = Ok true)).
Proof.
  intros Hs Hid x. subst x. rewrite (reservarStock_sin_fallas _ _ _ _ _ Hs Hid).
  split; [|split; [|split]].
  - intros Hlt. apply Z.ltb_lt in Hlt. by rewrite Hlt.
  - intros Hle Hc Hr. apply Z.ltb_ge in Hle. rewrite Hle, Hc, Hr. cbn.
    split; [done|]. split; [|split; [|split; [done|lia]]].
    + destruct w; cbn in *. by rewrite lookup_alter_eq, Hs.
    + intros id' Hne. destruct w; cbn in *. by rewrite lookup_alter_ne.
  - intros Hle Hr. apply Z.ltb_ge in Hle. rewrite Hle.
    destruct (es_integer cant); cbn in Hr; [rewrite Hr|]; cbn; eauto.
  - intros fs y. subst y.
    pose proof (reservarStock_casos sagaId (Some id) (Some cant) w fs) as H.
    unfold sat in H.
    destruct H as [[Hr Hw]|(id' & c & s' & ? & ? & Hs' & Hle & _ & _ & _ & Hr & Hw)].
    + by left.
    + simplify_eq. by right.
Qed.

(** The witness of C5: two units of product 1 out of the ten of the initial
    store. *)
Lemma reservarStock_atomico_witness :
  let x := correr (Inventario.reservarStock "s1" (Some 1) (Some 2)) Sistema.mundo_inicial in
  x.1 = Ok true ∧ productos x.2 !! 1 = Some 8.
Proof.
  pose proof (reservarStock_atomico "s1" 1 2 10 Sistema.mundo_inicial eq_refl eq_refl)
    as (_ & H & _).
  destruct (H ltac:(lia) eq_refl eq_refl) as (H1 & H2 & _). split; [exact H1|exact H2].
Defined.

(** ** liberarStock *)

(** Under any fault schedule a release either commits, or rejects and
    leaves the store as it was. *)
Lemma liberarStock_casos sagaId w fs :
  sat (Inventario.liberarStock sagaId) fs w (λ r w',
    (∃ e, r = Throw e ∧ w' = w)
    ∨ (r = Ok tt ∧ w' = liberado sagaId w ∧ cabe_liberacion sagaId w = true)).
Proof.
  unfold Inventario.liberarStock, Inventario.select_reservas,
    Inventario.update_sumar_stock, Inventario.update_estado_reservas, liberado,
    cabe_liberacion.
  pasos_sat_store.
  all: rewrite ?restaurar_reservas, ?restaurar_productos, ?restaurar_mismo.
  all: try (left; eexists; split; reflexivity).
  all: by right.
Qed.

(** Without faults a release commits unless the store refuses the stock it
    gives back. *)
Lemma liberarStock_sin_fallas sagaId w :
  correr (Inventario.liberarStock sagaId) w
  = if cabe_liberacion sagaId w then (Ok tt, liberado sagaId w)
    else (Throw "integer out of range", w).
Proof.
  unfold Inventario.liberarStock, Inventario.select_reservas,
    Inventario.update_sumar_stock, Inventario.update_estado_reservas, liberado,
    cabe_liberacion.
  desplegar. cbn.
  destruct (List.filter _ (reservas_temporales w)) as [|r l]; [done|].
  destruct (Inventario.cabe_suma _ _); cbn; [done|]. by rewrite restaurar_mismo.
Qed.

(** Once the rows of a saga are marked LIBERADA none of them is ACTIVA. *)
Lemma sin_activas_tras_marcar sagaId (rs : list Reserva) :
  List.filter (Inventario.reserva_de sagaId ACTIVA)
    (map (λ r, if (res_saga_id r =? sagaId)%string
               then Inventario.marcar LIBERADA r else r) rs) = [].
Proof.
  induction rs as [|r rs IH]; [done|]. cbn.
  destruct (res_saga_id r =? sagaId)%string eqn:E.
  - unfold Inventario.reserva_de at 1. cbn. rewrite E. cbn. exact IH.
  - unfold Inventario.reserva_de at 1. rewrite E. cbn. exact IH.
Qed.

Lemma liberado_liberado sagaId w : liberado sagaId (liberado sagaId w) = liberado sagaId w.
Proof.
  unfold liberado at 2.
  destruct (List.filter _ (reservas_temporales w)) as [|r l] eqn:E.
  - unfold liberado. by rewrite E.
  - unfold liberado. destruct w; cbn in *. by rewrite sin_activas_tras_marcar, E.
Qed.

Lemma cabe_liberacion_liberado sagaId w : cabe_liberacion sagaId (liberado sagaId w) = true.
Proof.
  unfold cabe_liberacion, liberado.
  destruct (List.filter _ (reservas_temporales w)) as [|r l] eqn:E.
  - by rewrite E.
  - destruct w; cbn in *. by rewrite sin_activas_tras_marcar.
Qed.

(** C6. Release is idempotent.  For a saga without ACTIVA reservation the
    call returns normally and leaves the store as it was; a second call
    right after a first returns what the first returned and leaves the
    store as the first left it, so the quantity is given back at most once;
    and whichever calls to the store reject during the two calls, the store
    ends either untouched or as one committed release leaves it. *)
Theorem liberarStock_idempotente (sagaId : string) (w : Mundo) :
  let liberar := λ w, correr (Inventario.liberarStock sagaId) w in
  (List.filter (Inventario.reserva_de sagaId ACTIVA) (reservas_temporales w) = [] →
     liberar w = (Ok tt, w))
  ∧ liberar (liberar w).2 = liberar w
  ∧ (∀ fs1 fs2,
       let w1 := mundo_final (Inventario.liberarStock sagaId fs1 w) in
       let w2 := mundo_final (Inventario.liberarStock sagaId fs2 w1) in
       w2 = w ∨ w2 = (liberar w).2).
Proof.
  cbn beta zeta. split; [|split].
  - intros E. rewrite liberarStock_sin_fallas. unfold cabe_liberacion, liberado.
    by rewrite E.
  - rewrite (liberarStock_sin_fallas sagaId w).
    destruct (cabe_liberacion sagaId w) eqn:E; cbn [snd].
    + by rewrite liberarStock_sin_fallas, cabe_liberacion_liberado, liberado_liberado.
    + by rewrite liberarStock_sin_fallas, E.
  - intros fs1 fs2. rewrite (liberarStock_sin_fallas sagaId w).
    pose proof (liberarStock_casos sagaId w fs1) as H1. unfold sat in H1.
    destruct H1 as [(e & _ & ->)|(_ & -> & Hc)].
    + pose proof (liberarStock_casos sagaId w fs2) as H2. unfold sat in H2.
      destruct H2 as [(e' & _ & ->)|(_ & -> & Hc)]; [auto|].
      rewrite Hc. auto.
    + rewrite Hc. cbn [snd].
      pose proof (liberarStock_casos sagaId (liberado sagaId w) fs2) as H2.
      unfold sat in H2. rewrite liberado_liberado in H2.
      destruct H2 as [(e' & _ & ->)|(_ & -> & _)]; auto.
Qed.

(** The witness of C6: a release on the initial store, where no saga holds
    a reservation. *)
Lemma liberarStock_idempotente_witness :
  correr (Inventario.liberarStock "s1") Sistema.mundo_inicial
  = (Ok tt, Sistema.mundo_inicial).
Proof.
  exact (proj1 (liberarStock_idempotente "s1" Sistema.mundo_inicial) eq_refl).
Defined.


(** ** Available stock plus ACTIVA holds *)

Lemma reservado_activo_app id (rs : list Reserva) r :
  Sistema.reservado_activo id (rs ++ [r])
  = Sistema.reservado_activo id rs + Sistema.reservado_activo id [r].
Proof.
  unfold Sistema.reservado_activo.
  induction rs as [|r' rs IH]; cbn.
  - destruct (_ && _); lia.
  - cbn in IH. rewrite IH. destruct (_ && _); destruct (_ && _); lia.
Qed.

(** Marking the rows of a saga LIBERADA takes out of the ACTIVA holds of a
    product exactly what the ACTIVA rows of that saga held of it. *)
Lemma reservado_activo_marcar id sagaId (rs : list Reserva) :
  Sistema.reservado_activo id
    (map (λ r, if (res_saga_id r =? sagaId)%string
               then Inventario.marcar LIBERADA r else r) rs)
  = Sistema.reservado_activo id rs
    - Sistema.reservado_activo id
        (List.filter (Inventario.reserva_de sagaId ACTIVA) rs).
Proof.
  unfold Sistema.reservado_activo.
  induction rs as [|r rs IH]; [done|]. cbn. rewrite IH.
  unfold Inventario.reserva_de.
  destruct (res_saga_id r =? sagaId)%string; cbn.
  - rewrite andb_false_r.
    destruct (bool_decide (res_estado r = ACTIVA)) eqn:E; cbn.
    + rewrite E. destruct (res_producto_id r =? id); cbn; lia.
    + rewrite andb_false_r. lia.
  - destruct (_ && _); lia.
Qed.

(** A reservation does not change, for any product, the sum of its
    available stock and its ACTIVA holds, whichever calls reject. *)
Lemma reservarStock_conserva sagaId pid cant w fs id :
  Sistema.stock_total id (mundo_final (Inventario.reservarStock sagaId pid cant fs w))
  = Sistema.stock_total id w.
Proof.
  pose proof (reservarStock_casos sagaId pid cant w fs) as H. unfold sat in H.
  destruct H as [[_ ->]|(p & c & st & -> & -> & Hs & _ & _ & _ & _ & _ & ->)]; [done|].
  unfold Sistema.stock_total, reservado. destruct w; cbn in *.
  rewrite reservado_activo_app. unfold Sistema.reservado_activo at 2. cbn.
  destruct (Z.eqb_spec p id) as [->|Hne]; cbn.
  - rewrite lookup_alter_eq, Hs. cbn. case_bool_decide; [lia|done].
  - rewrite lookup_alter_ne by done. lia.
Qed.

(** A release does not change that sum either, provided the saga holds at
    most one ACTIVA reservation and that reservation points to a product
    row (the foreign key of the table). *)
Lemma liberarStock_conserva sagaId w fs id :
  (∀ r l, List.filter (Inventario.reserva_de sagaId ACTIVA) (reservas_temporales w)
          = r :: l → l = [] ∧ is_Some (productos w !! res_producto_id r)) →
  Sistema.stock_total id (mundo_final (Inventario.liberarStock sagaId fs w))
  = Sistema.stock_total id w.
Proof.
  intros Hu.
  pose proof (liberarStock_casos sagaId w fs) as H. unfold sat in H.
  destruct H as [(e & _ & ->)|(_ & -> & _)]; [done|].
  unfold liberado.
  destruct (List.filter _ (reservas_temporales w)) as [|r l] eqn:E; [done|].
  destruct (Hu r l eq_refl) as [-> [st Hst]].
  assert (Hr : Inventario.reserva_de sagaId ACTIVA r = true).
  { assert (Hin : In r (List.filter (Inventario.reserva_de sagaId ACTIVA)
                          (reservas_temporales w))) by (rewrite E; by left).
    by apply filter_In in Hin as [_ ?]. }
  unfold Inventario.reserva_de in Hr. apply andb_true_iff in Hr as [_ Hact].
  unfold Sistema.stock_total. destruct w; cbn in *.
  rewrite reservado_activo_marcar, E. unfold Sistema.reservado_activo at 2.
  cbn. rewrite Hact.
  destruct (Z.eqb_spec (res_producto_id r) id) as [<-|Hne]; cbn.
  - rewrite lookup_alter_eq, Hst. cbn. lia.
  - rewrite lookup_alter_ne by done. lia.
Qed.

(** ** The sweep *)

(** Without faults the sweep marks the expired reservations and then, if
    it marked any and the store takes the sums, gives stock back. *)
Lemma barrido_sin_fallas w :
  correr Inventario.barrido w =
    (Ok tt,
     let w1 := con_reservas
                 (map (λ r, if Inventario.vencida (reloj w) r
                            then Inventario.marcar EXPIRADA r else r)) w in
     if (0 <? Z.of_nat (length (List.filter (Inventario.vencida (reloj w))
                                  (reservas_temporales w))))
        && forallb (Inventario.cabe_devolucion (reloj w1) (reservas_temporales w1))
             (map_to_list (productos w1))
     then
       con_productos
         (map_imap (λ id s,
            Some match List.find (Inventario.devuelve (reloj w1) id)
                         (reservas_temporales w1) with
                 | Some rt => s + res_cantidad_reservada rt
                 | None => s
                 end)) w1
     else w1).
Proof.
  unfold Inventario.barrido, Inventario.update_expirar,
    Inventario.update_devolver_expiradas.
  desplegar. cbn. destruct (0 <? _); [|done]. cbn. by destruct (forallb _ _).
Qed.

Lemma find_devuelve_fuera_de_ventana ahora id (rs : list Reserva) :
  (∀ r, In r rs → res_expira_en r ≤ ahora - 60 * 1000) →
  List.find (Inventario.devuelve ahora id) rs = None.
Proof.
  induction rs as [|r rs IH]; [done|]. intros H. cbn.
  unfold Inventario.devuelve at 1.
  assert ((ahora - 60 * 1000 <? res_expira_en r) = false) as ->.
  { apply Z.ltb_ge. apply H. by left. }
  rewrite andb_false_r. apply IH. intros r' Hr'. apply H. by right.
Qed.

(** What the sweep does with reservations that expired a minute or more
    before it runs: when every row of the table has its expiry at least one
    minute in the past, the sweep marks the ACTIVA ones EXPIRADA and gives
    no stock back to any product. *)
Lemma barrido_fuera_de_ventana w :
  (∀ r, In r (reservas_temporales w) → res_expira_en r ≤ reloj w - 60 * 1000) →
  let w' := (correr Inventario.barrido w).2 in
  productos w' = productos w
  ∧ reservas_temporales w' =
      map (λ r, if bool_decide (res_estado r = ACTIVA)
                then Inventario.marcar EXPIRADA r else r) (reservas_temporales w).
Proof.
  intros H. rewrite barrido_sin_fallas. cbn [snd].
  assert (Hm : map (λ r, if Inventario.vencida (reloj w) r
                         then Inventario.marcar EXPIRADA r else r)
                 (reservas_temporales w)
               = map (λ r, if bool_decide (res_estado r = ACTIVA)
                           then Inventario.marcar EXPIRADA r else r)
                   (reservas_temporales w)).
  { apply map_ext_in. intros r Hr. unfold Inventario.vencida.
    assert ((res_expira_en r <? reloj w) = true) as ->; [|done].
    apply Z.ltb_lt. specialize (H r Hr). lia. }
  destruct (_ && _); destruct w; cbn in *; (split; [|exact Hm]); [|done].
  apply map_eq. intros i. rewrite map_lookup_imap.
  destruct (productos0 !! i) as [s|] eqn:E; [|done]. cbn.
  rewrite find_devuelve_fuera_de_ventana; [done|].
  intros r Hr. apply in_map_iff in Hr as (r0 & <- & Hr0).
  specialize (H r0 Hr0). by destruct (Inventario.vencida reloj0 r0).
Qed.

(** C2. At the input where the claim fails: two units of product 1 are
    reserved at time 0 on the initial store (stock 10), the hold expires at
    minute 10, and the sweep fires every five minutes.  The sweep of minute
    15 marks the reservation EXPIRADA and leaves the stock of the product at
    8: the two units are not given back, and later sweeps do not give them
    back either. *)
Theorem barrido_no_devuelve_reserva_vencida :
  let w1 := (correr (Inventario.reservarStock "s1" (Some 1) (Some 2))
               Sistema.mundo_inicial).2 in
  let cinco_minutos :=
    [Sistema.Tic Inventario.intervalo_barrido; Sistema.Barrido] in
  let w2 := mundo_final (Sistema.ejecutar (cinco_minutos ++ cinco_minutos) [] w1) in
  let w3 := mundo_final (Sistema.ejecutar cinco_minutos [] w2) in
  let w4 := mundo_final (Sistema.ejecutar cinco_minutos [] w3) in
  reservas_temporales w2 = [mkReserva "s1" 1 2 600000 ACTIVA]
  ∧ productos w2 !! 1 = Some 8
  ∧ reloj w3 = 900000
  ∧ reservas_temporales w3 = [mkReserva "s1" 1 2 600000 EXPIRADA]
  ∧ productos w3 !! 1 = Some 8
  ∧ reservas_temporales w4 = [mkReserva "s1" 1 2 600000 EXPIRADA]
  ∧ productos w4 !! 1 = Some 8.
Proof. vm_compute. done. Qed.

(** C3. At the input where the claim fails: the same run.  Before the sweep
    of minute 15 the available stock of product 1 plus its ACTIVA holds is
    10, the initial stock; after it the sum is 8, and no sale was ever
    confirmed. *)
Theorem conservacion_falla_tras_barrido :
  let w1 := (correr (Inventario.reservarStock "s1" (Some 1) (Some 2))
               Sistema.mundo_inicial).2 in
  let cinco_minutos :=
    [Sistema.Tic Inventario.intervalo_barrido; Sistema.Barrido] in
  let w3 := mundo_final
              (Sistema.ejecutar (cinco_minutos ++ cinco_minutos ++ cinco_minutos) [] w1) in
  Sistema.stock_total 1 Sistema.mundo_inicial = 10
  ∧ Sistema.stock_total 1 w1 = 10
  ∧ Sistema.stock_total 1 w3 = 8
  ∧ transacciones w3 = [] ∧ pedidos w3 = [].
Proof. vm_compute. done. Qed.

(** ** The orchestrator *)

Lemma compensateSaga_sin_fallas sagaId razon w :
  correr (Pedidos.compensateSaga sagaId razon) w =
    (Ok tt,
     mkMundo (reloj w)
       (map (λ p, if (ped_saga_id p =? sagaId)%string
                  then Pedidos.poner_estado CANCELADA p else p)
          (map (λ p, if (ped_saga_id p =? sagaId)%string
                     then Pedidos.poner_estado COMPENSANDO p else p) (pedidos w)))
       (saga_estados w ++ [mkSagaPaso sagaId "COMPENSACION" "COMPLETADO"])
       ((bitacora w ++ [(sagaId, COMPENSANDO)]) ++ [(sagaId, CANCELADA)])
       (productos w) (reservas_temporales w) (transacciones w)
       ((saga_events w
           ++ [mkMensaje sagaId "COMPENSAR_PAGO" (Pedidos.payload_razon razon) (reloj w)])
          ++ [mkMensaje sagaId "LIBERAR_INVENTARIO" (Pedidos.payload_razon razon) (reloj w)])
       (pedidos_responses w)).
Proof. reflexivity. Qed.

Lemma correr_try_catch_ok {A} (m : M A) h w a w' :
  correr m w = (Ok a, w') → correr (try_catch m h) w = (Ok a, w').
Proof.
  unfold correr, try_catch. destruct (m [] w) as [[r w1] fs1]. cbn.
  by intros [= -> ->].
Qed.

(** What one response appends to the history of status writes. *)
Lemma processSagaResponse_bitacora ev w :
  bitacora (correr (Pedidos.processSagaResponse ev) w).2
  = bitacora w ++ map (pair (rsp_sagaId ev)) (estados_de_respuesta ev).
Proof.
  unfold Pedidos.processSagaResponse, Pedidos.despachar, estados_de_respuesta.
  destruct (rsp_evento ev =? "INVENTARIO_RESERVADO")%string;
    [|destruct (rsp_evento ev =? "PAGO_PROCESADO")%string;
      [|destruct (rsp_evento ev =? "PEDIDO_CONFIRMADO")%string]];
    try destruct (rsp_success ev); cbn; rewrite <- ?app_assoc; try done.
  all: try by rewrite app_nil_r.
  all: rewrite (correr_try_catch_ok _ _ _ _ _ (compensateSaga_sin_fallas _ _ _)).
  all: cbn; by rewrite <- app_assoc.
Qed.

Lemma escritos_de_saga (s sid : string) (l : list SagaState) :
  (List.filter (λ x : string * SagaState, (x.1 =? sid)%string) (map (pair s) l)).*2
  = if (s =? sid)%string then l else [].
Proof.
  induction l as [|x l IH]; cbn.
  - by destruct (s =? sid)%string.
  - destruct (s =? sid)%string; cbn; [by rewrite IH|done].
Qed.

Lemma estados_escritos_respuestas sid evs w :
  Sistema.estados_escritos sid (entregar_respuestas evs w)
  = Sistema.estados_escritos sid w
    ++ flat_map estados_de_respuesta
         (List.filter (λ ev, (rsp_sagaId ev =? sid)%string) evs).
Proof.
  revert w. induction evs as [|ev evs IH]; intros w; cbn.
  - by rewrite app_nil_r.
  - unfold entregar_respuestas in *. cbn. rewrite IH.
    unfold Sistema.estados_escritos at 1.
    rewrite processSagaResponse_bitacora, List.filter_app, fmap_app, escritos_de_saga.
    fold (Sistema.estados_escritos sid w).
    destruct (rsp_sagaId ev =? sid)%string; cbn.
    + by rewrite app_assoc.
    + by rewrite app_nil_r.
Qed.

Lemma es_respuesta_estados nombre exito ev :
  es_respuesta nombre exito ev = true →
  rsp_evento ev = nombre ∧ rsp_success ev = exito.
Proof.
  unfold es_respuesta. intros [H1 H2]%andb_true_iff.
  apply String.eqb_eq in H1. by apply bool_decide_eq_true in H2.
Qed.

Lemma es_fallo_estados ev :
  es_fallo ev = true → estados_de_respuesta ev = [COMPENSANDO; CANCELADA].
Proof.
  unfold es_fallo, estados_de_respuesta.
  intros [H|H]%orb_true_iff; apply es_respuesta_estados in H as [-> ->]; done.
Qed.

Lemma es_confirmacion_estados ev :
  es_confirmacion ev = true → estados_de_respuesta ev = [COMPLETADA].
Proof.
  unfold es_confirmacion, estados_de_respuesta.
  intros ->%String.eqb_eq. done.
Qed.

Lemma es_inventario_estados ev :
  es_respuesta "INVENTARIO_RESERVADO" true ev = true →
  estados_de_respuesta ev = [INVENTARIO_RESERVADO].
Proof.
  unfold estados_de_respuesta. by intros [-> ->]%es_respuesta_estados.
Qed.

Lemma es_pago_estados ev :
  es_respuesta "PAGO_PROCESADO" true ev = true →
  estados_de_respuesta ev = [PAGO_PROCESADO].
Proof.
  unfold estados_de_respuesta. by intros [-> ->]%es_respuesta_estados.
Qed.

(** C4, counterexample.  On the order of saga "s1", a failed
    INVENTARIO_RESERVADO followed by a late successful one writes
    INICIADA, COMPENSANDO, CANCELADA, INVENTARIO_RESERVADO: the saga goes
    from CANCELADA back to a forward state.  And a failed PAGO_PROCESADO
    delivered after the saga completed writes COMPLETADA and then CANCELADA:
    both terminal states.  And a single failed INVENTARIO_RESERVADO, handled
    while the publish of COMPENSAR_PAGO rejects, writes COMPENSANDO twice:
    the compensation wrote it before the rejection and the catch branch of
    the handler starts the compensation again. *)
Lemma monotonia_falla_con_respuesta_tardia :
  let inv exito := mkRespuesta "s1" "INVENTARIO_RESERVADO" exito payload_vacio 0 "inventario" in
  let pago exito := mkRespuesta "s1" "PAGO_PROCESADO" exito payload_vacio 0 "pagos" in
  let conf := mkRespuesta "s1" "PEDIDO_CONFIRMADO" true payload_vacio 0 "pedidos" in
  let w1 := entregar_respuestas [inv false; inv true] mundo_con_pedido in
  let w2 := entregar_respuestas [inv true; pago true; conf; pago false] mundo_con_pedido in
  let w3 := mundo_final (Pedidos.processSagaResponse (inv false) [false; true]
                           mundo_con_pedido) in
  Sistema.estados_escritos "s1" w1
    = [INICIADA; COMPENSANDO; CANCELADA; INVENTARIO_RESERVADO]
  ∧ camino_valido (Sistema.estados_escritos "s1" w1) = false
  ∧ Sistema.estado_de "s1" w1 = Some INVENTARIO_RESERVADO
  ∧ Sistema.estados_escritos "s1" w2
    = [INICIADA; INVENTARIO_RESERVADO; PAGO_PROCESADO; COMPLETADA; COMPENSANDO; CANCELADA]
  ∧ camino_valido (Sistema.estados_escritos "s1" w2) = false
  ∧ Sistema.estados_escritos "s1" w3 = [INICIADA; COMPENSANDO; COMPENSANDO; CANCELADA]
  ∧ camino_valido (Sistema.estados_escritos "s1" w3) = false.
Proof. vm_compute. done. Qed.

(** C4, amended.  For a saga whose only status written so far is INICIADA,
    when no call rejects while the responses are handled and the responses
    delivered for it come in the order of the protocol and each once
    (whatever is delivered for other sagas in between), the statuses
    written for it form a prefix of
    INICIADA→INVENTARIO_RESERVADO→PAGO_PROCESADO→COMPLETADA or a forward
    prefix followed by COMPENSANDO→CANCELADA.  [entregar_respuestas] is the
    delivery in which no call rejects. *)
Theorem monotonia_en_orden (sid : string) (evs : list Respuesta) (w : Mundo) :
  Sistema.estados_escritos sid w = [INICIADA] →
  en_orden (List.filter (λ ev, (rsp_sagaId ev =? sid)%string) evs) = true →
  camino_valido (Sistema.estados_escritos sid (entregar_respuestas evs w)) = true.
Proof.
  intros Hw Ho. rewrite estados_escritos_respuestas, Hw.
  destruct (List.filter _ evs) as [|a [|b [|c [|d l]]]]; cbn in Ho; [done| | | |done].
  all: repeat match goal with
         | H : _ && _ = true |- _ => apply andb_true_iff in H as [? ?]
         | H : _ || _ = true |- _ => apply orb_true_iff in H as [?|?]
         end.
  all: cbn [flat_map].
  all: repeat match goal with
         | H : es_respuesta "INVENTARIO_RESERVADO" true _ = true |- _ =>
             rewrite (es_inventario_estados _ H); clear H
         | H : es_respuesta "PAGO_PROCESADO" true _ = true |- _ =>
             rewrite (es_pago_estados _ H); clear H
         | H : es_confirmacion _ = true |- _ =>
             rewrite (es_confirmacion_estados _ H); clear H
         | H : es_fallo _ = true |- _ =>
             rewrite (es_fallo_estados _ H); clear H
         end.
  all: reflexivity.
Qed.

(** The witness of C4: the three responses of a saga that completes,
    delivered in order to the order of saga "s1". *)
Lemma monotonia_en_orden_witness :
  camino_valido
    (Sistema.estados_escritos "s1"
       (entregar_respuestas
          [mkRespuesta "s1" "INVENTARIO_RESERVADO" true payload_vacio 0 "inventario";
           mkRespuesta "s1" "PAGO_PROCESADO" true payload_vacio 0 "pagos";
           mkRespuesta "s1" "PEDIDO_CONFIRMADO" true payload_vacio 0 "pedidos"]
          mundo_con_pedido)) = true.
Proof. apply monotonia_en_orden; reflexivity. Defined.

(** ** Faults in the orchestrator's handler *)

(** The compensation under a schedule: it returns normally exactly when
    none of its five calls rejects, and then the schedule has lost those
    five flags. *)
Lemma compensateSaga_fallas sagaId razon fs w :
  if sin_fallas 5 fs then
    Pedidos.compensateSaga sagaId razon fs w
    = (Ok tt, (correr (Pedidos.compensateSaga sagaId razon) w).2, drop 5 fs)
  else resultado (Pedidos.compensateSaga sagaId razon fs w) = Throw "ECONNREFUSED".
Proof.
  destruct fs as [|[] [|[] [|[] [|[] [|[] fs]]]]]; reflexivity.
Qed.

(** When the first call of the compensation rejects nothing is written. *)
Lemma compensateSaga_rechaza_primera sagaId razon fs w :
  Pedidos.compensateSaga sagaId razon (true :: fs) w = (Throw "ECONNREFUSED", w, fs).
Proof. reflexivity. Qed.

(** C7, counterexample.  The successful INVENTARIO_RESERVADO of saga "s1"
    is handled while the store is unreachable: the insert into the step log
    rejects, the handler catches and starts the compensation, whose first
    call rejects as well.  The rejection leaves the handler and the saga is
    left in INICIADA, with no status written and no compensation command
    emitted. *)
Lemma falla_en_compensacion_se_propaga :
  let ev := mkRespuesta "s1" "INVENTARIO_RESERVADO" true payload_vacio 0 "inventario" in
  let x := Pedidos.processSagaResponse ev [true; true] mundo_con_pedido in
  resultado x = Throw "ECONNREFUSED"
  ∧ mundo_final x = mundo_con_pedido
  ∧ Sistema.estado_de "s1" (mundo_final x) = Some INICIADA
  ∧ Sistema.estados_escritos "s1" (mundo_final x) = [INICIADA].
Proof. vm_compute. done. Qed.

(** C7, amended.  When a call rejects while the handler dispatches a
    response, the handler catches the rejection and runs the compensation of
    that saga with reason ERROR_INTERNO.  If none of the five calls of the
    compensation rejects, the handler returns normally: COMPENSANDO and then
    CANCELADA are written for the saga, COMPENSAR_PAGO and LIBERAR_INVENTARIO
    are emitted with that reason and the step COMPENSACION/COMPLETADO is
    logged.  If one of them rejects, that rejection leaves the handler. *)
Theorem processSagaResponse_contiene_falla (ev : Respuesta) (fs fs1 : Fallas)
    (w w1 : Mundo) (e : string) :
  Pedidos.despachar ev fs w = (Throw e, w1, fs1) →
  let x := Pedidos.processSagaResponse ev fs w in
  let sid := rsp_sagaId ev in
  x = Pedidos.compensateSaga sid "ERROR_INTERNO" fs1 w1
  ∧ (sin_fallas 5 fs1 = true →
       resultado x = Ok tt
       ∧ bitacora (mundo_final x)
         = bitacora w1 ++ [(sid, COMPENSANDO); (sid, CANCELADA)]
       ∧ saga_events (mundo_final x)
         = saga_events w1
           ++ [mkMensaje sid "COMPENSAR_PAGO"
                 (Pedidos.payload_razon "ERROR_INTERNO") (reloj w1);
               mkMensaje sid "LIBERAR_INVENTARIO"
                 (Pedidos.payload_razon "ERROR_INTERNO") (reloj w1)]
       ∧ saga_estados (mundo_final x)
         = saga_estados w1 ++ [mkSagaPaso sid "COMPENSACION" "COMPLETADO"])
  ∧ (sin_fallas 5 fs1 = false → resultado x = Throw "ECONNREFUSED").
Proof.
  intros Hd x sid.
  assert (Hx : x = Pedidos.compensateSaga sid "ERROR_INTERNO" fs1 w1).
  { subst x. unfold Pedidos.processSagaResponse, try_catch. by rewrite Hd. }
  split; [exact Hx|]. rewrite Hx.
  pose proof (compensateSaga_fallas sid "ERROR_INTERNO" fs1 w1) as Hc.
  destruct (sin_fallas 5 fs1); split; try done; intros _.
  rewrite Hc, compensateSaga_sin_fallas. cbn. rewrite <- !app_assoc. done.
Qed.

(** The witness of C7: the insert into the step log rejects and the
    compensation runs to its end. *)
Lemma processSagaResponse_contiene_falla_witness :
  let ev := mkRespuesta "s1" "INVENTARIO_RESERVADO" true payload_vacio 0 "inventario" in
  let x := Pedidos.processSagaResponse ev [true] mundo_con_pedido in
  resultado x = Ok tt
  ∧ bitacora (mundo_final x)
    = bitacora mundo_con_pedido ++ [("s1", COMPENSANDO); ("s1", CANCELADA)].
Proof.
  pose proof (processSagaResponse_contiene_falla
                (mkRespuesta "s1" "INVENTARIO_RESERVADO" true payload_vacio 0 "inventario")
                [true] [] mundo_con_pedido mundo_con_pedido "ECONNREFUSED" eq_refl)
    as (_ & H & _).
  destruct (H eq_refl) as (H1 & H2 & _). split; [exact H1|exact H2].
Defined.

(** ** A release that fails *)

(** C10. When the release rejects while the inventory handles
    LIBERAR_INVENTARIO, its catch branch answers with the event name
    INVENTARIO_RESERVADO and [success = false] (provided the publish itself
    is not rejected).  The orchestrator, whatever the state of its store,
    in particular with the saga already CANCELADA, routes that response into
    the compensation: it writes COMPENSANDO and CANCELADA again, emits
    COMPENSAR_PAGO and LIBERAR_INVENTARIO again and logs another
    COMPENSACION/COMPLETADO step. *)
Theorem liberacion_fallida_recompensa (sid : string) (payload : Payload) (ts : Z)
    (fs fs1 : Fallas) (w w1 wo : Mundo) (e : string) :
  Inventario.liberarStock sid fs w = (Throw e, w1, fs1) →
  head fs1 ≠ Some true →
  let rsp := mkRespuesta sid "INVENTARIO_RESERVADO" false
               (mkPayload None None None None None (Some e)) (reloj w1) "inventario" in
  Inventario.consumidor (mkMensaje sid "LIBERAR_INVENTARIO" payload ts) fs w
  = (Ok tt, con_pedidos_responses (λ q, q ++ [rsp]) w1, tail fs1)
  ∧ let wo' := (correr (Pedidos.processSagaResponse rsp) wo).2 in
    bitacora wo' = bitacora wo ++ [(sid, COMPENSANDO); (sid, CANCELADA)]
    ∧ saga_events wo'
      = saga_events wo
        ++ [mkMensaje sid "COMPENSAR_PAGO"
              (Pedidos.payload_razon "INVENTARIO_NO_DISPONIBLE") (reloj wo);
            mkMensaje sid "LIBERAR_INVENTARIO"
              (Pedidos.payload_razon "INVENTARIO_NO_DISPONIBLE") (reloj wo)]
    ∧ saga_estados wo'
      = saga_estados wo ++ [mkSagaPaso sid "COMPENSACION" "COMPLETADO"].
Proof.
  intros Hl Hf rsp. split.
  - unfold Inventario.consumidor, Inventario.procesarEventoInventario, try_catch.
    cbn. rewrite Hl. unfold Inventario.enviarRespuesta, escribe, op.
    destruct fs1 as [|[] fs1]; [done| |done]. by destruct Hf.
  - cbn zeta. subst rsp.
    unfold Pedidos.processSagaResponse, Pedidos.despachar. cbn.
    rewrite (correr_try_catch_ok _ _ _ _ _ (compensateSaga_sin_fallas _ _ _)).
    cbn. by rewrite <- !app_assoc.
Qed.

(** The witness of C10.  An order for 999 units of product 1 is refused by
    the inventory and cancelled by the orchestrator; the LIBERAR_INVENTARIO
    of that compensation reaches the inventory while its store rejects the
    BEGIN; the answer makes the orchestrator compensate the cancelled saga a
    second time. *)
Lemma liberacion_fallida_recompensa_witness :
  let w :=
    mundo_final
      (Sistema.ejecutar
         [Sistema.PostPedidos
            (Pedidos.mkUsuario None (Some 1) "admin@tuso.com" "admin")
            (Pedidos.mkSolicitud (Some 1) (Some 999) (Some "tarjeta_credito"))
            "s1" "p1";
          Sistema.EntregaInventario; Sistema.EntregaPedidos;
          Sistema.EntregaPagos "t1" (1 # 2)]
         [] Sistema.mundo_inicial) in
  let rsp := mkRespuesta "s1" "INVENTARIO_RESERVADO" false
               (mkPayload None None None None None (Some "ECONNREFUSED")) 0
               "inventario" in
  Sistema.estado_de "s1" w = Some CANCELADA
  ∧ msg_evento <$> saga_events w = ["LIBERAR_INVENTARIO"]
  ∧ bitacora (correr (Pedidos.processSagaResponse rsp) w).2
    = bitacora w ++ [("s1", COMPENSANDO); ("s1", CANCELADA)].
Proof.
  set (w := mundo_final (Sistema.ejecutar _ [] Sistema.mundo_inicial)).
  assert (Hl : Inventario.liberarStock "s1" [true] w = (Throw "ECONNREFUSED", w, []))
    by (vm_compute; reflexivity).
  pose proof (liberacion_fallida_recompensa "s1"
                (Pedidos.payload_razon "INVENTARIO_NO_DISPONIBLE") 0
                [true] [] w w w "ECONNREFUSED" Hl ltac:(discriminate))
    as [_ (H & _)].
  split; [vm_compute; reflexivity|]. split; [vm_compute; reflexivity|].
  assert (Hr : reloj w = 0) by (vm_compute; reflexivity).
  rewrite Hr in H. exact H.
Defined.

(** ** POST /pedidos *)

(** C8, counterexample.  A request that carries no payment method is not
    refused: the handler answers 201, the order row is created in INICIADA
    and the RESERVAR_INVENTARIO command goes out without payment method. *)
Lemma post_pedidos_sin_metodo_de_pago :
  let x := correr
             (Pedidos.post_pedidos
                (Pedidos.mkUsuario None (Some 1) "admin@tuso.com" "admin")
                (Pedidos.mkSolicitud (Some 1) (Some 2) None) "s1" "p1")
             Sistema.mundo_inicial in
  x.1 = Ok (Pedidos.mkHttpRes 201 (Pedidos.JsonPedido "p1" "s1" INICIADA))
  ∧ pedidos x.2 = [mkPedido "p1" "s1" 1 1 2 INICIADA]
  ∧ saga_events x.2
    = [mkMensaje "s1" "RESERVAR_INVENTARIO"
         (mkPayload (Some 1) (Some 2) (Some "p1") None None None) 0].
Proof. vm_compute. done. Qed.

(** C8, amended.  The handler does not check the fields of the request
    itself.  When the principal carries [usuarioId] and the request carries
    product id and quantity, the three are values of the INTEGER columns of
    the order row and no call rejects, it creates the order row in
    INICIADA, logs CREAR_PEDIDO/COMPLETADO, emits RESERVAR_INVENTARIO with
    the product id, the quantity, the order id and the payment method as
    given (possibly absent), and answers 201 with the order id, the saga id
    and INICIADA.  When the product id or the quantity is absent, or is not
    a value of its INTEGER column, the insert of the order row is refused,
    nothing is written or emitted and the answer is 500. *)
Theorem post_pedidos_contrato (user : Pedidos.Usuario) (body : Pedidos.Solicitud)
    (sagaId pedidoId : string) (w : Mundo) :
  let x := correr (Pedidos.post_pedidos user body sagaId pedidoId) w in
  (∀ u p c,
     Pedidos.usr_usuarioId user = Some u →
     Pedidos.body_productoId body = Some p →
     Pedidos.body_cantidad body = Some c →
     es_integer u = true → es_integer p = true → es_integer c = true →
     x.1 = Ok (Pedidos.mkHttpRes 201 (Pedidos.JsonPedido pedidoId sagaId INICIADA))
     ∧ pedidos x.2 = pedidos w ++ [mkPedido pedidoId sagaId u p c INICIADA]
     ∧ saga_estados x.2
       = saga_estados w ++ [mkSagaPaso sagaId "CREAR_PEDIDO" "COMPLETADO"]
     ∧ saga_events x.2
       = saga_events w
         ++ [mkMensaje sagaId "RESERVAR_INVENTARIO"
               (mkPayload (Some p) (Some c) (Some pedidoId)
                          (Pedidos.body_metodoPago body) None None)
               (reloj w)]
     ∧ pedidos_responses x.2 = pedidos_responses w)
  ∧ (Pedidos.body_productoId body = None ∨ Pedidos.body_cantidad body = None →
     x = (Ok (Pedidos.mkHttpRes 500 (Pedidos.JsonError "Error interno")), w))
  ∧ (∀ n,
       Pedidos.body_productoId body = Some n ∨ Pedidos.body_cantidad body = Some n →
       es_integer n = false →
       x = (Ok (Pedidos.mkHttpRes 500 (Pedidos.JsonError "Error interno")), w)).
Proof.
  destruct user as [uid usid em ro], body as [bp bc bm].
  unfold Pedidos.post_pedidos, Pedidos.insert_pedido. desplegar.
  cbn [Pedidos.usr_usuarioId Pedidos.body_productoId Pedidos.body_cantidad
       Pedidos.body_metodoPago].
  split; [|split].
  - intros u p c -> -> -> Hu Hp Hc. rewrite Hu, Hp, Hc. done.
  - intros [->| ->]; destruct usid; try destruct bp; try destruct bc; done.
  - intros n [->| ->] Hn; destruct usid as [u|]; try destruct bp as [p|];
      try destruct bc as [c|]; try done; rewrite Hn, ?andb_false_r; done.
Qed.

(** The witness of C8: the request of [scripts/test-saga-exitosa.sh] from a
    principal that carries [usuarioId]. *)
Lemma post_pedidos_contrato_witness :
  pedidos mundo_con_pedido = [mkPedido "p1" "s1" 1 1 2 INICIADA]
  ∧ saga_events mundo_con_pedido
    = [mkMensaje "s1" "RESERVAR_INVENTARIO"
         (mkPayload (Some 1) (Some 2) (Some "p1") (Some "tarjeta_credito") None None) 0].
Proof.
  pose proof (post_pedidos_contrato
                (Pedidos.mkUsuario None (Some 1) "admin@tuso.com" "admin")
                (Pedidos.mkSolicitud (Some 1) (Some 2) (Some "tarjeta_credito"))
                "s1" "p1" Sistema.mundo_inicial) as [H _].
  destruct (H 1 1 2 eq_refl eq_refl eq_refl eq_refl eq_refl eq_refl)
    as (_ & H1 & _ & H2 & _).
  split; [exact H1|exact H2].
Defined.

(** The tokens issued by [POST /auth/login] carry [userId], not
    [usuarioId]: with such a principal the insert of the order row is
    refused and the request of [scripts/test-saga-exitosa.sh] is answered
    500. *)
Example post_pedidos_con_token_de_login :
  (user ← Pedidos.auth_login "admin@tuso.com" "admin123";
   Some (correr
           (Pedidos.post_pedidos user
              (Pedidos.mkSolicitud (Some 1) (Some 2) (Some "tarjeta_credito"))
              "s1" "p1")
           Sistema.mundo_inicial))
  = Some (Ok (Pedidos.mkHttpRes 500 (Pedidos.JsonError "Error interno")),
          Sistema.mundo_inicial).
Proof. vm_compute. done. Qed.

(** ** procesarPago *)

(** Under any fault schedule [procesarPago] returns normally, adds at most
    one row, and returns [true] only when it added a row in APROBADA. *)
Lemma procesarPago_casos sagaId payload transactionId azar fs w :
  sat (Pagos.procesarPago sagaId payload transactionId azar) fs w (λ r w',
    (r = Ok false ∧ w' = w)
    ∨ (∃ t b, r = Ok b
         ∧ w' = con_transacciones (λ ts, ts ++ [t]) w
         ∧ tx_saga_id t = sagaId
         ∧ tx_estado t = (if b then APROBADA else RECHAZADA))).
Proof.
  unfold Pagos.procesarPago, Pagos.insert_transaccion.
  pasos_sat_store; auto.
  all: right; eexists _, _; split; [reflexivity|]; split; [reflexivity|]; done.
Qed.

(** C9, counterexample.  A PROCESAR_PAGO for 113 units of product 4 paid by
    PSE: the method is in the allow-list, but the amount, 890000 × 113 =
    100570000, does not fit the DECIMAL(10,2) column [monto].  The insert is
    refused, [procesarPago] catches the refusal and returns [false]: no
    transaction row is persisted, whatever the draw, and the answer is
    PAGO_PROCESADO with [success = false]. *)
Lemma procesarPago_monto_fuera_de_rango :
  let payload := mkPayload (Some 4) (Some 113) (Some "p1") (Some "pse") None None in
  let x := correr (Pagos.consumidor (mkMensaje "s1" "PROCESAR_PAGO" payload 0)
                     "t1" (1 # 2)) Sistema.mundo_inicial in
  Pagos.includes Pagos.metodosValidos (metodoPago payload) = true
  ∧ Pagos.montoTotal (Pagos.obtenerPrecioProducto (productoId payload))
      (cantidad payload) = Some 100570000
  ∧ transacciones x.2 = []
  ∧ pedidos_responses x.2 = [mkRespuesta "s1" "PAGO_PROCESADO" false payload 0 "pagos"].
Proof. vm_compute. done. Qed.

(** C9, amended.  The payment participant's contract.  When no call
    rejects: a PROCESAR_PAGO whose payment method is not in the allow-list
    writes nothing to the store and is answered with PAGO_PROCESADO and
    [success = false]; one whose method is in the list and whose amount
    fits the column adds exactly one row to [transacciones], for that saga,
    in APROBADA or RECHAZADA, and is answered with PAGO_PROCESADO and
    [success] true exactly when the row is APROBADA; one whose amount does
    not fit writes nothing and is answered with [success = false].
    Whichever calls reject, the handler adds no row or one row of that
    saga in APROBADA or RECHAZADA. *)
Theorem procesarPago_contrato (sagaId : string) (payload : Payload) (ts : Z)
    (transactionId : string) (azar : Q) (w : Mundo) :
  let pago := mkMensaje sagaId "PROCESAR_PAGO" payload ts in
  let x := correr (Pagos.consumidor pago transactionId azar) w in
  let respuesta exito :=
    mkRespuesta sagaId "PAGO_PROCESADO" exito payload (reloj w) "pagos" in
  let monto :=
    Pagos.montoTotal (Pagos.obtenerPrecioProducto (productoId payload))
      (cantidad payload) in
  (Pagos.includes Pagos.metodosValidos (metodoPago payload) = false →
     correr (Pagos.procesarPago sagaId payload transactionId azar) w = (Ok false, w)
     ∧ x = (Ok tt, con_pedidos_responses (λ q, q ++ [respuesta false]) w))
  ∧ (Pagos.includes Pagos.metodosValidos (metodoPago payload) = true →
     es_decimal_10_2 monto = true →
     ∃ t,
       transacciones x.2 = transacciones w ++ [t]
       ∧ tx_saga_id t = sagaId
       ∧ tx_transaction_id t = transactionId
       ∧ tx_monto t = monto
       ∧ (tx_estado t = APROBADA ∨ tx_estado t = RECHAZADA)
       ∧ x.1 = Ok tt
       ∧ pedidos_responses x.2
         = pedidos_responses w ++ [respuesta (bool_decide (tx_estado t = APROBADA))]
       ∧ productos x.2 = productos w ∧ pedidos x.2 = pedidos w)
  ∧ (Pagos.includes Pagos.metodosValidos (metodoPago payload) = true →
     es_decimal_10_2 monto = false →
     correr (Pagos.procesarPago sagaId payload transactionId azar) w = (Ok false, w)
     ∧ x = (Ok tt, con_pedidos_responses (λ q, q ++ [respuesta false]) w))
  ∧ (∀ fs,
       let w' := mundo_final (Pagos.consumidor pago transactionId azar fs w) in
       transacciones w' = transacciones w
       ∨ ∃ t, transacciones w' = transacciones w ++ [t]
              ∧ tx_saga_id t = sagaId
              ∧ (tx_estado t = APROBADA ∨ tx_estado t = RECHAZADA)).
Proof.
  cbn zeta. split; [|split; [|split]].
  - intros Hm. unfold Pagos.consumidor, Pagos.procesarEventoPago, Pagos.procesarPago,
      Pagos.insert_transaccion, Pagos.enviarRespuesta.
    cbn. rewrite Hm. done.
  - intros Hm Hd. unfold Pagos.consumidor, Pagos.procesarEventoPago, Pagos.procesarPago,
      Pagos.insert_transaccion, Pagos.enviarRespuesta.
    cbn. rewrite Hm. cbn. rewrite Hd. cbn.
    destruct (Qle_bool azar (1 # 10)); cbn; eexists; cbn; repeat split; auto.
  - intros Hm Hd. unfold Pagos.consumidor, Pagos.procesarEventoPago, Pagos.procesarPago,
      Pagos.insert_transaccion, Pagos.enviarRespuesta.
    cbn. rewrite Hm. cbn. rewrite Hd. done.
  - intros fs.
    change (sat (Pagos.consumidor (mkMensaje sagaId "PROCESAR_PAGO" payload ts)
                   transactionId azar) fs w
              (λ _ w', transacciones w' = transacciones w
                       ∨ ∃ t, transacciones w' = transacciones w ++ [t]
                              ∧ tx_saga_id t = sagaId
                              ∧ (tx_estado t = APROBADA ∨ tx_estado t = RECHAZADA))).
    unfold Pagos.consumidor, Pagos.procesarEventoPago, Pagos.enviarRespuesta.
    cbn [msg_evento msg_sagaId msg_payload String.eqb Ascii.eqb Bool.eqb orb].
    apply sat_try_catch, sat_bind.
    eapply sat_conseq; [apply procesarPago_casos|].
    intros r w1 [[-> ->]|(t & b & -> & -> & Ht & He)].
    + pasos_sat; auto.
    + assert (Hf : ∃ t', transacciones (con_transacciones (λ l, l ++ [t]) w)
                         = transacciones w ++ [t']
                         ∧ tx_saga_id t' = sagaId
                         ∧ (tx_estado t' = APROBADA ∨ tx_estado t' = RECHAZADA)).
      { exists t. split; [done|]. split; [done|]. rewrite He. destruct b; auto. }
      pasos_sat; auto.
Qed.

(** The witness of C9: a payment by credit card that the draw approves. *)
Lemma procesarPago_contrato_witness :
  ∃ t,
    transacciones
      (correr (Pagos.consumidor
                 (mkMensaje "s1" "PROCESAR_PAGO"
                    (mkPayload (Some 1) (Some 2) (Some "p1") (Some "tarjeta_credito")
                               None None) 0)
                 "t1" (1 # 2)) Sistema.mundo_inicial).2 = [t]
    ∧ tx_estado t = APROBADA.
Proof.
  pose proof (procesarPago_contrato "s1"
                (mkPayload (Some 1) (Some 2) (Some "p1") (Some "tarjeta_credito")
                           None None) 0 "t1" (1 # 2) Sistema.mundo_inicial)
    as (_ & H & _).
  destruct (H eq_refl eq_refl) as (t & H1 & _ & _ & _ & _ & _ & H2 & _).
  exists t. split; [exact H1|].
  apply app_inj_tail in H2 as [_ H2]. injection H2 as H2.
  symmetry in H2. vm_compute in H2.
  by apply bool_decide_eq_true in H2.
Defined.

(** ** Invariants of runs *)

Lemma preserva_mret {A} I (a : A) : preserva I (mret a).
Proof. by intros fs w. Qed.

Lemma preserva_throw {A} I e : preserva I (@throw A e).
Proof. by intros fs w. Qed.

Lemma preserva_bind {A B} I (m : M A) (k : A → M B) :
  preserva I m → (∀ a, preserva I (k a)) → preserva I (m ≫= k).
Proof.
  intros Hm Hk fs w Hw. specialize (Hm fs w Hw).
  unfold mbind, M_bind, bind, mundo_final in *.
  destruct (m fs w) as [[[a|e] w'] fs']; cbn in *; [|done]. by apply Hk.
Qed.

Lemma preserva_try_catch {A} I (m : M A) h :
  preserva I m → (∀ e, preserva I (h e)) → preserva I (try_catch m h).
Proof.
  intros Hm Hh fs w Hw. specialize (Hm fs w Hw).
  unfold try_catch, mundo_final in *.
  destruct (m fs w) as [[[a|e] w'] fs']; cbn in *; [done|]. by apply Hh.
Qed.

Lemma preserva_op {A} (I : Mundo → Prop) (f : Mundo → Res A * Mundo) :
  (∀ w, I w → I (f w).2) → preserva I (op f).
Proof.
  intros Hf fs w Hw. specialize (Hf w Hw). unfold op, mundo_final.
  destruct fs as [|[] fs]; [|done|]; by destruct (f w).
Qed.

Lemma preserva_escribe (I : Mundo → Prop) f :
  (∀ w, I w → I (f w)) → preserva I (escribe f).
Proof. intros Hf. by apply preserva_op. Qed.

Lemma preserva_lee {A} (I : Mundo → Prop) (f : Mundo → A) : preserva I (lee f).
Proof. by apply preserva_op. Qed.

Lemma preserva_instantanea I : preserva I instantanea.
Proof. by intros fs w. Qed.

Lemma preserva_ROLLBACK (I : Mundo → Prop) w0 :
  (∀ w, I w → I (restaurar w0 w)) → preserva I (ROLLBACK w0).
Proof.
  intros Hr fs w Hw. specialize (Hr w Hw). unfold ROLLBACK, mundo_final.
  by destruct fs as [|[] fs].
Qed.

Ltac paso_preserva :=
  lazymatch goal with
  | |- preserva _ (mbind _ _) => apply preserva_bind; [|intros ?]
  | |- preserva _ (try_catch _ _) => apply preserva_try_catch; [|intros ?]
  | |- preserva _ (mret _) => apply preserva_mret
  | |- preserva _ (throw _) => apply preserva_throw
  | |- preserva _ (lee _) => apply preserva_lee
  | |- preserva _ (escribe _) => apply preserva_escribe
  | |- preserva _ (op _) => apply preserva_op
  | |- preserva _ instantanea => apply preserva_instantanea
  | |- preserva _ (ROLLBACK _) => apply preserva_ROLLBACK
  | |- preserva _ pool_connect => apply preserva_escribe
  | |- preserva _ BEGIN => apply preserva_escribe
  | |- preserva _ COMMIT => apply preserva_escribe
  | |- preserva _ (if ?b then _ else _) => destruct b
  | |- preserva _ (match ?x with _ => _ end) => destruct x
  end.

(** Queueing a response that is not a PEDIDO_CONFIRMADO keeps the
    invariant. *)
Lemma sin_confirmacion_respuesta w r :
  rsp_evento r ≠ "PEDIDO_CONFIRMADO" →
  sin_confirmacion w → sin_confirmacion (con_pedidos_responses (λ q, q ++ [r]) w).
Proof.
  intros Hr [H1 H2]. split; [|exact H2]. cbn.
  apply Forall_app. split; [exact H1|]. by constructor.
Qed.

(** So does writing a status other than COMPLETADA. *)
Lemma sin_confirmacion_estado w sid e :
  e ≠ COMPLETADA →
  sin_confirmacion w →
  sin_confirmacion
    (con_bitacora (λ b, b ++ [(sid, e)])
       (con_pedidos
          (map (λ p, if (ped_saga_id p =? sid)%string
                     then Pedidos.poner_estado e p else p)) w)).
Proof.
  intros He [H1 H2]. split; [exact H1|]. cbn.
  induction H2 as [|p ps Hp _ IH]; cbn; constructor; [|exact IH].
  by destruct (ped_saga_id p =? sid)%string.
Qed.

(** The participants write neither to [pedidos] nor a PEDIDO_CONFIRMADO to
    [pedidos_responses]. *)
Lemma inventario_sin_confirmacion msg :
  preserva sin_confirmacion (Inventario.consumidor msg).
Proof.
  unfold Inventario.consumidor, Inventario.procesarEventoInventario,
    Inventario.reservarStock, Inventario.liberarStock, Inventario.enviarRespuesta,
    Inventario.select_stock, Inventario.update_restar_stock,
    Inventario.insert_reserva, Inventario.select_reservas,
    Inventario.update_sumar_stock, Inventario.update_estado_reservas.
  repeat paso_preserva; try done.
  all: try (intros w Hw; by apply sin_confirmacion_respuesta).
  all: intros w Hw; cbn;
    repeat match goal with
      | |- context [match ?x with _ => _ end] => destruct x
      end; done.
Qed.

Lemma pagos_sin_confirmacion msg transactionId azar :
  preserva sin_confirmacion (Pagos.consumidor msg transactionId azar).
Proof.
  unfold Pagos.consumidor, Pagos.procesarEventoPago, Pagos.procesarPago,
    Pagos.compensarPago, Pagos.enviarRespuesta, Pagos.insert_transaccion,
    Pagos.select_transacciones, Pagos.update_estado_transaccion.
  repeat paso_preserva; try done.
  all: intros w Hw; cbn;
    repeat match goal with
      | |- context [if ?b then _ else _] => destruct b
      end; try done.
  all: by apply sin_confirmacion_respuesta.
Qed.

Lemma barrido_sin_confirmacion : preserva sin_confirmacion Inventario.barrido.
Proof.
  unfold Inventario.barrido, Inventario.update_expirar,
    Inventario.update_devolver_expiradas.
  repeat paso_preserva; try done.
  intros w Hw. cbn. by destruct (forallb _ _).
Qed.

Lemma compensateSaga_sin_confirmacion sid razon :
  preserva sin_confirmacion (Pedidos.compensateSaga sid razon).
Proof.
  unfold Pedidos.compensateSaga, Pedidos.updatePedidoState,
    Pedidos.publishSagaEvent, Pedidos.updateSagaState.
  repeat paso_preserva; try done.
  all: intros w Hw; by apply sin_confirmacion_estado.
Qed.

(** The orchestrator writes COMPLETADA only for a PEDIDO_CONFIRMADO. *)
Lemma processSagaResponse_sin_confirmacion ev :
  rsp_evento ev ≠ "PEDIDO_CONFIRMADO" →
  preserva sin_confirmacion (Pedidos.processSagaResponse ev).
Proof.
  intros Hev. unfold Pedidos.processSagaResponse, Pedidos.despachar.
  apply preserva_try_catch; [|intros ?; apply compensateSaga_sin_confirmacion].
  apply String.eqb_neq in Hev. rewrite Hev.
  destruct (rsp_evento ev =? "INVENTARIO_RESERVADO")%string;
    [|destruct (rsp_evento ev =? "PAGO_PROCESADO")%string];
    try destruct (rsp_success ev);
    try apply compensateSaga_sin_confirmacion;
    try apply preserva_mret.
  all: unfold Pedidos.updatePedidoState, Pedidos.publishSagaEvent,
         Pedidos.updateSagaState.
  all: repeat paso_preserva; try done.
  all: intros w Hw; by apply sin_confirmacion_estado.
Qed.

Lemma post_pedidos_sin_confirmacion user body sagaId pedidoId :
  preserva sin_confirmacion (Pedidos.post_pedidos user body sagaId pedidoId).
Proof.
  unfold Pedidos.post_pedidos, Pedidos.insert_pedido, Pedidos.publishSagaEvent,
    Pedidos.updateSagaState.
  repeat paso_preserva; try done.
  intros w [H1 H2].
  destruct (Pedidos.usr_usuarioId user), (Pedidos.body_productoId body),
    (Pedidos.body_cantidad body); try done.
  destruct (_ && _); [|done].
  split; [exact H1|]. cbn. apply Forall_app. split; [exact H2|]. by constructor.
Qed.

Lemma paso_sin_confirmacion p : preserva sin_confirmacion (Sistema.paso p).
Proof.
  destruct p as [user body sagaId pedidoId| |transactionId azar| | |d]; cbn.
  - apply preserva_bind; [apply post_pedidos_sin_confirmacion|].
    intros ?. apply preserva_mret.
  - intros fs w Hw. unfold Sistema.entregar.
    destruct (saga_events w) as [|msg q]; [done|].
    pose proof (inventario_sin_confirmacion msg fs w Hw) as H.
    unfold mundo_final in *.
    by destruct (Inventario.consumidor msg fs w) as [[[[]|e] w'] fs'].
  - intros fs w Hw. unfold Sistema.entregar.
    destruct (saga_events w) as [|msg q]; [done|].
    pose proof (pagos_sin_confirmacion msg transactionId azar fs w Hw) as H.
    unfold mundo_final in *.
    by destruct (Pagos.consumidor msg transactionId azar fs w) as [[[[]|e] w'] fs'].
  - intros fs w Hw. unfold Sistema.entregar.
    destruct (pedidos_responses w) as [|ev q] eqn:E; [done|].
    assert (Hev : rsp_evento ev ≠ "PEDIDO_CONFIRMADO").
    { destruct Hw as [H1 _]. rewrite E in H1. by inversion H1. }
    pose proof (processSagaResponse_sin_confirmacion ev Hev fs w Hw) as H.
    unfold mundo_final in *.
    destruct (Pedidos.processSagaResponse ev fs w) as [[[[]|e] w'] fs']; [|done].
    cbn in *. destruct H as [H1 H2]. split; [|exact H2]. cbn.
    destruct (pedidos_responses w'); [done|]. by inversion H1.
  - apply barrido_sin_confirmacion.
  - by intros fs w Hw.
Qed.

Lemma ejecutar_sin_confirmacion ps : preserva sin_confirmacion (Sistema.ejecutar ps).
Proof.
  induction ps as [|p ps IH]; cbn.
  - apply preserva_mret.
  - apply preserva_bind; [|intros ?; exact IH].
    apply preserva_try_catch; [apply paso_sin_confirmacion|].
    intros ?. apply preserva_mret.
Qed.

(** No run of the composed system takes an order to COMPLETADA: whatever
    the clients post, whichever consumer the broker picks for each command,
    whatever the payment draws and whichever calls reject, no participant
    answers CONFIRMAR_PEDIDO with a PEDIDO_CONFIRMADO. *)
Lemma ninguna_saga_llega_a_COMPLETADA ps fs sid :
  Sistema.estado_de sid (mundo_final (Sistema.ejecutar ps fs Sistema.mundo_inicial))
  ≠ Some COMPLETADA.
Proof.
  assert (H0 : sin_confirmacion Sistema.mundo_inicial) by (split; constructor).
  pose proof (ejecutar_sin_confirmacion ps fs _ H0) as [_ H].
  unfold Sistema.estado_de.
  destruct (List.find _ _) as [p|] eqn:E; [|done]. cbn. intros [= Hp].
  apply find_some in E as [Hin _].
  rewrite Forall_forall in H. apply (H p); [|exact Hp].
  by apply list_elem_of_In.
Qed.

(** Both participants consume the one queue [saga_events]: when the broker
    hands the RESERVAR_INVENTARIO of an order to the consumer of pagos, it is
    acknowledged unanswered and the order stays in INICIADA. *)
Example comando_entregado_al_otro_consumidor :
  let w := mundo_final
             (Sistema.ejecutar [Sistema.EntregaPagos "t1" (1 # 2)] [] mundo_con_pedido) in
  msg_evento <$> saga_events mundo_con_pedido = ["RESERVAR_INVENTARIO"]
  ∧ saga_events w = [] ∧ pedidos_responses w = []
  ∧ Sistema.estado_de "s1" w = Some INICIADA.
Proof. vm_compute. done. Qed.

(** C1. At the input where the claim fails: the order of
    [scripts/test-saga-exitosa.sh] (two units of product 1, stock 10, credit
    card), the broker handing each command to the consumer that handles it,
    the reservation succeeding and the payment approved.  After the
    orchestrator handled the approved payment the order is in
    PAGO_PROCESADO, the stock of the product is 8, no response is waiting
    and the only command waiting is CONFIRMAR_PEDIDO.  Whichever consumer
    receives it acknowledges it without answering: both queues are then
    empty and the order stays in PAGO_PROCESADO. *)
Theorem saga_feliz_no_llega_a_COMPLETADA :
  let entregas :=
    [Sistema.EntregaInventario; Sistema.EntregaPedidos;
     Sistema.EntregaPagos "t1" (1 # 2); Sistema.EntregaPedidos] in
  let w := mundo_final (Sistema.ejecutar entregas [] mundo_con_pedido) in
  let w1 := mundo_final (Sistema.ejecutar [Sistema.EntregaInventario] [] w) in
  let w2 := mundo_final (Sistema.ejecutar [Sistema.EntregaPagos "t2" (1 # 2)] [] w) in
  productos mundo_con_pedido !! 1 = Some 10
  ∧ tx_estado <$> transacciones w = [APROBADA]
  ∧ productos w !! 1 = Some 8
  ∧ Sistema.estado_de "s1" w = Some PAGO_PROCESADO
  ∧ pedidos_responses w = []
  ∧ msg_evento <$> saga_events w = ["CONFIRMAR_PEDIDO"]
  ∧ (saga_events w1 = [] ∧ pedidos_responses w1 = []
     ∧ Sistema.estado_de "s1" w1 = Some PAGO_PROCESADO)
  ∧ (saga_events w2 = [] ∧ pedidos_responses w2 = []
     ∧ Sistema.estado_de "s1" w2 = Some PAGO_PROCESADO).
Proof. vm_compute. done. Qed.

(** * More of the services *)

(** ** authenticateToken *)

Lemma split_espacio_no_vacio s : Pedidos.split_espacio s ≠ [].
Proof.
  destruct s as [|c s]; cbn [Pedidos.split_espacio]; [done|].
  destruct (Ascii.eqb c _); [done|]. by destruct (Pedidos.split_espacio s).
Qed.

Lemma split_espacio_sin_espacio s :
  sin_espacio s = true → Pedidos.split_espacio s = [s].
Proof.
  induction s as [|c s IH]; cbn [sin_espacio Pedidos.split_espacio]; [done|].
  intros [Hc Hs]%andb_true_iff. apply negb_true_iff in Hc. rewrite Hc.
  by rewrite (IH Hs).
Qed.

Lemma split_espacio_primera a b :
  sin_espacio a = true →
  Pedidos.split_espacio (a +:+ " " +:+ b) = a :: Pedidos.split_espacio b.
Proof.
  induction a as [|c a IH]; cbn [sin_espacio]; [done|].
  intros [Hc Ha]%andb_true_iff. apply negb_true_iff in Hc.
  change (String c a +:+ " " +:+ b) with (String c (a +:+ " " +:+ b)).
  cbn [Pedidos.split_espacio]. rewrite Hc. by rewrite (IH Ha).
Qed.

(** A request without [Authorization] header, or whose header has no
    space in it, is answered 401 whatever the verifier accepts. *)
Theorem authenticateToken_sin_token (jwt_verify : string → option Pedidos.Usuario)
    (h : string) :
  Pedidos.authenticateToken jwt_verify None = Pedidos.Rechazo 401 "Token requerido"
  ∧ (sin_espacio h = true →
     Pedidos.authenticateToken jwt_verify (Some h)
     = Pedidos.Rechazo 401 "Token requerido").
Proof.
  split; [done|]. intros Hh. unfold Pedidos.authenticateToken, Pedidos.token_de.
  cbn. by rewrite (split_espacio_sin_espacio _ Hh).
Qed.

Lemma authenticateToken_sin_token_witness :
  Pedidos.authenticateToken (λ _, Some (Pedidos.mkUsuario (Some 1) None "a" "admin"))
    (Some "Bearer")
  = Pedidos.Rechazo 401 "Token requerido".
Proof.
  exact (proj2 (authenticateToken_sin_token _ "Bearer") eq_refl).
Defined.

(** The middleware never looks at the scheme word and ignores whatever
    follows a second space: a header made of any word, a space and a
    non-empty token (and then, possibly, a space and anything) is handed
    to the verifier with that token; it passes with the claims the verifier
    returns and is answered 403 when the verifier refuses. *)
Theorem authenticateToken_ignora_esquema (jwt_verify : string → option Pedidos.Usuario)
    (esquema token resto : string) :
  sin_espacio esquema = true → sin_espacio token = true → token ≠ "" →
  let decide_verificador :=
    match jwt_verify token with
    | Some user => Pedidos.Siguiente user
    | None => Pedidos.Rechazo 403 "Token inválido"
    end in
  Pedidos.authenticateToken jwt_verify (Some (esquema +:+ " " +:+ token))
  = decide_verificador
  ∧ Pedidos.authenticateToken jwt_verify
      (Some (esquema +:+ " " +:+ token +:+ " " +:+ resto))
    = decide_verificador.
Proof.
  intros He Ht Hne. cbn zeta.
  apply String.eqb_neq in Hne.
  unfold Pedidos.authenticateToken, Pedidos.token_de. cbn.
  rewrite !(split_espacio_primera _ _ He).
  rewrite (split_espacio_sin_espacio _ Ht), (split_espacio_primera _ _ Ht).
  cbn. by rewrite Hne.
Qed.

Lemma authenticateToken_ignora_esquema_witness :
  Pedidos.authenticateToken
    (λ t, if (t =? "abc")%string
          then Some (Pedidos.mkUsuario (Some 1) None "a" "admin") else None)
    (Some "Basic abc")
  = Pedidos.Siguiente (Pedidos.mkUsuario (Some 1) None "a" "admin").
Proof.
  exact (proj1 (authenticateToken_ignora_esquema
                  (λ t, if (t =? "abc")%string
                        then Some (Pedidos.mkUsuario (Some 1) None "a" "admin")
                        else None)
                  "Basic" "abc" "" eq_refl eq_refl ltac:(discriminate))).
Defined.

(** ** POST /pedidos and the compensation under faults *)

(** Whichever calls reject, the handler of [POST /pedidos] answers, with
    201 or with 500.  It answers 201 only when the order row, the step and
    the command were all three written.  When it answers 500 no command was
    emitted, but the order row may already be in the table (and its step in
    the log): the three writes are not one transaction. *)
Theorem post_pedidos_respuestas (user : Pedidos.Usuario) (body : Pedidos.Solicitud)
    (sagaId pedidoId : string) (fs : Fallas) (w : Mundo) :
  sat (Pedidos.post_pedidos user body sagaId pedidoId) fs w (λ r w',
    (r = Ok (Pedidos.mkHttpRes 201 (Pedidos.JsonPedido pedidoId sagaId INICIADA))
     ∧ ∃ u p c,
         Pedidos.usr_usuarioId user = Some u
         ∧ Pedidos.body_productoId body = Some p
         ∧ Pedidos.body_cantidad body = Some c
         ∧ pedidos w' = pedidos w ++ [mkPedido pedidoId sagaId u p c INICIADA]
         ∧ saga_estados w'
           = saga_estados w ++ [mkSagaPaso sagaId "CREAR_PEDIDO" "COMPLETADO"]
         ∧ saga_events w'
           = saga_events w
             ++ [mkMensaje sagaId "RESERVAR_INVENTARIO"
                   (mkPayload (Some p) (Some c) (Some pedidoId)
                              (Pedidos.body_metodoPago body) None None)
                   (reloj w)])
    ∨ (r = Ok (Pedidos.mkHttpRes 500 (Pedidos.JsonError "Error interno"))
       ∧ saga_events w' = saga_events w
       ∧ (pedidos w' = pedidos w
          ∨ ∃ u p c, pedidos w' = pedidos w ++ [mkPedido pedidoId sagaId u p c INICIADA]))).
Proof.
  unfold Pedidos.post_pedidos, Pedidos.insert_pedido, Pedidos.updateSagaState,
    Pedidos.publishSagaEvent.
  destruct (Pedidos.usr_usuarioId user) as [u|],
    (Pedidos.body_productoId body) as [p|],
    (Pedidos.body_cantidad body) as [c|].
  all: try destruct (es_integer u && es_integer p && es_integer c).
  all: pasos_sat; try (right; split; [done|]; split; [done|]; by left).
  all: try (right; split; [done|]; split; [done|]; right; by exists u, p, c).
  left. split; [done|]. by exists u, p, c.
Qed.

(** No principal issued by [POST /auth/login] can create an order: its
    claims carry [userId] and the handler reads [usuarioId], so the insert
    of the order row is refused.  Whatever the request and whichever calls
    reject, the answer is 500 and the store is left as it was. *)
Theorem post_pedidos_principal_de_login (email password : string)
    (user : Pedidos.Usuario) (body : Pedidos.Solicitud) (sagaId pedidoId : string)
    (fs : Fallas) (w : Mundo) :
  Pedidos.auth_login email password = Some user →
  sat (Pedidos.post_pedidos user body sagaId pedidoId) fs w (λ r w',
    r = Ok (Pedidos.mkHttpRes 500 (Pedidos.JsonError "Error interno")) ∧ w' = w).
Proof.
  intros Hl.
  assert (Hu : Pedidos.usr_usuarioId user = None).
  { unfold Pedidos.auth_login in Hl.
    destruct (_ && _); [by injection Hl as <-|].
    destruct (_ && _); [by injection Hl as <-|done]. }
  unfold Pedidos.post_pedidos, Pedidos.insert_pedido. rewrite Hu.
  by pasos_sat.
Qed.

Lemma post_pedidos_principal_de_login_witness :
  correr
    (Pedidos.post_pedidos (Pedidos.mkUsuario (Some 2) None "cliente@tuso.com" "cliente")
       (Pedidos.mkSolicitud (Some 1) (Some 2) (Some "pse")) "s1" "p1")
    Sistema.mundo_inicial
  = (Ok (Pedidos.mkHttpRes 500 (Pedidos.JsonError "Error interno")),
     Sistema.mundo_inicial).
Proof.
  pose proof (post_pedidos_principal_de_login "cliente@tuso.com" "cliente123"
                (Pedidos.mkUsuario (Some 2) None "cliente@tuso.com" "cliente")
                (Pedidos.mkSolicitud (Some 1) (Some 2) (Some "pse")) "s1" "p1"
                [] Sistema.mundo_inicial eq_refl) as [H1 H2].
  unfold correr. unfold resultado, mundo_final in *.
  destruct (Pedidos.post_pedidos _ _ _ _ [] Sistema.mundo_inicial) as [[r w'] fs'].
  cbn in *. by rewrite H1, H2.
Defined.

(** The order of the compensation holds under faults: whichever calls
    reject, if CANCELADA was written for the saga then COMPENSANDO was
    written before it and both compensation commands were emitted;
    otherwise the procedure rejected. *)
Theorem compensateSaga_orden (sagaId razon : string) (fs : Fallas) (w : Mundo) :
  sat (Pedidos.compensateSaga sagaId razon) fs w (λ r w',
    (bitacora w' = bitacora w ++ [(sagaId, COMPENSANDO); (sagaId, CANCELADA)]
     ∧ saga_events w'
       = saga_events w
         ++ [mkMensaje sagaId "COMPENSAR_PAGO" (Pedidos.payload_razon razon) (reloj w);
             mkMensaje sagaId "LIBERAR_INVENTARIO" (Pedidos.payload_razon razon)
               (reloj w)])
    ∨ (r = Throw "ECONNREFUSED"
       ∧ (bitacora w' = bitacora w ∨ bitacora w' = bitacora w ++ [(sagaId, COMPENSANDO)]))).
Proof.
  unfold Pedidos.compensateSaga, Pedidos.updatePedidoState, Pedidos.publishSagaEvent,
    Pedidos.updateSagaState.
  pasos_sat; cbn; rewrite <- ?app_assoc; auto.
Qed.

(** ** One saga at a time *)

Lemma find_poner_estado_otra sid sid' e (ps : list Pedido) :
  sid' ≠ sid →
  List.find (λ p, (ped_saga_id p =? sid)%string)
    (map (λ p, if (ped_saga_id p =? sid')%string then Pedidos.poner_estado e p else p) ps)
  = List.find (λ p, (ped_saga_id p =? sid)%string) ps.
Proof.
  intros Hne. induction ps as [|p ps IH]; [done|]. cbn.
  destruct (ped_saga_id p =? sid')%string eqn:E'; cbn.
  - apply String.eqb_eq in E'.
    assert ((ped_saga_id p =? sid)%string = false) as ->; [|exact IH].
    apply String.eqb_neq. congruence.
  - by rewrite IH.
Qed.

Lemma vista_saga_estado sid sid' e w :
  sid' ≠ sid →
  vista_saga sid
    (con_bitacora (λ b, b ++ [(sid', e)])
       (con_pedidos
          (map (λ p, if (ped_saga_id p =? sid')%string
                     then Pedidos.poner_estado e p else p)) w))
  = vista_saga sid w.
Proof.
  intros Hne. unfold vista_saga, Sistema.estado_de, Sistema.estados_escritos. cbn.
  rewrite find_poner_estado_otra by done.
  rewrite List.filter_app. cbn.
  assert ((sid' =? sid)%string = false) as -> by by apply String.eqb_neq.
  by rewrite app_nil_r.
Qed.

Lemma vista_saga_paso sid sid' paso estado w :
  sid' ≠ sid →
  vista_saga sid (con_saga_estados (λ l, l ++ [mkSagaPaso sid' paso estado]) w)
  = vista_saga sid w.
Proof.
  intros Hne. unfold vista_saga. cbn. rewrite List.filter_app. cbn.
  assert ((sid' =? sid)%string = false) as -> by by apply String.eqb_neq.
  by rewrite app_nil_r.
Qed.

Lemma compensateSaga_otra_saga sid sid' razon v :
  sid' ≠ sid →
  preserva (λ w, vista_saga sid w = v) (Pedidos.compensateSaga sid' razon).
Proof.
  intros Hne. unfold Pedidos.compensateSaga, Pedidos.updatePedidoState,
    Pedidos.publishSagaEvent, Pedidos.updateSagaState.
  repeat paso_preserva; intros w Hw; try done.
  all: by rewrite ?vista_saga_estado, ?vista_saga_paso.
Qed.

(** A response touches only its own saga: whichever calls reject, handling
    a response of one saga leaves the order status, the statuses written
    and the step log of every other saga as they were. *)
Theorem processSagaResponse_otra_saga (ev : Respuesta) (sid : string) (fs : Fallas)
    (w : Mundo) :
  rsp_sagaId ev ≠ sid →
  vista_saga sid (mundo_final (Pedidos.processSagaResponse ev fs w)) = vista_saga sid w.
Proof.
  intros Hne.
  assert (H : preserva (λ w', vista_saga sid w' = vista_saga sid w)
                (Pedidos.processSagaResponse ev)); [|by apply H].
  unfold Pedidos.processSagaResponse, Pedidos.despachar.
  apply preserva_try_catch; [|intros ?; by apply compensateSaga_otra_saga].
  repeat match goal with
         | |- preserva _ (if ?b then _ else _) => destruct b
         end;
    try (by apply compensateSaga_otra_saga); try apply preserva_mret.
  all: unfold Pedidos.updatePedidoState, Pedidos.publishSagaEvent,
         Pedidos.updateSagaState.
  all: repeat paso_preserva; intros w' Hw'; try done.
  all: by rewrite ?vista_saga_estado, ?vista_saga_paso.
Qed.

Lemma processSagaResponse_otra_saga_witness :
  vista_saga "s1"
    (mundo_final
       (Pedidos.processSagaResponse
          (mkRespuesta "s2" "INVENTARIO_RESERVADO" false payload_vacio 0 "inventario")
          [] mundo_con_pedido))
  = vista_saga "s1" mundo_con_pedido.
Proof.
  apply processSagaResponse_otra_saga. discriminate.
Defined.

(** ** GET /sagas/:sagaId *)

Lemma filter_saga_vacio {A} (f : A → string) sagaId (l : list A) :
  Forall (λ x, f x ≠ sagaId) l →
  List.filter (λ x, (f x =? sagaId)%string) l = [].
Proof.
  induction 1 as [|x l Hx _ IH]; [done|]. cbn.
  apply String.eqb_neq in Hx. by rewrite Hx.
Qed.

(** The store reads the text of the URL as a uuid.  For a text that is not
    a uuid the query is refused and the handler answers 500.  For a uuid
    that no order and no step carries the handler answers 200 with no order
    and an empty step list, not 404.  The store is left as it was. *)
Theorem get_saga_desconocida (uuid_in : string → option string) (sagaId : string)
    (w : Mundo) :
  (uuid_in sagaId = None →
     correr (Pedidos.get_saga uuid_in sagaId) w
     = (Ok (500, Pedidos.JsonSagaError "Error interno"), w))
  ∧ (∀ u, uuid_in sagaId = Some u →
       Forall (λ p, ped_saga_id p ≠ u) (pedidos w) →
       Forall (λ e, sp_saga_id e ≠ u) (saga_estados w) →
       correr (Pedidos.get_saga uuid_in sagaId) w
       = (Ok (200, Pedidos.JsonSaga None []), w)).
Proof.
  unfold Pedidos.get_saga, select_por_saga_id. desplegar. split.
  - intros ->. done.
  - intros u -> Hp He. cbn.
    by rewrite (filter_saga_vacio ped_saga_id _ _ Hp),
      (filter_saga_vacio sp_saga_id _ _ He).
Qed.

(** On the store with the order of saga "s1": the text [s2] is not a uuid
    and is answered 500; a uuid in upper case that no row carries is
    answered 200 with nothing. *)
Lemma get_saga_desconocida_witness :
  correr (Pedidos.get_saga uuid_postgres "s2") mundo_con_pedido
  = (Ok (500, Pedidos.JsonSagaError "Error interno"), mundo_con_pedido)
  ∧ correr (Pedidos.get_saga uuid_postgres "123E4567-E89B-42D3-A456-426614174000")
      mundo_con_pedido
    = (Ok (200, Pedidos.JsonSaga None []), mundo_con_pedido).
Proof.
  split.
  - exact (proj1 (get_saga_desconocida uuid_postgres "s2" mundo_con_pedido) eq_refl).
  - apply (proj2 (get_saga_desconocida uuid_postgres
                    "123E4567-E89B-42D3-A456-426614174000" mundo_con_pedido)
             "123e4567-e89b-42d3-a456-426614174000"); [reflexivity| |];
      repeat constructor; discriminate.
Defined.

(** Round trip of an accepted order: when the saga id is new to the store,
    reading the saga right after [POST /pedidos] answered 201, with any text
    the store reads as the uuid of the saga, gives back the order row in
    INICIADA and the single step CREAR_PEDIDO/COMPLETADO. *)
Theorem get_saga_tras_post_pedidos (uuid_in : string → option string)
    (user : Pedidos.Usuario) (body : Pedidos.Solicitud)
    (sagaId pedidoId texto : string) (u p c : Z) (w : Mundo) :
  Pedidos.usr_usuarioId user = Some u →
  Pedidos.body_productoId body = Some p →
  Pedidos.body_cantidad body = Some c →
  es_integer u = true → es_integer p = true → es_integer c = true →
  uuid_in texto = Some sagaId →
  Forall (λ p, ped_saga_id p ≠ sagaId) (pedidos w) →
  Forall (λ e, sp_saga_id e ≠ sagaId) (saga_estados w) →
  let x := correr (Pedidos.post_pedidos user body sagaId pedidoId) w in
  x.1 = Ok (Pedidos.mkHttpRes 201 (Pedidos.JsonPedido pedidoId sagaId INICIADA))
  ∧ correr (Pedidos.get_saga uuid_in texto) x.2
    = (Ok (200,
           Pedidos.JsonSaga (Some (mkPedido pedidoId sagaId u p c INICIADA))
             [mkSagaPaso sagaId "CREAR_PEDIDO" "COMPLETADO"]),
       x.2).
Proof.
  intros Hu Hp Hc Hiu Hip Hic Ht Hps Hes.
  unfold Pedidos.post_pedidos, Pedidos.insert_pedido, Pedidos.updateSagaState,
    Pedidos.publishSagaEvent, Pedidos.get_saga, select_por_saga_id.
  rewrite Hu, Hp, Hc, Hiu, Hip, Hic, Ht. desplegar. cbn.
  rewrite !List.filter_app. cbn. rewrite String.eqb_refl. cbn.
  rewrite (filter_saga_vacio ped_saga_id _ _ Hps),
    (filter_saga_vacio sp_saga_id _ _ Hes). done.
Qed.

(** An order posted on the initial store and read back with the uuid of
    its saga written in upper case and between braces. *)
Lemma get_saga_tras_post_pedidos_witness :
  let x :=
    correr
      (Pedidos.post_pedidos (Pedidos.mkUsuario None (Some 1) "admin@tuso.com" "admin")
         (Pedidos.mkSolicitud (Some 1) (Some 2) (Some "tarjeta_credito"))
         "123e4567-e89b-42d3-a456-426614174000" "p1")
      Sistema.mundo_inicial in
  (correr (Pedidos.get_saga uuid_postgres "{123E4567-E89B-42D3-A456-426614174000}")
     x.2).1
  = Ok (200,
        Pedidos.JsonSaga
          (Some (mkPedido "p1" "123e4567-e89b-42d3-a456-426614174000" 1 1 2 INICIADA))
          [mkSagaPaso "123e4567-e89b-42d3-a456-426614174000" "CREAR_PEDIDO"
             "COMPLETADO"]).
Proof.
  cbn zeta.
  rewrite (proj2 (get_saga_tras_post_pedidos uuid_postgres
                    (Pedidos.mkUsuario None (Some 1) "admin@tuso.com" "admin")
                    (Pedidos.mkSolicitud (Some 1) (Some 2) (Some "tarjeta_credito"))
                    "123e4567-e89b-42d3-a456-426614174000" "p1"
                    "{123E4567-E89B-42D3-A456-426614174000}" 1 1 2
                    Sistema.mundo_inicial eq_refl eq_refl eq_refl eq_refl eq_refl
                    eq_refl eq_refl (Forall_nil_2 _) (Forall_nil_2 _))).
  reflexivity.
Defined.

(** ** Deliveries *)

Lemma inventario_no_toca_saga_events msg q :
  preserva (λ w, saga_events w = q) (Inventario.consumidor msg).
Proof.
  unfold Inventario.consumidor, Inventario.procesarEventoInventario,
    Inventario.reservarStock, Inventario.liberarStock, Inventario.enviarRespuesta,
    Inventario.select_stock, Inventario.update_restar_stock,
    Inventario.insert_reserva, Inventario.select_reservas,
    Inventario.update_sumar_stock, Inventario.update_estado_reservas.
  repeat paso_preserva; try done.
  all: intros w Hw; cbn;
    repeat match goal with
      | |- context [match ?x with _ => _ end] => destruct x
      end; done.
Qed.

Lemma pagos_no_toca_saga_events msg transactionId azar q :
  preserva (λ w, saga_events w = q) (Pagos.consumidor msg transactionId azar).
Proof.
  unfold Pagos.consumidor, Pagos.procesarEventoPago, Pagos.procesarPago,
    Pagos.compensarPago, Pagos.enviarRespuesta, Pagos.insert_transaccion,
    Pagos.select_transacciones, Pagos.update_estado_transaccion.
  repeat paso_preserva; try done.
  all: intros w Hw; cbn;
    repeat match goal with
      | |- context [if ?b then _ else _] => destruct b
      end; done.
Qed.

Lemma pedidos_no_toca_respuestas ev q :
  preserva (λ w, pedidos_responses w = q) (Pedidos.processSagaResponse ev).
Proof.
  unfold Pedidos.processSagaResponse, Pedidos.despachar, Pedidos.compensateSaga,
    Pedidos.updatePedidoState, Pedidos.publishSagaEvent, Pedidos.updateSagaState.
  repeat paso_preserva; done.
Qed.

Lemma entregar_acuse {A} (cola : Mundo → list A) (ack : Mundo → Mundo)
    (callback : A → M unit) fs w :
  (∀ msg q, preserva (λ w', cola w' = q) (callback msg)) →
  (∀ w', cola (ack w') = drop 1 (cola w')) →
  acuse cola w (Sistema.entregar cola ack callback fs w).
Proof.
  intros Hc Hf. unfold acuse, Sistema.entregar, resultado, mundo_final.
  destruct (cola w) as [|msg q] eqn:E; cbn; [left; by rewrite E|].
  pose proof (Hc msg (cola w) fs w eq_refl) as H. unfold mundo_final in H.
  destruct (callback msg fs w) as [[[[]|e] w'] fs']; cbn in *.
  - left. split; [done|]. by rewrite Hf, H, E.
  - right. exists e. by rewrite H, E.
Qed.

(** A message is acknowledged only after its handler completed: whichever
    calls reject, a delivery to the inventory, to pagos or to the
    orchestrator either completes and takes exactly the oldest message off
    the queue it consumes, or rejects and leaves that queue as it was, the
    message still at its head. *)
Theorem entrega_acusa_al_completar (transactionId : string) (azar : Q) (fs : Fallas)
    (w : Mundo) :
  acuse saga_events w (Sistema.paso Sistema.EntregaInventario fs w)
  ∧ acuse saga_events w (Sistema.paso (Sistema.EntregaPagos transactionId azar) fs w)
  ∧ acuse pedidos_responses w (Sistema.paso Sistema.EntregaPedidos fs w).
Proof.
  split; [|split]; cbn [Sistema.paso].
  - apply entregar_acuse; [apply inventario_no_toca_saga_events|done].
  - apply (entregar_acuse saga_events Sistema.ack_saga_events
             (λ msg, Pagos.consumidor msg transactionId azar));
      [intros; apply pagos_no_toca_saga_events|done].
  - apply entregar_acuse; [apply pedidos_no_toca_respuestas|done].
Qed.

(** ** More on the sweep *)

Lemma barrido_casos fs w :
  let marcado := con_reservas
                   (map (λ r, if Inventario.vencida (reloj w) r
                              then Inventario.marcar EXPIRADA r else r)) w in
  sat Inventario.barrido fs w (λ r w',
    r = Ok tt
    ∧ (w' = w ∨ w' = marcado ∨ w' = (correr Inventario.barrido w).2)).
Proof.
  cbn zeta. rewrite barrido_sin_fallas. cbn [snd].
  unfold Inventario.barrido, Inventario.update_expirar,
    Inventario.update_devolver_expiradas.
  pasos_sat; auto.
  all: cbn [fst snd] in *.
  all: repeat match goal with
         | H : (0 <? _) = _ |- _ => rewrite H
         end; cbn [andb]; auto.
  all: destruct (forallb _ _); cbn [fst snd]; pasos_sat; auto.
Qed.

Lemma reservas_tras_barrido w :
  reservas_temporales (correr Inventario.barrido w).2
  = map (λ r, if Inventario.vencida (reloj w) r
              then Inventario.marcar EXPIRADA r else r) (reservas_temporales w).
Proof. rewrite barrido_sin_fallas. cbn [snd]. by destruct (_ && _). Qed.

Lemma reloj_tras_barrido w : reloj (correr Inventario.barrido w).2 = reloj w.
Proof. rewrite barrido_sin_fallas. cbn [snd]. by destruct (_ && _). Qed.

Lemma sin_vencidas_tras_marcar ahora (rs : list Reserva) :
  List.filter (Inventario.vencida ahora)
    (map (λ r, if Inventario.vencida ahora r
               then Inventario.marcar EXPIRADA r else r) rs) = [].
Proof.
  induction rs as [|r rs IH]; [done|]. cbn.
  destruct (Inventario.vencida ahora r) eqn:E.
  - unfold Inventario.vencida at 1. cbn. by rewrite andb_false_r.
  - by rewrite E.
Qed.

Lemma marcar_sin_vencidas ahora (rs : list Reserva) :
  List.filter (Inventario.vencida ahora) rs = [] →
  map (λ r, if Inventario.vencida ahora r
            then Inventario.marcar EXPIRADA r else r) rs = rs.
Proof.
  induction rs as [|r rs IH]; [done|]. cbn.
  destruct (Inventario.vencida ahora r); [done|]. intros H. by rewrite IH.
Qed.

(** The sweep never rejects, whichever calls do.  When none does, no
    reservation is left ACTIVA past its expiry, the rows that were not
    ACTIVA or not yet past their expiry (an expiry equal to the clock is not
    past) stay in place untouched, and the table keeps its length. *)
Theorem barrido_expira_vencidas (w : Mundo) :
  (∀ fs, resultado (Inventario.barrido fs w) = Ok tt)
  ∧ let w' := (correr Inventario.barrido w).2 in
    Forall (λ r, res_estado r = ACTIVA → reloj w ≤ res_expira_en r)
      (reservas_temporales w')
    ∧ (∀ (i : nat) r,
         reservas_temporales w !! i = Some r →
         res_estado r ≠ ACTIVA ∨ reloj w ≤ res_expira_en r →
         reservas_temporales w' !! i = Some r)
    ∧ length (reservas_temporales w') = length (reservas_temporales w).
Proof.
  split.
  - intros fs. by destruct (barrido_casos fs w) as [? _].
  - cbn zeta. rewrite reservas_tras_barrido. split; [|split].
    + apply Forall_forall. intros r Hin.
      apply list_elem_of_In, in_map_iff in Hin as (r0 & <- & _).
      destruct (Inventario.vencida (reloj w) r0) eqn:E; cbn; [done|].
      intros Ha. unfold Inventario.vencida in E. rewrite Ha in E.
      rewrite bool_decide_eq_true_2, andb_true_r in E by done.
      by apply Z.ltb_ge in E.
    + intros i r Hi Hno. rewrite list_lookup_fmap, Hi. cbn.
      assert (Inventario.vencida (reloj w) r = false) as ->; [|done].
      unfold Inventario.vencida. destruct Hno as [Hno|Hno].
      * rewrite bool_decide_eq_false_2 by done. apply andb_false_r.
      * apply Z.ltb_ge in Hno. by rewrite Hno.
    + apply length_map.
Qed.

Lemma barrido_expira_vencidas_witness :
  resultado (Inventario.barrido [true] Sistema.mundo_inicial) = Ok tt.
Proof.
  exact (proj1 (barrido_expira_vencidas Sistema.mundo_inicial) [true]).
Defined.

(** A second sweep at the same instant changes nothing: the first one left
    no reservation to expire, so the second skips the statement that gives
    stock back. *)
Theorem barrido_dos_veces (w : Mundo) :
  let w1 := (correr Inventario.barrido w).2 in
  correr Inventario.barrido w1 = (Ok tt, w1).
Proof.
  cbn zeta. rewrite (barrido_sin_fallas (correr Inventario.barrido w).2).
  f_equal.
  pose proof (reloj_tras_barrido w) as Hreloj.
  pose proof (reservas_tras_barrido w) as Hres.
  cbn zeta. rewrite Hreloj, Hres, sin_vencidas_tras_marcar. cbn.
  destruct (correr Inventario.barrido w).2 as [t ps se bi pr rs tr ev rp] eqn:E.
  cbn in *. subst rs.
  unfold con_reservas. cbn. f_equal.
  apply marcar_sin_vencidas, sin_vencidas_tras_marcar.
Qed.

(** ** Release and sweep on the same reservation *)

(** Once the sweep expired the reservations of a saga, a release of that
    saga gives nothing back: when every ACTIVA reservation of the saga is
    past its expiry, the release that follows the sweep returns normally
    and leaves stock and reservations as the sweep left them. *)
Theorem liberar_tras_barrido (sagaId : string) (w : Mundo) :
  Forall (λ r, Inventario.reserva_de sagaId ACTIVA r = true →
               res_expira_en r < reloj w) (reservas_temporales w) →
  let w1 := (correr Inventario.barrido w).2 in
  correr (Inventario.liberarStock sagaId) w1 = (Ok tt, w1).
Proof.
  intros H. cbn zeta. rewrite liberarStock_sin_fallas.
  unfold cabe_liberacion, liberado. rewrite reservas_tras_barrido.
  assert (List.filter (Inventario.reserva_de sagaId ACTIVA)
            (map (λ r, if Inventario.vencida (reloj w) r
                       then Inventario.marcar EXPIRADA r else r)
               (reservas_temporales w)) = []) as ->; [|done].
  induction H as [|r rs Hr _ IH]; [done|]. cbn.
  destruct (Inventario.vencida (reloj w) r) eqn:E.
  - unfold Inventario.reserva_de at 1. cbn. by rewrite andb_false_r.
  - destruct (Inventario.reserva_de sagaId ACTIVA r) eqn:E'; [|exact IH].
    exfalso. specialize (Hr eq_refl).
    unfold Inventario.reserva_de in E'. apply andb_true_iff in E' as [_ Ha].
    unfold Inventario.vencida in E. rewrite Ha, andb_true_r in E.
    apply Z.ltb_ge in E. lia.
Qed.

Lemma liberar_tras_barrido_witness :
  let w := con_reloj (λ t, t + 15 * 60 * 1000)
             (correr (Inventario.reservarStock "s1" (Some 1) (Some 2))
                Sistema.mundo_inicial).2 in
  let w1 := (correr Inventario.barrido w).2 in
  correr (Inventario.liberarStock "s1") w1 = (Ok tt, w1).
Proof.
  apply liberar_tras_barrido. repeat constructor.
Defined.

Lemma vencidas_sin_liberadas ahora (rs : list Reserva) :
  List.filter (Inventario.vencida ahora)
    (List.filter (λ r, negb (bool_decide (res_estado r = LIBERADA))) rs)
  = List.filter (Inventario.vencida ahora) rs.
Proof.
  induction rs as [|r rs IH]; [done|]. cbn.
  destruct (bool_decide (res_estado r = LIBERADA)) eqn:E; cbn.
  - apply bool_decide_eq_true in E.
    assert (Inventario.vencida ahora r = false) as ->; [|exact IH].
    unfold Inventario.vencida. rewrite E.
    rewrite bool_decide_eq_false_2 by done. apply andb_false_r.
  - by rewrite IH.
Qed.

Lemma devuelve_sin_liberadas (ahora id : Z) (rs : list Reserva) :
  List.find (Inventario.devuelve ahora id)
    (map (λ r, if Inventario.vencida ahora r
               then Inventario.marcar EXPIRADA r else r)
       (List.filter (λ r, negb (bool_decide (res_estado r = LIBERADA))) rs))
  = List.find (Inventario.devuelve ahora id)
      (map (λ r, if Inventario.vencida ahora r
                 then Inventario.marcar EXPIRADA r else r) rs).
Proof.
  induction rs as [|r rs IH]; [done|]. cbn.
  destruct (bool_decide (res_estado r = LIBERADA)) eqn:E; cbn.
  - apply bool_decide_eq_true in E.
    assert (Inventario.vencida ahora r = false) as ->.
    { unfold Inventario.vencida. rewrite E.
      rewrite bool_decide_eq_false_2 by done. apply andb_false_r. }
    assert (Inventario.devuelve ahora id r = false) as ->; [|exact IH].
    unfold Inventario.devuelve. rewrite E.
    rewrite bool_decide_eq_false_2 by done. by rewrite andb_false_r.
  - by rewrite IH.
Qed.

Lemma cabe_devolucion_sin_liberadas (ahora : Z) (rs : list Reserva) (fila : Z * Z) :
  Inventario.cabe_devolucion ahora
    (map (λ r, if Inventario.vencida ahora r
               then Inventario.marcar EXPIRADA r else r)
       (List.filter (λ r, negb (bool_decide (res_estado r = LIBERADA))) rs)) fila
  = Inventario.cabe_devolucion ahora
      (map (λ r, if Inventario.vencida ahora r
                 then Inventario.marcar EXPIRADA r else r) rs) fila.
Proof. unfold Inventario.cabe_devolucion. by rewrite devuelve_sin_liberadas. Qed.

Lemma forallb_igual {A} (f g : A → bool) (l : list A) :
  (∀ x, f x = g x) → forallb f l = forallb g l.
Proof. intros H. induction l as [|x l IH]; [done|]. cbn. by rewrite H, IH. Qed.

(** The sweep never gives stock back for a released reservation: the
    stock it leaves is the stock it would leave if the LIBERADA rows were
    not in the table. *)
Theorem barrido_ignora_liberadas (w : Mundo) :
  productos (correr Inventario.barrido w).2
  = productos
      (correr Inventario.barrido
         (con_reservas
            (List.filter (λ r, negb (bool_decide (res_estado r = LIBERADA)))) w)).2.
Proof.
  rewrite !barrido_sin_fallas. cbn [snd].
  destruct w as [t ps se bi pr rs tr ev rp]. cbn.
  rewrite vencidas_sin_liberadas.
  rewrite (forallb_igual _ _ _ (cabe_devolucion_sin_liberadas t rs)).
  destruct (_ && _); cbn; [|done].
  apply map_imap_ext. intros id.
  destruct (pr !! id) as [st|]; [|done]. cbn.
  by rewrite (devuelve_sin_liberadas t id rs).
Qed.




(** ** compensarPago *)

Lemma compensarPago_sin_fallas sagaId w :
  correr (Pagos.compensarPago sagaId) w =
    (Ok tt,
     match List.filter (Pagos.transaccion_de sagaId APROBADA) (transacciones w) with
     | [] => w
     | t :: _ =>
         con_transacciones
           (map (λ t', if (tx_transaction_id t' =? tx_transaction_id t)%string
                       then Pagos.marcar REVERTIDA t' else t')) w
     end).
Proof.
  unfold Pagos.compensarPago, Pagos.select_transacciones,
    Pagos.update_estado_transaccion.
  desplegar. cbn. by destruct (List.filter _ (transacciones w)).
Qed.

Lemma filter_primera {A} (f : A → bool) (l1 l2 : list A) x :
  Forall (λ y, f y = false) l1 → f x = true →
  List.filter f (l1 ++ x :: l2) = x :: List.filter f l2.
Proof.
  intros H Hx. induction H as [|y l1 Hy _ IH]; cbn.
  - by rewrite Hx.
  - by rewrite Hy.
Qed.

Lemma marcar_una (id : string) (l : list Transaccion) :
  Forall (λ t, tx_transaction_id t ≠ id) l →
  map (λ t', if (tx_transaction_id t' =? id)%string
             then Pagos.marcar REVERTIDA t' else t') l = l.
Proof.
  induction 1 as [|t l Ht _ IH]; [done|]. cbn.
  apply String.eqb_neq in Ht. by rewrite Ht, IH.
Qed.

(** Reversal of a payment.  Without an APROBADA transaction for the saga
    the call returns normally and changes nothing.  With transaction ids
    unique (the table's constraint), the call turns the first APROBADA
    transaction of the saga into REVERTIDA and leaves every other row,
    before and after it, untouched; if that was the saga's only APROBADA
    transaction, a second call changes nothing more. *)
Theorem compensarPago_revierte_una (sagaId : string) (w : Mundo) :
  (List.filter (Pagos.transaccion_de sagaId APROBADA) (transacciones w) = [] →
     correr (Pagos.compensarPago sagaId) w = (Ok tt, w))
  ∧ (∀ l1 t l2,
       transacciones w = l1 ++ t :: l2 →
       NoDup (tx_transaction_id <$> transacciones w) →
       Forall (λ t', Pagos.transaccion_de sagaId APROBADA t' = false) l1 →
       Pagos.transaccion_de sagaId APROBADA t = true →
       let w1 := (correr (Pagos.compensarPago sagaId) w).2 in
       transacciones w1 = l1 ++ Pagos.marcar REVERTIDA t :: l2
       ∧ (Forall (λ t', Pagos.transaccion_de sagaId APROBADA t' = false) l2 →
          correr (Pagos.compensarPago sagaId) w1 = (Ok tt, w1))).
Proof.
  split.
  - intros E. rewrite compensarPago_sin_fallas. by rewrite E.
  - intros l1 t l2 Hts Hnd Hl1 Ht. cbn zeta.
    rewrite compensarPago_sin_fallas. cbn [snd].
    rewrite Hts, (filter_primera _ _ _ _ Hl1 Ht).
    rewrite Hts, fmap_app, fmap_cons in Hnd.
    apply NoDup_app in Hnd as (_ & Hd1 & Hnd).
    apply NoDup_cons in Hnd as [Hd2 _].
    assert (H1 : Forall (λ t', tx_transaction_id t' ≠ tx_transaction_id t) l1).
    { apply Forall_forall. intros t' Hin Heq.
      apply (Hd1 (tx_transaction_id t')).
      - apply list_elem_of_fmap. by exists t'.
      - rewrite Heq. by left. }
    assert (H2 : Forall (λ t', tx_transaction_id t' ≠ tx_transaction_id t) l2).
    { apply Forall_forall. intros t' Hin Heq. apply Hd2.
      rewrite <- Heq. apply list_elem_of_fmap. by exists t'. }
    assert (Hw1 : transacciones
                    (con_transacciones
                       (map (λ t', if (tx_transaction_id t' =? tx_transaction_id t)%string
                                   then Pagos.marcar REVERTIDA t' else t')) w)
                  = l1 ++ Pagos.marcar REVERTIDA t :: l2).
    { cbn. rewrite Hts, map_app. cbn.
      by rewrite String.eqb_refl, (marcar_una _ _ H1), (marcar_una _ _ H2). }
    split; [exact Hw1|].
    intros Hl2. rewrite compensarPago_sin_fallas, Hw1.
    assert (List.filter (Pagos.transaccion_de sagaId APROBADA)
              (l1 ++ Pagos.marcar REVERTIDA t :: l2) = []) as ->; [|done].
    rewrite List.filter_app. cbn.
    assert (Pagos.transaccion_de sagaId APROBADA (Pagos.marcar REVERTIDA t) = false)
      as ->.
    { unfold Pagos.transaccion_de. cbn. apply andb_false_r. }
    assert (Hf : ∀ l, Forall (λ t', Pagos.transaccion_de sagaId APROBADA t' = false) l →
                      List.filter (Pagos.transaccion_de sagaId APROBADA) l = []).
    { induction 1 as [|y l Hy _ IH]; [done|]. cbn. by rewrite Hy. }
    by rewrite (Hf _ Hl1), (Hf _ Hl2).
Qed.

Lemma compensarPago_revierte_una_witness :
  let w := (correr (Pagos.procesarPago "s1"
                      (mkPayload (Some 1) (Some 2) (Some "p1") (Some "pse") None None)
                      "t1" (1 # 2)) Sistema.mundo_inicial).2 in
  transacciones (correr (Pagos.compensarPago "s1") w).2
  = [mkTransaccion "t1" "s1" (Some 900000) "pse" REVERTIDA 0].
Proof.
  set (w := (correr (Pagos.procesarPago "s1" _ "t1" (1 # 2)) Sistema.mundo_inicial).2).
  pose proof (compensarPago_revierte_una "s1" w) as [_ H].
  destruct (H [] (mkTransaccion "t1" "s1" (Some 900000) "pse" APROBADA 0) []
              eq_refl) as [H1 _].
  - repeat constructor. set_solver.
  - constructor.
  - reflexivity.
  - exact H1.
Defined.

(** A reversal that fails is answered like a failed payment, which makes the
    orchestrator compensate again: when [compensarPago] rejects while pagos
    handles COMPENSAR_PAGO (and the publish is not rejected), pagos sends
    PAGO_PROCESADO with [success = false]; the orchestrator, whatever the
    state of the saga, then writes COMPENSANDO and CANCELADA again and emits
    a new COMPENSAR_PAGO and a new LIBERAR_INVENTARIO. *)
Theorem compensacion_de_pago_fallida_recompensa (sid : string) (payload : Payload)
    (ts : Z) (transactionId : string) (azar : Q) (fs fs1 : Fallas) (w w1 wo : Mundo)
    (e : string) :
  Pagos.compensarPago sid fs w = (Throw e, w1, fs1) →
  head fs1 ≠ Some true →
  let rsp := mkRespuesta sid "PAGO_PROCESADO" false
               (mkPayload None None None None None (Some e)) (reloj w1) "pagos" in
  Pagos.consumidor (mkMensaje sid "COMPENSAR_PAGO" payload ts) transactionId azar fs w
  = (Ok tt, con_pedidos_responses (λ q, q ++ [rsp]) w1, tail fs1)
  ∧ let wo' := (correr (Pedidos.processSagaResponse rsp) wo).2 in
    bitacora wo' = bitacora wo ++ [(sid, COMPENSANDO); (sid, CANCELADA)]
    ∧ saga_events wo'
      = saga_events wo
        ++ [mkMensaje sid "COMPENSAR_PAGO"
              (Pedidos.payload_razon "PAGO_RECHAZADO") (reloj wo);
            mkMensaje sid "LIBERAR_INVENTARIO"
              (Pedidos.payload_razon "PAGO_RECHAZADO") (reloj wo)].
Proof.
  intros Hl Hf rsp. split.
  - unfold Pagos.consumidor, Pagos.procesarEventoPago, try_catch.
    cbn. rewrite Hl. unfold Pagos.enviarRespuesta, escribe, op.
    destruct fs1 as [|[] fs1]; [done| |done]. by destruct Hf.
  - cbn zeta. subst rsp.
    unfold Pedidos.processSagaResponse, Pedidos.despachar. cbn.
    rewrite (correr_try_catch_ok _ _ _ _ _ (compensateSaga_sin_fallas _ _ _)).
    cbn. by rewrite <- !app_assoc.
Qed.

Lemma compensacion_de_pago_fallida_recompensa_witness :
  let rsp := mkRespuesta "s1" "PAGO_PROCESADO" false
               (mkPayload None None None None None (Some "ECONNREFUSED")) 0 "pagos" in
  bitacora (correr (Pedidos.processSagaResponse rsp) mundo_con_pedido).2
  = bitacora mundo_con_pedido ++ [("s1", COMPENSANDO); ("s1", CANCELADA)].
Proof.
  assert (Hl : Pagos.compensarPago "s1" [true] mundo_con_pedido
               = (Throw "ECONNREFUSED", mundo_con_pedido, []))
    by (vm_compute; reflexivity).
  pose proof (compensacion_de_pago_fallida_recompensa "s1" payload_vacio 0 "t1" (1 # 2)
                [true] [] mundo_con_pedido mundo_con_pedido mundo_con_pedido
                "ECONNREFUSED" Hl ltac:(discriminate)) as [_ [H _]].
  assert (Hr : reloj mundo_con_pedido = 0) by (vm_compute; reflexivity).
  rewrite Hr in H. exact H.
Defined.

(** ** What a participant reports *)

(** Pagos never reports an approval it did not persist.  Whichever calls
    reject while it handles a PROCESAR_PAGO, it queues at most one response,
    a PAGO_PROCESADO of that saga, and when that response says
    [success = true] the call added one transaction of the saga in
    APROBADA. *)
Theorem pago_exitoso_tiene_transaccion (sid : string) (payload : Payload) (ts : Z)
    (transactionId : string) (azar : Q) (fs : Fallas) (w : Mundo) :
  sat (Pagos.consumidor (mkMensaje sid "PROCESAR_PAGO" payload ts) transactionId azar)
    fs w (λ r w',
      ∃ nuevas,
        pedidos_responses w' = pedidos_responses w ++ nuevas
        ∧ (length nuevas ≤ 1)%nat
        ∧ Forall (λ rsp,
             rsp_sagaId rsp = sid ∧ rsp_evento rsp = "PAGO_PROCESADO"
             ∧ (rsp_success rsp = true →
                ∃ t, transacciones w' = transacciones w ++ [t]
                     ∧ tx_saga_id t = sid ∧ tx_estado t = APROBADA)) nuevas).
Proof.
  unfold Pagos.consumidor, Pagos.procesarEventoPago, Pagos.enviarRespuesta.
  cbn [msg_evento msg_sagaId msg_payload String.eqb Ascii.eqb Bool.eqb orb].
  apply sat_try_catch, sat_bind.
  eapply sat_conseq; [apply procesarPago_casos|].
  intros r w1 [[-> ->]|(t & b & -> & -> & Ht & He)].
  - pasos_sat.
    all: first
      [ exists []; rewrite app_nil_r; split; [done|]; split; [cbn; lia|];
        by constructor
      | eexists (cons _ nil); split; [cbn; reflexivity|]; split; [cbn; lia|];
        constructor; [|constructor]; by cbn ].
  - pasos_sat.
    all: first
      [ exists []; rewrite app_nil_r; split; [done|]; split; [cbn; lia|];
        by constructor
      | eexists (cons _ nil); split; [cbn; reflexivity|]; split; [cbn; lia|];
        constructor; [|constructor]; cbn; split; [done|]; split; [done|] ].
    all: try done.
    intros ->. by exists t.
Qed.

Lemma pago_exitoso_tiene_transaccion_witness :
  let pago :=
    mkMensaje "s1" "PROCESAR_PAGO"
      (mkPayload (Some 1) (Some 2) (Some "p1") (Some "pse") None None) 0 in
  let w' := mundo_final (Pagos.consumidor pago "t1" (1 # 2) [] Sistema.mundo_inicial) in
  ∃ t, transacciones w' = transacciones Sistema.mundo_inicial ++ [t]
       ∧ tx_saga_id t = "s1" ∧ tx_estado t = APROBADA.
Proof.
  cbn zeta.
  destruct (pago_exitoso_tiene_transaccion "s1"
              (mkPayload (Some 1) (Some 2) (Some "p1") (Some "pse") None None)
              0 "t1" (1 # 2) [] Sistema.mundo_inicial) as (nuevas & Hq & _ & HF).
  vm_compute in Hq. subst nuevas.
  inversion HF as [|rsp l [_ [_ H]] _]. exact (H eq_refl).
Defined.

(** The inventory never reports a reservation it does not hold.  Whichever
    calls reject while it handles a RESERVAR_INVENTARIO, it queues at most
    one response, an INVENTARIO_RESERVADO of that saga, and when that
    response says [success = true] the reservation was committed: the stock
    of the product was at least the quantity and is lowered by it, and the
    saga has its ACTIVA row. *)
Theorem reserva_exitosa_tiene_reserva (sid : string) (payload : Payload) (ts : Z)
    (fs : Fallas) (w : Mundo) :
  sat (Inventario.consumidor (mkMensaje sid "RESERVAR_INVENTARIO" payload ts)) fs w
    (λ r w',
      ∃ nuevas,
        pedidos_responses w' = pedidos_responses w ++ nuevas
        ∧ (length nuevas ≤ 1)%nat
        ∧ Forall (λ rsp,
             rsp_sagaId rsp = sid ∧ rsp_evento rsp = "INVENTARIO_RESERVADO"
             ∧ (rsp_success rsp = true →
                ∃ id c stock,
                  productoId payload = Some id ∧ cantidad payload = Some c
                  ∧ productos w !! id = Some stock ∧ c ≤ stock
                  ∧ productos w' !! id = Some (stock - c)
                  ∧ reservas_temporales w'
                    = reservas_temporales w
                      ++ [mkReserva sid id c (reloj w + 10 * 60 * 1000) ACTIVA]))
             nuevas).
Proof.
  unfold Inventario.consumidor, Inventario.procesarEventoInventario,
    Inventario.enviarRespuesta.
  cbn [msg_evento msg_sagaId msg_payload String.eqb Ascii.eqb Bool.eqb orb].
  apply sat_try_catch, sat_bind.
  eapply sat_conseq; [apply reservarStock_casos|].
  intros r w1 [[Hr ->]|(id & c & stock & Hp & Hc & Hs & Hle & _ & _ & _ & -> & ->)].
  - destruct r as [[]|e]; [done| |]; pasos_sat.
    all: first
      [ exists []; rewrite app_nil_r; split; [done|]; split; [cbn; lia|];
        by constructor
      | eexists (cons _ nil); split; [cbn; reflexivity|]; split; [cbn; lia|];
        constructor; [|constructor]; by cbn ].
  - pasos_sat.
    all: first
      [ exists []; rewrite app_nil_r; split; [done|]; split; [cbn; lia|];
        by constructor
      | eexists (cons _ nil); split; [cbn; reflexivity|]; split; [cbn; lia|];
        constructor; [|constructor]; cbn; split; [done|]; split; [done|] ].
    all: try done.
    intros _. exists id, c, stock. repeat split; try done.
    destruct w; cbn in *. by rewrite lookup_alter_eq, Hs.
Qed.

Lemma reserva_exitosa_tiene_reserva_witness :
  let reserva :=
    mkMensaje "s1" "RESERVAR_INVENTARIO"
      (mkPayload (Some 1) (Some 2) (Some "p1") (Some "pse") None None) 0 in
  let w' := mundo_final (Inventario.consumidor reserva [] Sistema.mundo_inicial) in
  ∃ id c stock,
    Some 1 = Some id ∧ Some 2 = Some c
    ∧ productos Sistema.mundo_inicial !! id = Some stock ∧ c ≤ stock
    ∧ productos w' !! id = Some (stock - c)
    ∧ reservas_temporales w'
      = reservas_temporales Sistema.mundo_inicial
        ++ [mkReserva "s1" id c (reloj Sistema.mundo_inicial + 10 * 60 * 1000) ACTIVA].
Proof.
  cbn zeta.
  destruct (reserva_exitosa_tiene_reserva "s1"
              (mkPayload (Some 1) (Some 2) (Some "p1") (Some "pse") None None)
              0 [] Sistema.mundo_inicial) as (nuevas & Hq & _ & HF).
  vm_compute in Hq. subst nuevas.
  inversion HF as [|rsp l [_ [_ H]] _]. exact (H eq_refl).
Defined.

(** ** No negative stock *)

Lemma no_negativas_reservarStock sid pid cant :
  (∀ c, cant = Some c → 0 ≤ c) →
  preserva cantidades_no_negativas (Inventario.reservarStock sid pid cant).
Proof.
  intros Hc fs w (Hp & Hr & Hq).
  pose proof (reservarStock_casos sid pid cant w fs) as H. unfold sat in H.
  destruct H as [[_ ->]|(id & c & st & -> & -> & Hs & Hle & _ & _ & _ & _ & ->)];
    [done|].
  split; [|split; [|exact Hq]].
  - intros j s. destruct w; cbn in *.
    destruct (decide (id = j)) as [<-|Hne].
    + rewrite lookup_alter_eq, Hs. cbn. intros [= <-]. lia.
    + rewrite lookup_alter_ne by done. apply Hp.
  - destruct w; cbn in *. apply Forall_app. split; [exact Hr|].
    constructor; [|constructor]. cbn. by apply Hc.
Qed.

Lemma no_negativas_liberarStock sid :
  preserva cantidades_no_negativas (Inventario.liberarStock sid).
Proof.
  intros fs w (Hp & Hr & Hq).
  pose proof (liberarStock_casos sid w fs) as H. unfold sat in H.
  destruct H as [(e & _ & ->)|(_ & -> & _)]; [done|].
  unfold liberado.
  destruct (List.filter _ (reservas_temporales w)) as [|r l] eqn:E; [done|].
  assert (Hq0 : 0 ≤ res_cantidad_reservada r).
  { rewrite Forall_forall in Hr. apply Hr, list_elem_of_In.
    assert (Hin : In r (List.filter (Inventario.reserva_de sid ACTIVA)
                          (reservas_temporales w))) by (rewrite E; by left).
    by apply filter_In in Hin as [? _]. }
  split; [|split; [|exact Hq]].
  - intros j s. destruct w; cbn in *.
    destruct (decide (res_producto_id r = j)) as [<-|Hne].
    + rewrite lookup_alter_eq.
      destruct (productos0 !! res_producto_id r) as [s0|] eqn:Es; [|done].
      cbn. intros [= <-]. specialize (Hp _ _ Es). lia.
    + rewrite lookup_alter_ne by done. apply Hp.
  - destruct w; cbn in *. clear E.
    induction Hr as [|r' rs Hr' _ IH]; cbn; constructor; [|exact IH].
    by destruct (res_saga_id r' =? sid)%string.
Qed.

Lemma no_negativas_barrido : preserva cantidades_no_negativas Inventario.barrido.
Proof.
  intros fs w (Hp & Hr & Hq).
  assert (Hm : Forall (λ r, 0 ≤ res_cantidad_reservada r)
                 (map (λ r, if Inventario.vencida (reloj w) r
                            then Inventario.marcar EXPIRADA r else r)
                    (reservas_temporales w))).
  { induction Hr as [|r' rs Hr' _ IH]; cbn; constructor; [|exact IH].
    by destruct (Inventario.vencida (reloj w) r'). }
  pose proof (barrido_casos fs w) as Hb. cbn zeta in Hb. unfold sat in Hb.
  destruct Hb as [_ [-> | [-> | ->]]]; [done|by split| ].
  rewrite barrido_sin_fallas. cbn [snd].
  destruct (_ && _); [|by split].
  split; [|by split].
  intros j s. destruct w; cbn in *. rewrite map_lookup_imap.
  destruct (productos0 !! j) as [s0|] eqn:Es; [|done]. cbn.
  specialize (Hp _ _ Es).
  destruct (List.find _ _) as [rt|] eqn:Ef; intros [= <-]; [|done].
  apply find_some in Ef as [Hin _].
  rewrite Forall_forall in Hm. specialize (Hm rt). 
  assert (0 ≤ res_cantidad_reservada rt) by by apply Hm, list_elem_of_In.
  lia.
Qed.

Lemma no_negativas_respuesta w r :
  cantidades_no_negativas w →
  cantidades_no_negativas (con_pedidos_responses (λ q, q ++ [r]) w).
Proof. done. Qed.

Lemma no_negativas_comando w m :
  msg_evento m ≠ "RESERVAR_INVENTARIO" →
  cantidades_no_negativas w →
  cantidades_no_negativas (con_saga_events (λ q, q ++ [m]) w).
Proof.
  intros Hm (Hp & Hr & Hq). split; [exact Hp|]. split; [exact Hr|]. cbn.
  apply Forall_app. split; [exact Hq|]. constructor; [|constructor]. done.
Qed.

Lemma no_negativas_inventario msg :
  (msg_evento msg = "RESERVAR_INVENTARIO" →
   ∀ c, cantidad (msg_payload msg) = Some c → 0 ≤ c) →
  preserva cantidades_no_negativas (Inventario.consumidor msg).
Proof.
  intros Hmsg. unfold Inventario.consumidor, Inventario.procesarEventoInventario,
    Inventario.enviarRespuesta.
  destruct (msg_evento msg =? "RESERVAR_INVENTARIO")%string eqn:E;
    destruct (msg_evento msg =? "LIBERAR_INVENTARIO")%string eqn:E2;
    cbn [orb]; try apply preserva_mret.
  all: apply preserva_try_catch; [|intros; by apply preserva_escribe].
  1,2: apply String.eqb_eq in E; apply preserva_bind;
    [apply no_negativas_reservarStock; by apply Hmsg
    |intros; by apply preserva_escribe].
  apply no_negativas_liberarStock.
Qed.

Lemma no_negativas_pagos msg transactionId azar :
  preserva cantidades_no_negativas (Pagos.consumidor msg transactionId azar).
Proof.
  unfold Pagos.consumidor, Pagos.procesarEventoPago, Pagos.procesarPago,
    Pagos.compensarPago, Pagos.enviarRespuesta, Pagos.insert_transaccion,
    Pagos.select_transacciones, Pagos.update_estado_transaccion.
  repeat paso_preserva; try done.
  all: intros w Hw; cbn;
    repeat match goal with
      | |- context [if ?b then _ else _] => destruct b
      end; done.
Qed.

Lemma no_negativas_pedidos ev :
  preserva cantidades_no_negativas (Pedidos.processSagaResponse ev).
Proof.
  unfold Pedidos.processSagaResponse, Pedidos.despachar, Pedidos.compensateSaga,
    Pedidos.updatePedidoState, Pedidos.publishSagaEvent, Pedidos.updateSagaState.
  repeat paso_preserva; try done.
  all: intros w Hw; by apply no_negativas_comando.
Qed.

Lemma no_negativas_post_pedidos user body sagaId pedidoId :
  (∀ c, Pedidos.body_cantidad body = Some c → 0 ≤ c) →
  preserva cantidades_no_negativas (Pedidos.post_pedidos user body sagaId pedidoId).
Proof.
  intros Hc. unfold Pedidos.post_pedidos, Pedidos.insert_pedido,
    Pedidos.publishSagaEvent, Pedidos.updateSagaState.
  repeat paso_preserva; try done.
  - intros w Hw.
    destruct (Pedidos.usr_usuarioId user), (Pedidos.body_productoId body),
      (Pedidos.body_cantidad body); try done.
    by destruct (_ && _).
  - intros w (Hp & Hr & Hq). split; [exact Hp|]. split; [exact Hr|]. cbn.
    apply Forall_app. split; [exact Hq|]. constructor; [|constructor].
    cbn. intros _. exact Hc.
Qed.

Lemma no_negativas_paso p :
  paso_no_negativo p → preserva cantidades_no_negativas (Sistema.paso p).
Proof.
  destruct p as [user body sagaId pedidoId| |transactionId azar| | |d]; cbn;
    intros Hpaso.
  - apply preserva_bind; [by apply no_negativas_post_pedidos|].
    intros ?. apply preserva_mret.
  - intros fs w Hw. unfold Sistema.entregar.
    destruct (saga_events w) as [|msg q] eqn:E; [done|].
    assert (Hmsg : msg_evento msg = "RESERVAR_INVENTARIO" →
                   ∀ c, cantidad (msg_payload msg) = Some c → 0 ≤ c).
    { destruct Hw as (_ & _ & Hq). rewrite E in Hq. by inversion Hq. }
    pose proof (no_negativas_inventario msg Hmsg fs w Hw) as H.
    unfold mundo_final in *.
    destruct (Inventario.consumidor msg fs w) as [[[[]|e] w'] fs']; [|done].
    cbn in *. destruct H as (Hp & Hr & Hq). split; [exact Hp|]. split; [exact Hr|].
    cbn. destruct (saga_events w'); [done|]. by inversion Hq.
  - intros fs w Hw. unfold Sistema.entregar.
    destruct (saga_events w) as [|msg q]; [done|].
    pose proof (no_negativas_pagos msg transactionId azar fs w Hw) as H.
    unfold mundo_final in *.
    destruct (Pagos.consumidor msg transactionId azar fs w) as [[[[]|e] w'] fs'];
      [|done].
    cbn in *. destruct H as (Hp & Hr & Hq). split; [exact Hp|]. split; [exact Hr|].
    cbn. destruct (saga_events w'); [done|]. by inversion Hq.
  - intros fs w Hw. unfold Sistema.entregar.
    destruct (pedidos_responses w) as [|ev q]; [done|].
    pose proof (no_negativas_pedidos ev fs w Hw) as H.
    unfold mundo_final in *.
    by destruct (Pedidos.processSagaResponse ev fs w) as [[[[]|e] w'] fs'].
  - apply no_negativas_barrido.
  - by intros fs w Hw.
Qed.

(** No run in which no order asks for a negative quantity drives a stock
    below zero: whatever the clients post, whichever consumer receives each
    command, whatever the payment draws, whenever the sweep fires and
    whichever calls reject, every available stock stays at zero or above. *)
Theorem stock_nunca_negativo (ps : list Sistema.Paso) (fs : Fallas) (id s : Z) :
  Forall paso_no_negativo ps →
  productos (mundo_final (Sistema.ejecutar ps fs Sistema.mundo_inicial)) !! id = Some s →
  0 ≤ s.
Proof.
  intros Hps.
  assert (H : preserva cantidades_no_negativas (Sistema.ejecutar ps)).
  { induction Hps as [|p ps Hp _ IH]; cbn.
    - apply preserva_mret.
    - apply preserva_bind; [|intros ?; exact IH].
      apply preserva_try_catch; [by apply no_negativas_paso|].
      intros ?. apply preserva_mret. }
  assert (H0 : cantidades_no_negativas Sistema.mundo_inicial).
  { split; [|split; constructor].
    intros j s0 Hj. unfold Sistema.mundo_inicial in Hj. cbn in Hj.
    repeat (apply lookup_insert_Some in Hj as [[_ <-]|[_ Hj]]; [lia|]).
    done. }
  destruct (H fs _ H0) as [Hp _]. apply Hp.
Qed.

(** An order for two units of product 1 and its delivery to the
    inventory. *)
Lemma stock_nunca_negativo_witness :
  let ps :=
    [Sistema.PostPedidos (Pedidos.mkUsuario None (Some 1) "admin@tuso.com" "admin")
       (Pedidos.mkSolicitud (Some 1) (Some 2) (Some "pse")) "s1" "p1";
     Sistema.EntregaInventario] in
  productos (mundo_final (Sistema.ejecutar ps [] Sistema.mundo_inicial)) !! 1 = Some 8
  ∧ 0 ≤ 8.
Proof.
  cbn zeta.
  assert (H : productos
                (mundo_final
                   (Sistema.ejecutar
                      [Sistema.PostPedidos
                         (Pedidos.mkUsuario None (Some 1) "admin@tuso.com" "admin")
                         (Pedidos.mkSolicitud (Some 1) (Some 2) (Some "pse")) "s1" "p1";
                       Sistema.EntregaInventario] [] Sistema.mundo_inicial)) !! 1
              = Some 8) by (vm_compute; reflexivity).
  split; [exact H|].
  refine (stock_nunca_negativo _ [] 1 8 _ H).
  constructor; [|constructor; [exact I|constructor]].
  cbn. intros c [= <-]. lia.
Defined.

(** The restriction to orders without a negative quantity is needed:
    nothing refuses an order for a negative quantity.  Saga "s1" reserves
    -5 units of product 1 (stock 10 becomes 15), saga "s2" reserves the 15;
    the payment of "s1" is rejected and its release adds -5 to the stock,
    which ends at -5. *)
Example stock_negativo_con_cantidad_negativa :
  let user := Pedidos.mkUsuario None (Some 1) "admin@tuso.com" "admin" in
  let ps :=
    [Sistema.PostPedidos user (Pedidos.mkSolicitud (Some 1) (Some (-5)) (Some "pse"))
       "s1" "p1";
     Sistema.EntregaInventario;
     Sistema.PostPedidos user (Pedidos.mkSolicitud (Some 1) (Some 15) (Some "pse"))
       "s2" "p2";
     Sistema.EntregaInventario;
     Sistema.EntregaPedidos; Sistema.EntregaPedidos;
     Sistema.EntregaPagos "t1" 0; Sistema.EntregaPagos "t2" (1 # 2);
     Sistema.EntregaPedidos; Sistema.EntregaPedidos;
     Sistema.EntregaPagos "t3" 0; Sistema.EntregaInventario] in
  productos (mundo_final (Sistema.ejecutar ps [] Sistema.mundo_inicial)) !! 1
  = Some (-5).
Proof. vm_compute. done. Qed.

(** ** A whole saga that is compensated *)

Lemma sin_reservas_de_saga sid e (rs : list Reserva) :
  Forall (λ r, res_saga_id r ≠ sid) rs →
  List.filter (Inventario.reserva_de sid e) rs = [].
Proof.
  induction 1 as [|r rs Hr _ IH]; [done|]. cbn.
  unfold Inventario.reserva_de at 1. apply String.eqb_neq in Hr. by rewrite Hr.
Qed.

Lemma sin_transacciones_de_saga sid e (ts : list Transaccion) :
  Forall (λ t, tx_saga_id t ≠ sid) ts →
  List.filter (Pagos.transaccion_de sid e) ts = [].
Proof.
  induction 1 as [|t ts Ht _ IH]; [done|]. cbn.
  unfold Pagos.transaccion_de at 1. apply String.eqb_neq in Ht. by rewrite Ht.
Qed.

Lemma marcar_otras_sagas sid e (rs : list Reserva) :
  Forall (λ r, res_saga_id r ≠ sid) rs →
  map (λ r, if (res_saga_id r =? sid)%string then Inventario.marcar e r else r) rs = rs.
Proof.
  induction 1 as [|r rs Hr _ IH]; [done|]. cbn.
  apply String.eqb_neq in Hr. by rewrite Hr, IH.
Qed.

Lemma alter_ida_y_vuelta (c p : Z) (pr : gmap Z Z) :
  alter (λ s, s + c) p (alter (λ s, s - c) p pr) = pr.
Proof.
  apply map_eq. intros j. destruct (decide (p = j)) as [<-|Hne].
  - rewrite !lookup_alter_eq. destruct (pr !! p); cbn; [f_equal; lia|done].
  - by rewrite !lookup_alter_ne.
Qed.

Lemma rechazada_no_aprobada tx sid m me r :
  Pagos.transaccion_de sid APROBADA (mkTransaccion tx sid m me RECHAZADA r) = false.
Proof. unfold Pagos.transaccion_de. cbn. apply andb_false_r. Qed.

Lemma reserva_nueva_activa sid p c e :
  Inventario.reserva_de sid ACTIVA (mkReserva sid p c e ACTIVA) = true.
Proof. unfold Inventario.reserva_de. cbn. by rewrite String.eqb_refl. Qed.

Lemma escritos_al_final sid (bi : list (string * SagaState)) (l : list SagaState) :
  (List.filter (λ x : string * SagaState, (x.1 =? sid)%string)
     (bi ++ map (pair sid) l)).*2
  = (List.filter (λ x : string * SagaState, (x.1 =? sid)%string) bi).*2 ++ l.
Proof.
  rewrite List.filter_app, fmap_app, escritos_de_saga. by rewrite String.eqb_refl.
Qed.

(** A step that completes hands its store and the rest of the schedule to
    the steps that follow. *)
Lemma ejecutar_paso p ps fs w w' fs' :
  Sistema.paso p fs w = (Ok tt, w', fs') →
  Sistema.ejecutar (p :: ps) fs w = Sistema.ejecutar ps fs' w'.
Proof.
  intros H. cbn [Sistema.ejecutar]. unfold mbind, M_bind, bind, try_catch.
  by rewrite H.
Qed.

Lemma entregar_ok {A} (cola : Mundo → list A) ack (callback : A → M unit)
    fs w msg q w' fs' :
  cola w = msg :: q →
  callback msg fs w = (Ok tt, w', fs') →
  Sistema.entregar cola ack callback fs w = (Ok tt, ack w', fs').
Proof. intros Hc Hm. unfold Sistema.entregar. by rewrite Hc, Hm. Qed.

Lemma paso_post_pedidos uid u email role p c metodo sid pid w :
  es_integer u = true → es_integer p = true → es_integer c = true →
  Sistema.paso
    (Sistema.PostPedidos (Pedidos.mkUsuario uid (Some u) email role)
       (Pedidos.mkSolicitud (Some p) (Some c) metodo) sid pid) [] w
  = (Ok tt,
     con_saga_events
       (λ q, q ++ [mkMensaje sid "RESERVAR_INVENTARIO"
                     (mkPayload (Some p) (Some c) (Some pid) metodo None None)
                     (reloj w)])
       (con_saga_estados (λ l, l ++ [mkSagaPaso sid "CREAR_PEDIDO" "COMPLETADO"])
          (con_bitacora (λ b, b ++ [(sid, INICIADA)])
             (con_pedidos (λ ps, ps ++ [mkPedido pid sid u p c INICIADA]) w))),
     []).
Proof.
  intros Hu Hp Hc. cbn [Sistema.paso].
  unfold Pedidos.post_pedidos, Pedidos.insert_pedido. desplegar.
  cbn [Pedidos.usr_usuarioId Pedidos.body_productoId Pedidos.body_cantidad
       Pedidos.body_metodoPago].
  by rewrite Hu, Hp, Hc.
Qed.

Lemma consumidor_reservar sid p c s metodo pid ts w :
  productos w !! p = Some s →
  es_integer p = true →
  (s <? c) = true ∨ es_integer c && es_integer (s - c) = true →
  Inventario.consumidor
    (mkMensaje sid "RESERVAR_INVENTARIO"
       (mkPayload (Some p) (Some c) pid metodo None None) ts) [] w
  = (Ok tt,
     con_pedidos_responses
       (λ q, q ++ [mkRespuesta sid "INVENTARIO_RESERVADO" (negb (s <? c))
                     (mkPayload (Some p) (Some c) pid metodo None None)
                     (reloj w) "inventario"])
       (if s <? c then w else reservado sid p c w),
     []).
Proof.
  intros Hs Hp Hc. unfold Inventario.consumidor, Inventario.procesarEventoInventario,
    Inventario.reservarStock, Inventario.select_stock, Inventario.update_restar_stock,
    Inventario.insert_reserva, Inventario.enviarRespuesta.
  desplegar. cbn. rewrite Hp, Hs. cbn.
  destruct (s <? c) eqn:E; cbn.
  - by rewrite restaurar_mismo.
  - destruct Hc as [Hc|Hc]; [done|]. apply andb_true_iff in Hc as [Hc1 Hc2].
    rewrite Hc1. cbn. rewrite Hs, Hc2. cbn. rewrite lookup_alter_eq, Hs. done.
Qed.

Lemma consumidor_liberar sid payload ts w :
  cabe_liberacion sid w = true →
  Inventario.consumidor (mkMensaje sid "LIBERAR_INVENTARIO" payload ts) [] w
  = (Ok tt, liberado sid w, []).
Proof.
  unfold Inventario.consumidor, Inventario.procesarEventoInventario,
    Inventario.liberarStock, Inventario.select_reservas,
    Inventario.update_sumar_stock, Inventario.update_estado_reservas, liberado,
    cabe_liberacion.
  desplegar. cbn. destruct (List.filter _ (reservas_temporales w)); [done|].
  by intros ->.
Qed.

Lemma consumidor_procesar_pago sid payload ts tx azar metodo w :
  metodoPago payload = Some metodo →
  Pagos.includes Pagos.metodosValidos (Some metodo) = true →
  es_decimal_10_2
    (Pagos.montoTotal (Pagos.obtenerPrecioProducto (productoId payload))
       (cantidad payload)) = true →
  Pagos.consumidor (mkMensaje sid "PROCESAR_PAGO" payload ts) tx azar [] w
  = (Ok tt,
     con_pedidos_responses
       (λ q, q ++ [mkRespuesta sid "PAGO_PROCESADO" (negb (Qle_bool azar (1 # 10)))
                     payload (reloj w) "pagos"])
       (con_transacciones
          (λ l, l ++ [mkTransaccion tx sid
                        (Pagos.montoTotal (Pagos.obtenerPrecioProducto (productoId payload))
                           (cantidad payload))
                        metodo
                        (if negb (Qle_bool azar (1 # 10)) then APROBADA else RECHAZADA)
                        (reloj w)]) w),
     []).
Proof.
  intros Hp Hm Hd. unfold Pagos.consumidor, Pagos.procesarEventoPago,
    Pagos.procesarPago, Pagos.insert_transaccion, Pagos.enviarRespuesta.
  desplegar. cbn [msg_evento msg_payload msg_sagaId String.eqb Ascii.eqb Bool.eqb orb].
  rewrite Hp, Hm. cbn. rewrite Hd. done.
Qed.

Lemma consumidor_compensar_pago sid payload ts tx azar w :
  List.filter (Pagos.transaccion_de sid APROBADA) (transacciones w) = [] →
  Pagos.consumidor (mkMensaje sid "COMPENSAR_PAGO" payload ts) tx azar [] w
  = (Ok tt, w, []).
Proof.
  intros Hf. unfold Pagos.consumidor, Pagos.procesarEventoPago, Pagos.compensarPago,
    Pagos.select_transacciones.
  desplegar. cbn. by rewrite Hf.
Qed.

Lemma processSagaResponse_inventario_ok sid payload ts servicio w :
  Pedidos.processSagaResponse
    (mkRespuesta sid "INVENTARIO_RESERVADO" true payload ts servicio) [] w
  = (Ok tt,
     con_saga_events (λ q, q ++ [mkMensaje sid "PROCESAR_PAGO" payload (reloj w)])
       (con_bitacora (λ b, b ++ [(sid, INVENTARIO_RESERVADO)])
          (con_pedidos
             (map (λ p, if (ped_saga_id p =? sid)%string
                        then Pedidos.poner_estado INVENTARIO_RESERVADO p else p))
             (con_saga_estados
                (λ l, l ++ [mkSagaPaso sid "RESERVAR_INVENTARIO" "COMPLETADO"]) w))),
     []).
Proof. reflexivity. Qed.

Lemma processSagaResponse_fallo sid evento payload ts servicio w :
  evento = "INVENTARIO_RESERVADO" ∨ evento = "PAGO_PROCESADO" →
  Pedidos.processSagaResponse (mkRespuesta sid evento false payload ts servicio) [] w
  = Pedidos.compensateSaga sid
      (if (evento =? "INVENTARIO_RESERVADO")%string
       then "INVENTARIO_NO_DISPONIBLE" else "PAGO_RECHAZADO") [] w.
Proof. intros [-> | ->]; reflexivity. Qed.

Lemma compensateSaga_completo sid razon w :
  Pedidos.compensateSaga sid razon [] w
  = (Ok tt, (correr (Pedidos.compensateSaga sid razon) w).2, []).
Proof. reflexivity. Qed.


(** Bring a store written as updates of another back to a record. *)
Ltac simpl_mundo :=
  unfold Sistema.ack_saga_events, Sistema.ack_pedidos_responses, reservado;
  unfold con_reloj, con_pedidos, con_saga_estados, con_bitacora, con_productos,
    con_reservas, con_transacciones, con_saga_events, con_pedidos_responses;
  cbn [reloj pedidos saga_estados bitacora productos reservas_temporales
       transacciones saga_events pedidos_responses
       productoId cantidad pedidoId metodoPago Pagos.montoTotal
       mbind option_bind snd fst negb app drop].

(** A saga whose payment is rejected gives its stock back.  On a store with
    empty queues, a product with enough stock and a saga id new to
    inventory and payments, with a user id, a product id, a quantity, a
    stock and a remaining stock that are values of their INTEGER columns
    and an amount that fits its DECIMAL(10,2) column: the order is posted,
    reserved, its payment is rejected by the draw, the orchestrator
    compensates, pagos finds nothing to reverse and the inventory releases.
    At the end the stock of every product is what it was, the reservation
    of the saga is LIBERADA, its transaction is RECHAZADA with the amount
    price × quantity, the statuses written are INICIADA,
    INVENTARIO_RESERVADO, COMPENSANDO, CANCELADA, the order is CANCELADA and
    both queues are empty. *)
Theorem saga_con_pago_rechazado (u p c s : Z) (uid : option Z)
    (email role metodo sid pid tx tx' : string) (azar azar' : Q) (w : Mundo) :
  Pagos.includes Pagos.metodosValidos (Some metodo) = true →
  productos w !! p = Some s → c ≤ s →
  es_integer u = true → es_integer p = true → es_integer c = true →
  es_integer s = true → es_integer (s - c) = true →
  es_decimal_10_2 (Some (Pagos.obtenerPrecioProducto (Some p) * c)) = true →
  saga_events w = [] → pedidos_responses w = [] →
  Forall (λ r, res_saga_id r ≠ sid) (reservas_temporales w) →
  Forall (λ t, tx_saga_id t ≠ sid) (transacciones w) →
  Qle_bool azar (1 # 10) = true →
  let w' :=
    mundo_final
      (Sistema.ejecutar
         [Sistema.PostPedidos (Pedidos.mkUsuario uid (Some u) email role)
            (Pedidos.mkSolicitud (Some p) (Some c) (Some metodo)) sid pid;
          Sistema.EntregaInventario; Sistema.EntregaPedidos;
          Sistema.EntregaPagos tx azar; Sistema.EntregaPedidos;
          Sistema.EntregaPagos tx' azar'; Sistema.EntregaInventario] [] w) in
  productos w' = productos w
  ∧ reservas_temporales w'
    = reservas_temporales w ++ [mkReserva sid p c (reloj w + 10 * 60 * 1000) LIBERADA]
  ∧ transacciones w'
    = transacciones w
      ++ [mkTransaccion tx sid (Some (Pagos.obtenerPrecioProducto (Some p) * c)) metodo
            RECHAZADA (reloj w)]
  ∧ Sistema.estados_escritos sid w'
    = Sistema.estados_escritos sid w
      ++ [INICIADA; INVENTARIO_RESERVADO; COMPENSANDO; CANCELADA]
  ∧ In (mkPedido pid sid u p c CANCELADA) (pedidos w')
  ∧ saga_events w' = [] ∧ pedidos_responses w' = [].
Proof.
  intros Hm Hs Hle Hiu Hip Hic His Hir Hd Hq1 Hq2 Hr Ht Ha. cbn zeta.
  apply Z.ltb_ge in Hle.
  match goal with
  | |- context [Sistema.ejecutar ?ps [] w] =>
      eassert (Hfin : Sistema.ejecutar ps [] w = _)
  end.
  { erewrite ejecutar_paso; [|by apply paso_post_pedidos].
    simpl_mundo. rewrite Hq1. simpl_mundo.
    erewrite ejecutar_paso;
      [|cbn [Sistema.paso]; eapply entregar_ok;
        [reflexivity
        |apply (consumidor_reservar _ _ _ s);
         [exact Hs|exact Hip|right; by rewrite Hic, Hir]]].
    rewrite Hle. simpl_mundo. rewrite Hq2. simpl_mundo.
    erewrite ejecutar_paso;
      [|cbn [Sistema.paso]; eapply entregar_ok;
        [reflexivity|apply processSagaResponse_inventario_ok]].
    simpl_mundo.
    erewrite ejecutar_paso;
      [|cbn [Sistema.paso]; eapply entregar_ok;
        [reflexivity
        |apply (consumidor_procesar_pago _ _ _ _ _ metodo);
         [reflexivity|exact Hm|exact Hd]]].
    rewrite Ha. simpl_mundo.
    erewrite ejecutar_paso;
      [|cbn [Sistema.paso]; eapply entregar_ok;
        [reflexivity
        |rewrite processSagaResponse_fallo by (by right);
         apply compensateSaga_completo]].
    rewrite compensateSaga_sin_fallas. cbn [String.eqb Ascii.eqb Bool.eqb].
    simpl_mundo.
    erewrite ejecutar_paso;
      [|cbn [Sistema.paso]; eapply entregar_ok;
        [reflexivity
        |apply consumidor_compensar_pago; simpl_mundo;
         rewrite List.filter_app, (sin_transacciones_de_saga _ _ _ Ht);
         cbn [List.filter app]; by rewrite rechazada_no_aprobada]].
    simpl_mundo.
    erewrite ejecutar_paso;
      [|cbn [Sistema.paso]; eapply entregar_ok;
        [reflexivity
        |apply consumidor_liberar; unfold cabe_liberacion; simpl_mundo;
         rewrite List.filter_app, (sin_reservas_de_saga _ _ _ Hr);
         cbn [List.filter app]; rewrite reserva_nueva_activa;
         cbn [res_cantidad_reservada res_producto_id];
         rewrite lookup_alter_eq, Hs; cbn [fmap option_fmap option_map
                                            Inventario.cabe_suma];
         by replace (s - c + c) with s by lia]].
    unfold liberado. simpl_mundo.
    rewrite List.filter_app, (sin_reservas_de_saga _ _ _ Hr).
    cbn [List.filter app]. rewrite reserva_nueva_activa.
    simpl_mundo. cbn [res_cantidad_reservada res_producto_id].
    rewrite alter_ida_y_vuelta, (map_app _ (reservas_temporales w)),
      (marcar_otras_sagas _ _ _ Hr).
    cbn [map res_saga_id]. rewrite String.eqb_refl.
    cbn [Sistema.ejecutar]. reflexivity. }
  rewrite Hfin. unfold mundo_final. simpl_mundo.
  split; [reflexivity|]. split; [reflexivity|]. split; [reflexivity|].
  split; [|split; [|split; reflexivity]].
  - unfold Sistema.estados_escritos. simpl_mundo. rewrite <- !app_assoc.
    apply (escritos_al_final sid (bitacora w)
             [INICIADA; INVENTARIO_RESERVADO; COMPENSANDO; CANCELADA]).
  - rewrite !map_app. apply in_or_app. right.
    cbn [map ped_saga_id Pedidos.poner_estado ped_id ped_usuario_id ped_producto_id
         ped_cantidad].
    rewrite String.eqb_refl.
    cbn [map ped_saga_id Pedidos.poner_estado ped_id ped_usuario_id ped_producto_id
         ped_cantidad].
    rewrite String.eqb_refl.
    cbn [map ped_saga_id Pedidos.poner_estado ped_id ped_usuario_id ped_producto_id
         ped_cantidad].
    rewrite String.eqb_refl.
    cbn [map ped_saga_id Pedidos.poner_estado ped_id ped_usuario_id ped_producto_id
         ped_cantidad].
    by left.
Qed.

Lemma saga_con_pago_rechazado_witness :
  let w' :=
    mundo_final
      (Sistema.ejecutar
         [Sistema.PostPedidos (Pedidos.mkUsuario None (Some 1) "admin@tuso.com" "admin")
            (Pedidos.mkSolicitud (Some 1) (Some 2) (Some "pse")) "s1" "p1";
          Sistema.EntregaInventario; Sistema.EntregaPedidos;
          Sistema.EntregaPagos "t1" 0; Sistema.EntregaPedidos;
          Sistema.EntregaPagos "t2" 0; Sistema.EntregaInventario]
         [] Sistema.mundo_inicial) in
  productos w' = productos Sistema.mundo_inicial.
Proof.
  exact (proj1 (saga_con_pago_rechazado 1 1 2 10 None "admin@tuso.com" "admin" "pse"
                  "s1" "p1" "t1" "t2" 0 0 Sistema.mundo_inicial
                  eq_refl eq_refl ltac:(lia) eq_refl eq_refl eq_refl eq_refl eq_refl
                  eq_refl eq_refl eq_refl
                  (Forall_nil_2 _) (Forall_nil_2 _) eq_refl)).
Defined.

(** A saga that asks for more than the stock is cancelled and changes
    nothing in inventory or payments.  On a store with empty queues and a
    saga id new to inventory and payments, with a user id, a product id and
    a quantity that are values of their INTEGER columns, when the quantity
    exceeds the stock of the product: the order is posted, the inventory
    refuses, the orchestrator compensates, and the two compensation
    commands find nothing to undo.  Products, reservations and transactions
    end as they were, the statuses written are INICIADA, COMPENSANDO,
    CANCELADA and both queues are empty. *)
Theorem saga_sin_stock (u p c s : Z) (uid : option Z)
    (email role sid pid tx : string) (metodo : option string) (azar : Q) (w : Mundo) :
  productos w !! p = Some s → s < c →
  es_integer u = true → es_integer p = true → es_integer c = true →
  saga_events w = [] → pedidos_responses w = [] →
  Forall (λ r, res_saga_id r ≠ sid) (reservas_temporales w) →
  Forall (λ t, tx_saga_id t ≠ sid) (transacciones w) →
  let w' :=
    mundo_final
      (Sistema.ejecutar
         [Sistema.PostPedidos (Pedidos.mkUsuario uid (Some u) email role)
            (Pedidos.mkSolicitud (Some p) (Some c) metodo) sid pid;
          Sistema.EntregaInventario; Sistema.EntregaPedidos;
          Sistema.EntregaPagos tx azar; Sistema.EntregaInventario] [] w) in
  productos w' = productos w
  ∧ reservas_temporales w' = reservas_temporales w
  ∧ transacciones w' = transacciones w
  ∧ Sistema.estados_escritos sid w'
    = Sistema.estados_escritos sid w ++ [INICIADA; COMPENSANDO; CANCELADA]
  ∧ In (mkPedido pid sid u p c CANCELADA) (pedidos w')
  ∧ saga_events w' = [] ∧ pedidos_responses w' = [].
Proof.
  intros Hs Hlt Hiu Hip Hic Hq1 Hq2 Hr Ht. cbn zeta.
  apply Z.ltb_lt in Hlt.
  match goal with
  | |- context [Sistema.ejecutar ?ps [] w] =>
      eassert (Hfin : Sistema.ejecutar ps [] w = _)
  end.
  { erewrite ejecutar_paso; [|by apply paso_post_pedidos].
    simpl_mundo. rewrite Hq1. simpl_mundo.
    erewrite ejecutar_paso;
      [|cbn [Sistema.paso]; eapply entregar_ok;
        [reflexivity
        |apply (consumidor_reservar _ _ _ s); [exact Hs|exact Hip|by left]]].
    rewrite Hlt. simpl_mundo. rewrite Hq2. simpl_mundo.
    erewrite ejecutar_paso;
      [|cbn [Sistema.paso]; eapply entregar_ok;
        [reflexivity
        |rewrite processSagaResponse_fallo by (by left);
         apply compensateSaga_completo]].
    rewrite compensateSaga_sin_fallas. cbn [String.eqb Ascii.eqb Bool.eqb].
    simpl_mundo.
    erewrite ejecutar_paso;
      [|cbn [Sistema.paso]; eapply entregar_ok;
        [reflexivity
        |apply consumidor_compensar_pago; simpl_mundo;
         apply (sin_transacciones_de_saga _ _ _ Ht)]].
    simpl_mundo.
    erewrite ejecutar_paso;
      [|cbn [Sistema.paso]; eapply entregar_ok;
        [reflexivity
        |apply consumidor_liberar; unfold cabe_liberacion; simpl_mundo;
         by rewrite (sin_reservas_de_saga _ _ _ Hr)]].
    unfold liberado. simpl_mundo.
    rewrite (sin_reservas_de_saga _ _ _ Hr). simpl_mundo.
    cbn [Sistema.ejecutar]. reflexivity. }
  rewrite Hfin. unfold mundo_final. simpl_mundo.
  split; [reflexivity|]. split; [reflexivity|]. split; [reflexivity|].
  split; [|split; [|split; reflexivity]].
  - unfold Sistema.estados_escritos. simpl_mundo. rewrite <- !app_assoc.
    apply (escritos_al_final sid (bitacora w) [INICIADA; COMPENSANDO; CANCELADA]).
  - rewrite !map_app. apply in_or_app. right.
    cbn [map ped_saga_id Pedidos.poner_estado ped_id ped_usuario_id ped_producto_id
         ped_cantidad].
    rewrite String.eqb_refl.
    cbn [map ped_saga_id Pedidos.poner_estado ped_id ped_usuario_id ped_producto_id
         ped_cantidad].
    rewrite String.eqb_refl.
    cbn [map ped_saga_id Pedidos.poner_estado ped_id ped_usuario_id ped_producto_id
         ped_cantidad].
    by left.
Qed.

Lemma saga_sin_stock_witness :
  let w' :=
    mundo_final
      (Sistema.ejecutar
         [Sistema.PostPedidos (Pedidos.mkUsuario None (Some 1) "admin@tuso.com" "admin")
            (Pedidos.mkSolicitud (Some 1) (Some 999) (Some "tarjeta_credito")) "s1" "p1";
          Sistema.EntregaInventario; Sistema.EntregaPedidos;
          Sistema.EntregaPagos "t1" 0; Sistema.EntregaInventario]
         [] Sistema.mundo_inicial) in
  productos w' = productos Sistema.mundo_inicial.
Proof.
  exact (proj1 (saga_sin_stock 1 1 999 10 None "admin@tuso.com" "admin"
                  "s1" "p1" "t1" (Some "tarjeta_credito") 0 Sistema.mundo_inicial
                  eq_refl ltac:(lia) eq_refl eq_refl eq_refl eq_refl eq_refl
                  (Forall_nil_2 _) (Forall_nil_2 _))).
Defined.

(** ** The routes that read *)

(** The three query routes only read.  Whichever calls reject,
    [GET /sagas/:sagaId], [GET /transacciones/:sagaId] and [GET /productos]
    leave the store as it was and answer: with 200 and the rows selected,
    or with 500.  None rejects.  The rows selected for a saga are those of
    the uuid the store reads in the text of the URL; a text that is not a
    uuid is answered 500. *)
Theorem consultas_solo_leen (uuid_in : string → option string) (sagaId : string)
    (fs : Fallas) (w : Mundo) :
  sat (Pedidos.get_saga uuid_in sagaId) fs w (λ r w',
    w' = w
    ∧ (r = Ok (500, Pedidos.JsonSagaError "Error interno")
       ∨ ∃ u, uuid_in sagaId = Some u
           ∧ r = Ok (200,
                     Pedidos.JsonSaga
                       (head (List.filter (λ p, (ped_saga_id p =? u)%string) (pedidos w)))
                       (List.filter (λ e, (sp_saga_id e =? u)%string) (saga_estados w)))))
  ∧ sat (Pagos.get_transacciones uuid_in sagaId) fs w (λ r w',
      w' = w
      ∧ (r = Ok (500, None)
         ∨ ∃ u, uuid_in sagaId = Some u
             ∧ r = Ok (200,
                       Some (List.filter (λ t, (tx_saga_id t =? u)%string)
                               (transacciones w)))))
  ∧ sat Inventario.get_productos fs w (λ r w',
      w' = w
      ∧ (r = Ok (500, None)
         ∨ ∃ filas, r = Ok (200, Some filas)
             ∧ ∀ id s, filas !! id = Some s ↔ productos w !! id = Some s ∧ 0 < s)).
Proof.
  unfold Pedidos.get_saga, Pagos.get_transacciones, Inventario.get_productos,
    select_por_saga_id.
  destruct (uuid_in sagaId) as [u|]; pasos_sat; auto.
  1,2: right; by exists u.
  all: right; eexists; (split; [reflexivity|]); intros id s;
    by rewrite map_lookup_filter_Some.
Qed.

(** Round trip of a payment: after [procesarPago] handled a payment with a
    method of the allow-list and an amount that fits its column,
    [GET /transacciones/:sagaId], with any text the store reads as the uuid
    of the saga, lists the rows the saga had followed by the one of this
    payment, which is APROBADA exactly when [procesarPago] returned
    [true]. *)
Theorem get_transacciones_tras_pago (uuid_in : string → option string)
    (sid texto : string) (payload : Payload)
    (tx : string) (azar : Q) (metodo : string) (w : Mundo) :
  metodoPago payload = Some metodo →
  Pagos.includes Pagos.metodosValidos (Some metodo) = true →
  es_decimal_10_2
    (Pagos.montoTotal (Pagos.obtenerPrecioProducto (productoId payload))
       (cantidad payload)) = true →
  uuid_in texto = Some sid →
  (correr (exitoso ← Pagos.procesarPago sid payload tx azar;
           respuesta ← Pagos.get_transacciones uuid_in texto;
           mret (exitoso, respuesta)) w).1
  = Ok (negb (Qle_bool azar (1 # 10)),
        (200,
         Some (List.filter (λ t, (tx_saga_id t =? sid)%string) (transacciones w)
               ++ [mkTransaccion tx sid
                     (Pagos.montoTotal (Pagos.obtenerPrecioProducto (productoId payload))
                        (cantidad payload))
                     metodo
                     (if negb (Qle_bool azar (1 # 10)) then APROBADA else RECHAZADA)
                     (reloj w)]))).
Proof.
  intros Hp Hm Hd Ht. unfold Pagos.procesarPago, Pagos.insert_transaccion,
    Pagos.get_transacciones, select_por_saga_id.
  desplegar. rewrite Hp, Hm, Ht. cbn. rewrite Hd. cbn.
  by rewrite List.filter_app; cbn; rewrite String.eqb_refl.
Qed.

Lemma get_transacciones_tras_pago_witness :
  (correr (exitoso ← Pagos.procesarPago "123e4567-e89b-42d3-a456-426614174000"
                       (mkPayload (Some 1) (Some 2) (Some "p1") (Some "pse") None None)
                       "t1" (1 # 2);
           respuesta ← Pagos.get_transacciones uuid_postgres
                         "123E4567E89B42D3A456426614174000";
           mret (exitoso, respuesta)) Sistema.mundo_inicial).1
  = Ok (true,
        (200,
         Some [mkTransaccion "t1" "123e4567-e89b-42d3-a456-426614174000" (Some 900000)
                 "pse" APROBADA 0])).
Proof.
  exact (get_transacciones_tras_pago uuid_postgres
           "123e4567-e89b-42d3-a456-426614174000" "123E4567E89B42D3A456426614174000"
           (mkPayload (Some 1) (Some 2) (Some "p1") (Some "pse") None None)
           "t1" (1 # 2) "pse" Sistema.mundo_inicial eq_refl eq_refl eq_refl eq_refl).
Defined.

Lemma get_productos_sin_fallas w :
  correr Inventario.get_productos w
  = (Ok (200, Some (filter (λ fila : Z * Z, 0 < fila.2) (productos w))), w).
Proof. reflexivity. Qed.

(** A product whose whole stock is reserved leaves the listing of
    [GET /productos], and is listed again with its stock once the
    reservation is released.  (Were the id or the stock of the row not a
    value of its INTEGER column, the reservation would be refused and the
    product would stay listed.) *)
Theorem get_productos_reserva_y_liberacion (sid : string) (p s : Z) (w : Mundo) :
  productos w !! p = Some s → 0 < s →
  List.filter (Inventario.reserva_de sid ACTIVA) (reservas_temporales w) = [] →
  let listado w := (correr Inventario.get_productos w).1 in
  let w1 := (correr (Inventario.reservarStock sid (Some p) (Some s)) w).2 in
  let w2 := (correr (Inventario.liberarStock sid) w1).2 in
  (∃ filas, listado w = Ok (200, Some filas) ∧ filas !! p = Some s)
  ∧ (∃ filas, listado w1 = Ok (200, Some filas)
       ∧ filas !! p = if es_integer p && es_integer s then None else Some s)
  ∧ (∃ filas, listado w2 = Ok (200, Some filas) ∧ filas !! p = Some s).
Proof.
  intros Hs Hpos Hr. cbn zeta.
  assert (Hl : correr (Inventario.liberarStock sid) w = (Ok tt, w)).
  { rewrite liberarStock_sin_fallas. unfold cabe_liberacion, liberado. by rewrite Hr. }
  assert (H0 : filter (λ fila : Z * Z, 0 < fila.2) (productos w) !! p = Some s)
    by by apply map_lookup_filter_Some.
  destruct (es_integer p) eqn:Hip; cbn [andb].
  - rewrite (reservarStock_sin_fallas _ _ _ _ _ Hs Hip), Z.ltb_irrefl, Z.sub_diag.
    change (es_integer 0) with true.
    destruct (es_integer s) eqn:His; cbn [snd].
    + assert (Hc : cabe_liberacion sid (reservado sid p s w) = true).
      { unfold cabe_liberacion, reservado. destruct w; cbn in *.
        rewrite List.filter_app, Hr. cbn [List.filter app].
        rewrite reserva_nueva_activa. cbn.
        rewrite lookup_alter_eq, Hs. cbn. by rewrite Z.sub_diag. }
      rewrite liberarStock_sin_fallas, Hc, !get_productos_sin_fallas. cbn [fst snd].
      split; [|split]; eexists; (split; [reflexivity|]).
      * done.
      * apply map_lookup_filter_None. right. intros s'.
        unfold reservado. destruct w; cbn in *.
        rewrite lookup_alter_eq, Hs. cbn. intros [= <-]. lia.
      * apply map_lookup_filter_Some. split; [|done].
        unfold liberado, reservado. destruct w; cbn in *.
        rewrite List.filter_app, Hr. cbn [List.filter app].
        rewrite reserva_nueva_activa. cbn.
        by rewrite alter_ida_y_vuelta.
    + rewrite Hl, !get_productos_sin_fallas. cbn [fst snd].
      split; [|split]; eexists; (split; [reflexivity|exact H0]).
  - assert (Hx : (correr (Inventario.reservarStock sid (Some p) (Some s)) w).2 = w).
    { pose proof (reservarStock_casos sid (Some p) (Some s) w []) as H.
      unfold sat in H.
      destruct H as [[_ H]|(id & c & st & [= <-] & _ & _ & _ & Hid & _)];
        [exact H|congruence]. }
    rewrite Hx, Hl, !get_productos_sin_fallas. cbn [fst snd].
    split; [|split]; eexists; (split; [reflexivity|exact H0]).
Qed.

Lemma get_productos_reserva_y_liberacion_witness :
  ∃ filas,
    (correr Inventario.get_productos
       (correr (Inventario.reservarStock "s1" (Some 4) (Some 8)) Sistema.mundo_inicial).2).1
    = Ok (200, Some filas)
    ∧ filas !! 4 = None.
Proof.
  exact (proj1 (proj2 (get_productos_reserva_y_liberacion "s1" 4 8 Sistema.mundo_inicial
                         eq_refl ltac:(lia) eq_refl))).
Defined.

(** ** The route POST /pedidos *)

(** A request without a token the verifier accepts never reaches the
    handler: the route answers 401 or 403 with an error body, makes no call
    to the store or to the channel and writes nothing. *)
Theorem ruta_post_pedidos_sin_credencial (jwt_verify : string → option Pedidos.Usuario)
    (authHeader : option string) (body : Pedidos.Solicitud) (sagaId pedidoId : string)
    (fs : Fallas) (w : Mundo) :
  (∀ t, Pedidos.token_de authHeader = Some t → jwt_verify t = None) →
  ∃ estatus mensaje,
    (estatus = 401 ∨ estatus = 403)
    ∧ Pedidos.ruta_post_pedidos jwt_verify authHeader body sagaId pedidoId fs w
      = (Ok (Pedidos.mkHttpRes estatus (Pedidos.JsonError mensaje)), w, fs).
Proof.
  intros H. unfold Pedidos.ruta_post_pedidos, Pedidos.authenticateToken.
  destruct (Pedidos.token_de authHeader) as [t|].
  - rewrite (H t eq_refl). eexists _, _. split; [by right|reflexivity].
  - eexists _, _. split; [by left|reflexivity].
Qed.

Lemma ruta_post_pedidos_sin_credencial_witness :
  ∃ estatus mensaje,
    (estatus = 401 ∨ estatus = 403)
    ∧ Pedidos.ruta_post_pedidos
        (λ t, if (t =? "abc")%string
              then Some (Pedidos.mkUsuario None (Some 1) "a" "admin") else None)
        (Some "Bearer xyz")
        (Pedidos.mkSolicitud (Some 1) (Some 2) (Some "pse")) "s1" "p1"
        [] Sistema.mundo_inicial
      = (Ok (Pedidos.mkHttpRes estatus (Pedidos.JsonError mensaje)),
         Sistema.mundo_inicial, []).
Proof.
  apply ruta_post_pedidos_sin_credencial.
  intros t Ht. vm_compute in Ht. by injection Ht as <-.
Defined.

(** ** The queue both participants consume *)

(** A command handed to the consumer that does not handle it is lost: the
    callback acknowledges it without running a handler, so it leaves the
    queue, nothing else in the store changes, no call is made and nothing
    is answered. *)
Theorem comando_ajeno_se_pierde (msg : Mensaje) (q : list Mensaje)
    (transactionId : string) (azar : Q) (fs : Fallas) (w : Mundo) :
  saga_events w = msg :: q →
  (msg_evento msg ≠ "RESERVAR_INVENTARIO" → msg_evento msg ≠ "LIBERAR_INVENTARIO" →
   Sistema.paso Sistema.EntregaInventario fs w
   = (Ok tt, con_saga_events (λ _, q) w, fs))
  ∧ (msg_evento msg ≠ "PROCESAR_PAGO" → msg_evento msg ≠ "COMPENSAR_PAGO" →
     Sistema.paso (Sistema.EntregaPagos transactionId azar) fs w
     = (Ok tt, con_saga_events (λ _, q) w, fs)).
Proof.
  intros Hq. split; intros H1%String.eqb_neq H2%String.eqb_neq.
  all: cbn [Sistema.paso]; unfold Sistema.entregar; rewrite Hq.
  all: unfold Inventario.consumidor, Pagos.consumidor; rewrite H1, H2; cbn.
  all: unfold Sistema.ack_saga_events; destruct w; cbn in *; by rewrite Hq.
Qed.

Lemma comando_ajeno_se_pierde_witness :
  Sistema.paso (Sistema.EntregaPagos "t1" (1 # 2)) [] mundo_con_pedido
  = (Ok tt, con_saga_events (λ _, []) mundo_con_pedido, []).
Proof.
  refine (proj2 (comando_ajeno_se_pierde
                   (mkMensaje "s1" "RESERVAR_INVENTARIO"
                      (mkPayload (Some 1) (Some 2) (Some "p1") (Some "tarjeta_credito")
                         None None) 0)
                   [] "t1" (1 # 2) [] mundo_con_pedido _) _ _);
    [reflexivity|discriminate|discriminate].
Defined.

(** ** Witnesses of the conservation and of the sweep *)

Lemma liberarStock_conserva_witness :
  Sistema.stock_total 1
    (mundo_final (Inventario.liberarStock "s1" [] (reservado "s1" 1 2 Sistema.mundo_inicial)))
  = Sistema.stock_total 1 (reservado "s1" 1 2 Sistema.mundo_inicial).
Proof.
  apply liberarStock_conserva.
  intros r l H. vm_compute in H. injection H as <- <-.
  split; [reflexivity|]. exists 8. by vm_compute.
Defined.

Lemma barrido_fuera_de_ventana_witness :
  productos
    (correr Inventario.barrido
       (con_reloj (λ _, 700000) (reservado "s1" 1 2 Sistema.mundo_inicial))).2
  = productos (reservado "s1" 1 2 Sistema.mundo_inicial).
Proof.
  refine (proj1 (barrido_fuera_de_ventana
                   (con_reloj (λ _, 700000) (reservado "s1" 1 2 Sistema.mundo_inicial)) _)).
  intros r [<-|[]]. vm_compute. discriminate.
Defined.
